(** * Pagion: UID directory, contact graph and message thread

    A shallow embedding of the parts of the repository that carry logic:

    - the PostgreSQL schema, row-level policies, triggers and the two
      PL/pgSQL routines of [supabase/migrations] (module [Pg]);
    - the request orchestration of the React components
      [ChatArea.tsx], [ContactsList.tsx] and [Settings.tsx]
      (modules [ChatArea], [ContactsList], [Settings]).

    A table is the list of its rows, in the order in which a query
    without [ORDER BY] returns them.  Values the backend draws from its
    environment (fresh primary keys, [now()], the entropy read by the
    handle generator, [Date.now()], [Math.random()], and the order in
    which one execution of [ORDER BY created_at] returns rows created
    at the same instant) are explicit arguments.  JavaScript and SQL
    text is modelled by [string]; one character of a [string] stands
    for one code unit. *)

From Stdlib Require Import String Ascii List ZArith NArith Bool Arith Lia.
From Stdlib Require Import Permutation Sorted.
Import ListNotations.

Local Open Scope string_scope.
Local Open Scope list_scope.

Definition UUID := string.

(** ** JavaScript string primitives used by the components *)

Module Js.

(** White space removed by [String.prototype.trim], restricted to code
    units below 256: TAB, LF, VT, FF, CR, SPACE and NBSP. *)
Definition is_whitespace (c : ascii) : bool :=
  let n := nat_of_ascii c in
  ((9 <=? n)%nat && (n <=? 13)%nat) || (n =? 32)%nat || (n =? 160)%nat.

Fixpoint trimStart (ws : ascii -> bool) (s : string) : string :=
  match s with
  | EmptyString => EmptyString
  | String c s' => if ws c then trimStart ws s' else s
  end.

Fixpoint trimEnd (ws : ascii -> bool) (s : string) : string :=
  match s with
  | EmptyString => EmptyString
  | String c s' =>
      match trimEnd ws s' with
      | EmptyString => if ws c then EmptyString else String c EmptyString
      | t => String c t
      end
  end.

Definition trim_with (ws : ascii -> bool) (s : string) : string :=
  trimEnd ws (trimStart ws s).

(** [s.trim()] *)
Definition trim (s : string) : string := trim_with is_whitespace s.

(** Truthiness of a string: only the empty string is falsy. *)
Definition truthy (s : string) : bool :=
  match s with EmptyString => false | _ => true end.

(** [s.substring(i, j)] for [i <= j]: the code units [i .. j-1], clipped
    to the length of [s]. *)
Definition substring (i j : nat) (s : string) : string :=
  String.substring i (j - i) s.

(** [a || b] on strings. *)
Definition or_else (a b : string) : string := if truthy a then a else b.

(** *** [Number.prototype.toString(36)] on a value of [Math.random()]

    [Math.random()] yields a double in [[0,1)]; such a double is
    [m / 2^53] for a natural [m < 2^53], and is given here by [m].
    [toString36] writes the full positional base-36 expansion of the
    value, which terminates because 36 is even.  Engines print "0" for
    zero and otherwise "0." followed by the fewest digits that identify
    the double, the last of them rounded; that text is the expansion
    written here when the expansion is that short, as it is for 1/2
    ("0.i"), and a shortened form of it otherwise. *)
Definition mantissa_bits : N := 53.

Definition digit36 (d : N) : ascii :=
  if (d <? 10)%N then ascii_of_N (48 + d) else ascii_of_N (87 + d).

Fixpoint fraction36 (fuel : nat) (m : N) : string :=
  match fuel with
  | O => EmptyString
  | S fuel' =>
      if (m =? 0)%N then EmptyString
      else
        let shifted := (m * 36)%N in
        String (digit36 (N.shiftr shifted mantissa_bits))
               (fraction36 fuel' (N.land shifted (N.ones mantissa_bits)))
  end.

Definition toString36 (m : N) : string :=
  if (m =? 0)%N then "0" else "0." ++ fraction36 53 m.

(** *** [String.prototype.toLowerCase] and [String.prototype.includes]

    On code units below 256 lowering moves A-Z and the capital letters
    of the range 192-222 (all but the sign at 215) up by 32 and leaves
    every other unit as it is. *)
Definition lower (c : ascii) : ascii :=
  let n := nat_of_ascii c in
  if ((65 <=? n)%nat && (n <=? 90)%nat)
     || ((192 <=? n)%nat && (n <=? 222)%nat && negb (n =? 215)%nat)
  then ascii_of_nat (n + 32)
  else c.

Fixpoint toLowerCase (s : string) : string :=
  match s with
  | EmptyString => EmptyString
  | String c s' => String (lower c) (toLowerCase s')
  end.

(** [s.includes(sub)]: [sub] occurs in [s] at some position. *)
Fixpoint includes (s sub : string) : bool :=
  String.prefix sub s
  || match s with
     | EmptyString => false
     | String _ s' => includes s' sub
     end.

End Js.

(** ** The database: schema, policies, triggers, routines *)

Module Pg.

(** [public.profiles] *)
Record profile := mkProfile {
  pr_id : UUID;
  pr_user_id : UUID;
  pr_name : string;
  pr_uid : string;
  pr_avatar_color : string;
  pr_created_at : Z;
  pr_updated_at : Z
}.

(** [public.contacts] *)
Record contact := mkContact {
  ct_id : UUID;
  ct_user_id : UUID;
  ct_contact_user_id : UUID;
  ct_created_at : Z
}.

(** [public.messages] *)
Record message := mkMessage {
  id : UUID;
  sender_id : UUID;
  receiver_id : UUID;
  content : string;
  reply_to_id : option UUID;
  is_edited : bool;
  created_at : Z;
  updated_at : Z
}.

Record database := mkDatabase {
  profiles : list profile;
  contacts : list contact;
  messages : list message
}.

(** Errors a statement can raise. *)
Inductive exception :=
| unique_violation
| foreign_key_violation
| Not_authorized_to_update_this_profile
| Failed_to_generate_unique_UID (attempts : Z)
| Message_content_cannot_be_empty
| Message_content_exceeds_maximum_length
| row_level_security_violation
| more_than_one_row.

Inductive outcome (A : Type) :=
| Return (a : A)
| Raise (e : exception).
Arguments Return {A} a.
Arguments Raise {A} e.

(** [auth.uid() = x] as a policy condition: NULL never satisfies it. *)
Definition auth_is (auth : option UUID) (x : UUID) : bool :=
  match auth with
  | Some a => String.eqb a x
  | None => false
  end.

(** *** [lookup_profile_by_uid] *)

(** Statements a routine sends to storage. *)
Inductive statement :=
| Select_profiles_where_uid (p_uid : string).

Definition lookup_profile_by_uid (p_uid : option string) (db : database)
  : list (UUID * string) * list statement :=
  match p_uid with
  | None => ([], [])
  | Some u =>
      if negb (String.length u =? 8)%nat then ([], [])
      else
        (firstn 1
           (map (fun p => (pr_user_id p, pr_name p))
                (filter (fun p => String.eqb (pr_uid p) u) (profiles db))),
         [Select_profiles_where_uid u])
  end.

(** *** [UPDATE public.profiles SET uid = ..., updated_at = now()
        WHERE user_id = ...]

    The rows touched are those the WHERE clause and the policy
    "Users can update own profile" both select.  The statement fails
    with [unique_violation] when a touched row would share its [uid]
    with another row. *)
Definition touches (auth : option UUID) (p_user_id : UUID) (p : profile) : bool :=
  String.eqb (pr_user_id p) p_user_id && auth_is auth (pr_user_id p).

Definition set_uid (new_uid : string) (now : Z) (p : profile) : profile :=
  mkProfile (pr_id p) (pr_user_id p) (pr_name p) new_uid
            (pr_avatar_color p) (pr_created_at p) now.

Definition uid_conflict (auth : option UUID) (p_user_id : UUID)
           (new_uid : string) (tbl : list profile) : bool :=
  let hit := filter (touches auth p_user_id) tbl in
  let rest := filter (fun p => negb (touches auth p_user_id p)) tbl in
  (2 <=? length hit)%nat
  || ((1 <=? length hit)%nat
      && existsb (fun p => String.eqb (pr_uid p) new_uid) rest).

Definition update_profile_uid (auth : option UUID) (p_user_id : UUID)
           (new_uid : string) (now : Z) (tbl : list profile)
  : outcome (list profile) :=
  if uid_conflict auth p_user_id new_uid tbl then Raise unique_violation
  else Return (map (fun p => if touches auth p_user_id p
                             then set_uid new_uid now p else p) tbl).

(** *** [regenerate_profile_uid] *)

(** What one pass of the loop reads from the environment, as text. *)
Record entropy := mkEntropy {
  gen_random_uuid : string;
  clock_timestamp : string;
  random : string
}.

Definition max_attempts : Z := 10.

Section Regenerate.

(** [md5] is a built-in of the database; it maps text to 32
    hexadecimal digits. *)
Variable md5 : string -> string.

(** [substring(md5(...), 1, 8)] *)
Definition candidate (e : entropy) : string :=
  String.substring 0 8
    (md5 (gen_random_uuid e ++ clock_timestamp e ++ random e)).

(** Whether persisting the candidate of pass [i] meets a
    uniqueness conflict. *)
Definition collides (src : nat -> entropy) (auth : option UUID)
           (p_user_id : UUID) (tbl : list profile) (i : nat) : bool :=
  uid_conflict auth p_user_id (candidate (src i)) tbl.

(** The [LOOP ... END LOOP] block.  [src i] is what the [i]-th pass
    draws; [fuel] bounds the number of passes the model unfolds. *)
Fixpoint regenerate_loop (fuel : nat) (src : nat -> entropy) (i : nat)
         (attempt : Z) (now : Z) (auth : option UUID) (p_user_id : UUID)
         (tbl : list profile) : option (outcome string * list profile) :=
  match fuel with
  | O => None
  | S fuel' =>
      let new_uid := candidate (src i) in
      match update_profile_uid auth p_user_id new_uid now tbl with
      | Return tbl' => Some (Return new_uid, tbl')
      | Raise unique_violation =>
          let attempt := (attempt + 1)%Z in
          if (attempt >=? max_attempts)%Z
          then Some (Raise (Failed_to_generate_unique_UID max_attempts), tbl)
          else regenerate_loop fuel' src (S i) attempt now auth p_user_id tbl
      | Raise e => Some (Raise e, tbl)
      end
  end.

(** [IF auth.uid() != p_user_id]: true only when both sides are
    known and differ. *)
Definition regenerate_profile_uid (fuel : nat) (src : nat -> entropy)
           (now : Z) (auth : option UUID) (p_user_id : UUID)
           (tbl : list profile) : option (outcome string * list profile) :=
  match auth with
  | Some a =>
      if negb (String.eqb a p_user_id)
      then Some (Raise Not_authorized_to_update_this_profile, tbl)
      else regenerate_loop fuel src 0 0 now auth p_user_id tbl
  | None => regenerate_loop fuel src 0 0 now auth p_user_id tbl
  end.

End Regenerate.

(** *** Requests of the client library

    Every call answers with [{ data, error }]. *)
Record response (A : Type) := mkResponse {
  data : option A;
  error : option exception
}.
Arguments mkResponse {A} data error.
Arguments data {A} r.
Arguments error {A} r.

Definition ok {A : Type} (a : A) : response A := mkResponse (Some a) None.
Definition failed {A : Type} (e : exception) : response A := mkResponse None (Some e).

(** Policy "Users can view their messages". *)
Definition can_view_message (auth : option UUID) (m : message) : bool :=
  auth_is auth (sender_id m) || auth_is auth (receiver_id m).

(** [ORDER BY created_at ASC].  The clause sorts by [created_at] and by
    nothing else: rows with equal [created_at] have no key to separate
    them, and the engine returns them in an order of its choosing,
    which can differ from one execution to the next and after a row
    has been rewritten.  What one execution chooses is given by a
    ranking of the rows, a [tie_order]: of two rows created at the same
    instant the one of lower rank comes first; rows the ranking does
    not separate come as the list has them. *)
Definition tie_order := message -> nat.

Definition sorts_before (pick : tie_order) (m x : message) : bool :=
  (created_at m <? created_at x)%Z
  || ((created_at m =? created_at x)%Z && (pick m <=? pick x)%nat).

Fixpoint insert_by_created_at (pick : tie_order) (m : message) (l : list message)
  : list message :=
  match l with
  | [] => [m]
  | x :: l' =>
      if sorts_before pick m x then m :: l
      else x :: insert_by_created_at pick m l'
  end.

Definition order_by_created_at (pick : tie_order) (l : list message) : list message :=
  fold_right (insert_by_created_at pick) [] l.

(** [or(and(sender_id.eq.a,receiver_id.eq.b),and(sender_id.eq.b,receiver_id.eq.a))] *)
Definition in_thread (a b : UUID) (m : message) : bool :=
  (String.eqb (sender_id m) a && String.eqb (receiver_id m) b)
  || (String.eqb (sender_id m) b && String.eqb (receiver_id m) a).

(** [from('messages').select('*').or(...).order('created_at', { ascending: true })] *)
Definition select_thread (pick : tie_order) (auth : option UUID) (a b : UUID)
           (db : database) : response (list message) :=
  ok (order_by_created_at pick
        (filter (fun m => can_view_message auth m && in_thread a b m)
                (messages db))).

(** [from('messages').select('content, sender_id').eq('id', x).maybeSingle()] *)
Definition select_message (auth : option UUID) (x : UUID) (db : database)
  : response (string * UUID) :=
  match filter (fun m => can_view_message auth m && String.eqb (id m) x)
               (messages db) with
  | [] => mkResponse None None
  | [m] => ok (content m, sender_id m)
  | _ => failed more_than_one_row
  end.

(** Trigger [validate_message_content]; SQL [trim] strips spaces. *)
Definition is_space (c : ascii) : bool := Ascii.eqb c " "%char.

Definition validate_message_content (new_content : string) : option exception :=
  if (String.length (Js.trim_with is_space new_content) =? 0)%nat
  then Some Message_content_cannot_be_empty
  else if (10000 <? Z.of_nat (String.length new_content))%Z
       then Some Message_content_exceeds_maximum_length
       else None.

(** [from('messages').insert({ sender_id, receiver_id, content, reply_to_id })].
    [new_id] and [now] are the defaults the table draws for [id] and
    for both timestamps. *)
Definition insert_message (auth : option UUID) (new_id : UUID) (now : Z)
           (sender receiver : UUID) (text : string) (reply : option UUID)
           (db : database) : response unit * database :=
  match validate_message_content text with
  | Some e => (failed e, db)
  | None =>
      if negb (auth_is auth sender) then (failed row_level_security_violation, db)
      else if existsb (fun m => String.eqb (id m) new_id) (messages db)
      then (failed unique_violation, db)
      else
        let referenced :=
          match reply with
          | None => true
          | Some r => existsb (fun m => String.eqb (id m) r) (messages db)
          end in
        if negb referenced then (failed foreign_key_violation, db)
        else
          (ok tt,
           mkDatabase (profiles db) (contacts db)
             (messages db ++
                [mkMessage new_id sender receiver text reply false now now]))
  end.

(** [from('messages').update({ content, is_edited: true }).eq('id', x)]
    under the policy "Users can edit own messages", with the triggers
    [update_messages_updated_at] and [validate_message_content_trigger].
    The rewritten row takes the place of the old one in the list; where
    the engine keeps it, and so where it comes among rows created at
    the same instant, is left to the [tie_order] of each query. *)
Definition edits (auth : option UUID) (x : UUID) (m : message) : bool :=
  String.eqb (id m) x && auth_is auth (sender_id m).

Definition set_content (text : string) (now : Z) (m : message) : message :=
  mkMessage (id m) (sender_id m) (receiver_id m) text (reply_to_id m)
            true (created_at m) now.

Definition update_message (auth : option UUID) (x : UUID) (text : string)
           (now : Z) (db : database) : response unit * database :=
  if existsb (edits auth x) (messages db) then
    match validate_message_content text with
    | Some e => (failed e, db)
    | None =>
        (ok tt,
         mkDatabase (profiles db) (contacts db)
           (map (fun m => if edits auth x m then set_content text now m else m)
                (messages db)))
    end
  else (ok tt, db).

(** [from('messages').delete().eq('id', x)] under the policy
    "Users can delete own messages".  [reply_to_id ... ON DELETE SET
    NULL] then updates the rows that referenced a deleted one.  That
    update fires the row triggers of the table on each of them:
    [update_messages_updated_at], and [validate_message_content_trigger],
    which raises when the content the row already has does not pass;
    the whole statement is then undone. *)
Definition deletes (auth : option UUID) (x : UUID) (m : message) : bool :=
  String.eqb (id m) x && auth_is auth (sender_id m).

Definition refers_to (x : UUID) (m : message) : bool :=
  match reply_to_id m with
  | Some r => String.eqb r x
  | None => false
  end.

(** What [validate_message_content_trigger] raises, if anything, while
    the rows of [l] that refer to [x] are rewritten. *)
Fixpoint set_null_error (x : UUID) (l : list message) : option exception :=
  match l with
  | [] => None
  | m :: l' =>
      if refers_to x m then
        match validate_message_content (content m) with
        | Some e => Some e
        | None => set_null_error x l'
        end
      else set_null_error x l'
  end.

Definition set_null (x : UUID) (now : Z) (m : message) : message :=
  match reply_to_id m with
  | Some r =>
      if String.eqb r x
      then mkMessage (id m) (sender_id m) (receiver_id m) (content m) None
                     (is_edited m) (created_at m) now
      else m
  | None => m
  end.

Definition delete_message (auth : option UUID) (x : UUID) (now : Z)
           (db : database) : response unit * database :=
  if existsb (deletes auth x) (messages db) then
    let kept := filter (fun m => negb (deletes auth x m)) (messages db) in
    match set_null_error x kept with
    | Some e => (failed e, db)
    | None =>
        (ok tt,
         mkDatabase (profiles db) (contacts db) (map (set_null x now) kept))
    end
  else (ok tt, db).

(** [from('contacts').select('id, contact_user_id').eq('user_id', u)]
    under the policy "Users can view own contacts". *)
Definition select_contacts (auth : option UUID) (u : UUID) (db : database)
  : response (list (UUID * UUID)) :=
  ok (map (fun c => (ct_id c, ct_contact_user_id c))
          (filter (fun c => auth_is auth (ct_user_id c)
                            && String.eqb (ct_user_id c) u)
                  (contacts db))).

(** Policy "Users can view own and contact profiles". *)
Definition can_view_profile (auth : option UUID) (db : database) (p : profile) : bool :=
  auth_is auth (pr_user_id p)
  || existsb (fun c => auth_is auth (ct_user_id c)
                       && String.eqb (ct_contact_user_id c) (pr_user_id p))
             (contacts db).

(** [from('profiles').select('user_id, name, uid, avatar_color').in('user_id', ids)] *)
Definition select_profiles_in (auth : option UUID) (ids : list UUID)
           (db : database) : response (list profile) :=
  ok (filter (fun p => can_view_profile auth db p
                       && existsb (String.eqb (pr_user_id p)) ids)
             (profiles db)).

(** [from('contacts').insert({ user_id, contact_user_id })] under the
    policy "Users can add contacts" and [UNIQUE(user_id, contact_user_id)]. *)
Definition insert_contact (auth : option UUID) (new_id : UUID) (now : Z)
           (owner peer : UUID) (db : database) : response unit * database :=
  if negb (auth_is auth owner) then (failed row_level_security_violation, db)
  else if existsb (fun c => String.eqb (ct_id c) new_id
                            || (String.eqb (ct_user_id c) owner
                                && String.eqb (ct_contact_user_id c) peer))
                  (contacts db)
  then (failed unique_violation, db)
  else
    (ok tt,
     mkDatabase (profiles db)
                (contacts db ++ [mkContact new_id owner peer now])
                (messages db)).

(** [rpc('lookup_profile_by_uid', { p_uid })]; the routine is
    SECURITY DEFINER, so no policy filters its rows. *)
Definition rpc_lookup_profile_by_uid (p_uid : string) (db : database)
  : response (list (UUID * string)) :=
  ok (fst (lookup_profile_by_uid (Some p_uid) db)).

(** [from('profiles').update({ uid }).eq('user_id', u)] with the trigger
    [update_profiles_updated_at]. *)
Definition update_uid (auth : option UUID) (u : UUID) (new_uid : string)
           (now : Z) (db : database) : response unit * database :=
  match update_profile_uid auth u new_uid now (profiles db) with
  | Return tbl => (ok tt, mkDatabase tbl (contacts db) (messages db))
  | Raise e => (failed e, db)
  end.

(** [from('contacts').delete().eq('id', x)] under the policy
    "Users can remove contacts". *)
Definition removes (auth : option UUID) (x : UUID) (c : contact) : bool :=
  String.eqb (ct_id c) x && auth_is auth (ct_user_id c).

Definition delete_contact (auth : option UUID) (x : UUID) (db : database)
  : response unit * database :=
  (ok tt,
   mkDatabase (profiles db)
              (filter (fun c => negb (removes auth x c)) (contacts db))
              (messages db)).



(** *** [generate_avatar_color]

    [colors[1 + floor(random() * array_length(colors, 1))::int]], where
    [random()] is the double [num / den] of the range [[0,1)].  Arrays
    count from 1 and give NULL outside their bounds. *)
Definition colors : list string :=
  ["#ef4444"; "#f97316"; "#eab308"; "#22c55e";
   "#14b8a6"; "#3b82f6"; "#8b5cf6"; "#ec4899"].

Definition subscript (arr : list string) (k : N) : option string :=
  if (k =? 0)%N then None else nth_error arr (N.to_nat (k - 1)).

Definition generate_avatar_color (num den : N) : option string :=
  subscript colors (1 + (num * N.of_nat (length colors)) / den)%N.

End Pg.

(** ** Shared client-side interfaces *)

Module Ui.

(** [interface Contact] (the same in all three components). *)
Record ContactProfile := mkContactProfile {
  name : string;
  uid : string;
  avatar_color : string
}.

Record Contact := mkContact {
  id : UUID;
  contact_user_id : UUID;
  profile : ContactProfile
}.

(** What [useAuth()] provides: [user] (by its [id]) and the caller's
    own [profile] row; either may be missing. *)
Record Auth := mkAuth {
  user : option UUID;
  own_profile : option Pg.profile
}.

(** Argument of [toast(...)]. *)
Record toast := mkToast {
  title : string;
  description : string;
  destructive : bool
}.

(** Requests a handler sends to the backend. *)
Inductive request :=
| Rpc_lookup_profile_by_uid (p_uid : string)
| Insert_contact (user_id contact_user_id : UUID)
| Insert_message (sender_id receiver_id : UUID) (content : string)
                 (reply_to_id : option UUID)
| Update_message (id : UUID) (content : string)
| Delete_message (id : UUID)
| Update_profile_uid (user_id : UUID) (uid : string).

(** What running a handler leaves behind. *)
Record effect (S : Type) := mkEffect {
  st : S;
  db : Pg.database;
  toasts : list toast;
  requests : list request
}.
Arguments mkEffect {S} st db toasts requests.
Arguments st {S} e.
Arguments db {S} e.
Arguments toasts {S} e.
Arguments requests {S} e.

(** A handler that returns without doing anything. *)
Definition nothing {S : Type} (s : S) (d : Pg.database) : effect S :=
  mkEffect s d [] [].

(** What running a handler leaves behind, for the handlers whose
    requests are not recorded. *)
Record outcome (S : Type) := mkOutcome {
  final : S;
  storage : Pg.database;
  notices : list toast
}.
Arguments mkOutcome {S} final storage notices.
Arguments final {S} o.
Arguments storage {S} o.
Arguments notices {S} o.

End Ui.

(** ** [ChatArea.tsx] *)

Module ChatArea.

Record reply_preview := mkReply {
  reply_content : string;
  sender_name : string
}.

(** [interface Message]: the row, and [reply_to] when it was resolved. *)
Record Message := mkMessage {
  row : Pg.message;
  reply_to : option reply_preview
}.

Record state := mkState {
  messages : list Message;
  newMessage : string;
  replyTo : option Message;
  editingMessage : option Message;
  editContent : string;
  lastMessageTime : Z
}.

Definition initial : state := mkState [] "" None None "" 0.

Definition MESSAGE_COOLDOWN : Z := 500.

(** [profile?.name || 'You'] *)
Definition own_name (auth : Ui.Auth) : string :=
  Js.or_else
    (match Ui.own_profile auth with
     | Some p => Pg.pr_name p
     | None => EmptyString
     end)
    "You".

(** The body of [data.map(async (msg) => ...)] for the viewer [u].
    [msg.reply_to_id] is a UUID or null, and a UUID is never the empty
    text, so [if (msg.reply_to_id)] tests for null. *)
Definition with_reply (auth : Ui.Auth) (u : UUID) (contact : Ui.Contact)
           (db : Pg.database) (msg : Pg.message) : Message :=
  match Pg.reply_to_id msg with
  | Some r =>
      match Pg.data (Pg.select_message (Some u) r db) with
      | Some (replied_content, replied_sender) =>
          let senderName :=
            if String.eqb replied_sender u
            then own_name auth
            else Ui.name (Ui.profile contact) in
          mkMessage msg (Some (mkReply replied_content senderName))
      | None => mkMessage msg None
      end
  | None => mkMessage msg None
  end.

(** [pick] is the order the execution of the query gives to rows
    created at the same instant. *)
Definition fetchMessages (pick : Pg.tie_order) (auth : Ui.Auth)
           (contact : option Ui.Contact) (db : Pg.database) (s : state) : state :=
  match Ui.user auth, contact with
  | Some u, Some c =>
      let r := Pg.select_thread pick (Some u) u (Ui.contact_user_id c) db in
      match Pg.error r, Pg.data r with
      | None, Some data =>
          mkState (map (with_reply auth u c db) data)
                  (newMessage s) (replyTo s) (editingMessage s)
                  (editContent s) (lastMessageTime s)
      | _, _ => s
      end
  | _, _ => s
  end.

(** *** [handleSendMessage]

    The handler runs up to its [await] when the user submits at
    [Date.now() = now], and the rest runs when the insert has answered.
    [send_request] is the first part: [None] when the handler returns
    early, otherwise the insert it issues. *)
Definition send_request (auth : Ui.Auth) (contact : option Ui.Contact)
           (s : state) (now : Z) : option Ui.request :=
  match Ui.user auth, contact with
  | Some u, Some c =>
      if negb (Js.truthy (Js.trim (newMessage s))) then None
      else if (now - lastMessageTime s <? MESSAGE_COOLDOWN)%Z then None
      else Some (Ui.Insert_message u (Ui.contact_user_id c)
                   (Js.trim (newMessage s))
                   (option_map (fun m => Pg.id (row m)) (replyTo s)))
  | _, _ => None
  end.

Definition send_failed : Ui.toast :=
  Ui.mkToast "Error" "Failed to send message." true.

(** The second part, run on the current state with the [now] the first
    part read. *)
Definition send_settled (now : Z) (error : option Pg.exception) (s : state)
  : state * list Ui.toast :=
  match error with
  | Some _ => (s, [send_failed])
  | None =>
      (mkState (messages s) "" None (editingMessage s) (editContent s) now, [])
  end.

(** The backend serving an insert request of the session [u]. *)
Definition serve (u : UUID) (new_id : UUID) (db_now : Z) (r : Ui.request)
           (db : Pg.database) : Pg.response unit * Pg.database :=
  match r with
  | Ui.Insert_message sender receiver text reply =>
      Pg.insert_message (Some u) new_id db_now sender receiver text reply db
  | _ => (Pg.ok tt, db)
  end.

(** One call run to its end before anything else happens. *)
Definition handleSendMessage (auth : Ui.Auth) (contact : option Ui.Contact)
           (now : Z) (new_id : UUID) (db_now : Z)
           (s : state) (db : Pg.database) : Ui.effect state :=
  match Ui.user auth, send_request auth contact s now with
  | Some u, Some r =>
      let (resp, db') := serve u new_id db_now r db in
      let (s', ts) := send_settled now (Pg.error resp) s in
      Ui.mkEffect s' db' ts [r]
  | _, _ => Ui.nothing s db
  end.

(** *** The chat view as an event-driven session

    Between the two parts of [handleSendMessage] the component keeps
    handling events.  A session holds the component state, the inserts
    that have been issued and not yet answered (with the [now] each
    call read), the database and the toasts shown so far. *)
Record session := mkSession {
  ui : state;
  in_flight : list (Z * Ui.request);
  store : Pg.database;
  shown : list Ui.toast
}.

Inductive event :=
| Type_message (text : string)
    (** [onChange]: [setNewMessage(e.target.value)] *)
| Press_send (now : Z)
    (** [handleSendMessage()] is called while [Date.now() = now] *)
| Insert_answers (new_id : UUID) (db_now : Z)
    (** the oldest insert in flight is served and its caller resumes *).

Definition step (auth : Ui.Auth) (contact : option Ui.Contact)
           (e : event) (w : session) : session :=
  match e with
  | Type_message text =>
      let s := ui w in
      mkSession (mkState (messages s) text (replyTo s) (editingMessage s)
                         (editContent s) (lastMessageTime s))
                (in_flight w) (store w) (shown w)
  | Press_send now =>
      match send_request auth contact (ui w) now with
      | Some r => mkSession (ui w) (in_flight w ++ [(now, r)]) (store w) (shown w)
      | None => w
      end
  | Insert_answers new_id db_now =>
      match Ui.user auth, in_flight w with
      | Some u, (now, r) :: rest =>
          let (resp, db') := serve u new_id db_now r (store w) in
          let (s', ts) := send_settled now (Pg.error resp) (ui w) in
          mkSession s' rest db' (shown w ++ ts)
      | _, _ => w
      end
  end.

Definition run (auth : Ui.Auth) (contact : option Ui.Contact)
           (es : list event) (w : session) : session :=
  fold_left (fun w e => step auth contact e w) es w.

(** *** [handleEditMessage] *)
Definition edit_failed : Ui.toast :=
  Ui.mkToast "Error" "Failed to edit message." true.

Definition handleEditMessage (auth : Ui.Auth) (db_now : Z)
           (s : state) (db : Pg.database) : Ui.effect state :=
  match editingMessage s with
  | Some m =>
      if negb (Js.truthy (Js.trim (editContent s))) then Ui.nothing s db
      else
        let x := Pg.id (row m) in
        let text := Js.trim (editContent s) in
        let (resp, db') := Pg.update_message (Ui.user auth) x text db_now db in
        match Pg.error resp with
        | Some _ => Ui.mkEffect s db' [edit_failed] [Ui.Update_message x text]
        | None =>
            Ui.mkEffect
              (mkState (messages s) (newMessage s) (replyTo s) None ""
                       (lastMessageTime s))
              db' [] [Ui.Update_message x text]
        end
  | None => Ui.nothing s db
  end.

(** *** [handleDeleteMessage] *)
Definition delete_failed : Ui.toast :=
  Ui.mkToast "Error" "Failed to delete message." true.

Definition handleDeleteMessage (auth : Ui.Auth) (messageId : UUID)
           (db_now : Z) (s : state) (db : Pg.database) : Ui.effect state :=
  let (resp, db') := Pg.delete_message (Ui.user auth) messageId db_now db in
  match Pg.error resp with
  | Some _ => Ui.mkEffect s db' [delete_failed] [Ui.Delete_message messageId]
  | None => Ui.mkEffect s db' [] [Ui.Delete_message messageId]
  end.

(** *** A session whose sends never overlap

    One [press] is the user typing [typed] and submitting at
    [Date.now() = pressed_at]; the call is run to its end, with
    [fresh_id] and [answered_at] drawn by the table if the insert is
    reached.  [presses] runs a sequence of them and returns, besides
    the final state and database, the [Date.now()] of every call whose
    insert was answered without error, oldest first. *)
Record press := mkPress {
  typed : string;
  pressed_at : Z;
  fresh_id : UUID;
  answered_at : Z
}.

Definition type_message (text : string) (s : state) : state :=
  mkState (messages s) text (replyTo s) (editingMessage s)
          (editContent s) (lastMessageTime s).

Definition accepted (e : Ui.effect state) : bool :=
  match Ui.requests e, Ui.toasts e with
  | _ :: _, [] => true
  | _, _ => false
  end.

Fixpoint presses (auth : Ui.Auth) (contact : option Ui.Contact)
         (ps : list press) (s : state) (db : Pg.database)
  : state * Pg.database * list Z :=
  match ps with
  | [] => (s, db, [])
  | p :: ps' =>
      let e := handleSendMessage auth contact (pressed_at p) (fresh_id p)
                                 (answered_at p) (type_message (typed p) s) db in
      let '(s', db', times) := presses auth contact ps' (Ui.st e) (Ui.db e) in
      (s', db', if accepted e then pressed_at p :: times else times)
  end.

End ChatArea.

(** ** [ContactsList.tsx] *)

Module ContactsList.

Record state := mkState {
  contacts : list Ui.Contact;
  searchUid : string;
  addDialogOpen : bool;
  loading : bool;
  filter : string
}.

Definition setContacts (l : list Ui.Contact) (s : state) : state :=
  mkState l (searchUid s) (addDialogOpen s) (loading s) (filter s).

Definition setLoading (b : bool) (s : state) : state :=
  mkState (contacts s) (searchUid s) (addDialogOpen s) b (filter s).

Definition placeholder : Ui.ContactProfile :=
  Ui.mkContactProfile "Unknown" "????????" "#888888".

Definition fetchContacts (auth : Ui.Auth) (db : Pg.database) (s : state) : state :=
  match Ui.user auth with
  | None => s
  | Some u =>
      let r := Pg.select_contacts (Some u) u db in
      match Pg.error r, Pg.data r with
      | None, Some (c0 :: cs) =>
          let contactsData := c0 :: cs in
          let contactUserIds := map snd contactsData in
          let pr := Pg.select_profiles_in (Some u) contactUserIds db in
          match Pg.error pr, Pg.data pr with
          | None, Some profilesData =>
              setContacts
                (map (fun c =>
                        Ui.mkContact (fst c) (snd c)
                          match find (fun p => String.eqb (Pg.pr_user_id p) (snd c))
                                     profilesData with
                          | Some p => Ui.mkContactProfile (Pg.pr_name p) (Pg.pr_uid p)
                                                          (Pg.pr_avatar_color p)
                          | None => placeholder
                          end)
                     contactsData) s
          | _, _ => setContacts [] s
          end
      | _, _ => setContacts [] s
      end
  end.

Definition invalid_uid : Ui.toast :=
  Ui.mkToast "Invalid UID" "UID must be exactly 8 characters." true.
Definition user_not_found : Ui.toast :=
  Ui.mkToast "User not found" "No user exists with that UID." true.
Definition cannot_add_yourself : Ui.toast :=
  Ui.mkToast "Invalid UID" "You can't add yourself as a contact." true.
Definition already_added : Ui.toast :=
  Ui.mkToast "Already added" "This user is already in your contacts." true.
Definition add_failed : Ui.toast :=
  Ui.mkToast "Error" "Failed to add contact." true.
Definition contact_added (found_name : string) : Ui.toast :=
  Ui.mkToast "Contact added"
             (found_name ++ " has been added to your contacts.") false.

(** [new_id] and [db_now] are what the [contacts] table draws for the
    new row when the insert is reached. *)
Definition handleAddContact (auth : Ui.Auth) (new_id : UUID) (db_now : Z)
           (s : state) (db : Pg.database) : Ui.effect state :=
  match Ui.user auth with
  | None => Ui.nothing s db
  | Some u =>
      if negb (Js.truthy (Js.trim (searchUid s))) then Ui.nothing s db
      else
        let trimmedUid := Js.trim (searchUid s) in
        if negb (String.length trimmedUid =? 8)%nat
        then Ui.mkEffect s db [invalid_uid] []
        else
          let lookup := Ui.Rpc_lookup_profile_by_uid trimmedUid in
          let r := Pg.rpc_lookup_profile_by_uid trimmedUid db in
          let foundProfile :=
            match Pg.data r with
            | Some (p :: _) => Some p
            | _ => None
            end in
          match Pg.error r, foundProfile with
          | None, Some (found_user_id, found_name) =>
              if String.eqb found_user_id u
              then Ui.mkEffect (setLoading false s) db [cannot_add_yourself] [lookup]
              else
                match find (fun c => String.eqb (Ui.contact_user_id c) found_user_id)
                           (contacts s) with
                | Some _ =>
                    Ui.mkEffect (setLoading false s) db [already_added] [lookup]
                | None =>
                    let insert := Ui.Insert_contact u found_user_id in
                    let (resp, db') :=
                      Pg.insert_contact (Some u) new_id db_now u found_user_id db in
                    match Pg.error resp with
                    | Some _ =>
                        Ui.mkEffect (setLoading false s) db' [add_failed]
                                    [lookup; insert]
                    | None =>
                        Ui.mkEffect
                          (fetchContacts auth db'
                             (mkState (contacts s) "" false false (filter s)))
                          db' [contact_added found_name] [lookup; insert]
                    end
                end
          | _, _ =>
              Ui.mkEffect (setLoading false s) db [user_not_found] [lookup]
          end
  end.

(** *** [handleRemoveContact] *)
Definition contact_removed : Ui.toast :=
  Ui.mkToast "Contact removed" "Contact has been removed from your list." false.

Definition handleRemoveContact (auth : Ui.Auth) (contactId : UUID)
           (s : state) (db : Pg.database) : Ui.outcome state :=
  let (resp, db') := Pg.delete_contact (Ui.user auth) contactId db in
  match Pg.error resp with
  | Some _ => Ui.mkOutcome s db' []
  | None =>
      Ui.mkOutcome
        (setContacts
           (List.filter (fun c => negb (String.eqb (Ui.id c) contactId)) (contacts s))
           s)
        db' [contact_removed]
  end.

(** *** [filteredContacts] *)
Definition filteredContacts (s : state) : list Ui.Contact :=
  List.filter
    (fun c => Js.includes (Js.toLowerCase (Ui.name (Ui.profile c)))
                          (Js.toLowerCase (filter s)))
    (contacts s).

End ContactsList.

(** ** [Settings.tsx] *)

Module Settings.

Record state := mkState {
  name : string;
  saving : bool;
  regenerating : bool;
  copied : bool;
  logoutDialogOpen : bool
}.

Definition setRegenerating (b : bool) (s : state) : state :=
  mkState (name s) (saving s) b (copied s) (logoutDialogOpen s).

Definition regenerate_failed : Ui.toast :=
  Ui.mkToast "Error" "Failed to regenerate UID." true.
Definition uid_regenerated : Ui.toast :=
  Ui.mkToast "UID regenerated" "Your new UID is ready to share." false.

(** [Math.random().toString(36).substring(2, 10)], where [rnd] gives
    the value of [Math.random()] as in [Js.toString36]. *)
Definition newUid (rnd : N) : string :=
  Js.substring 2 10 (Js.toString36 rnd).

Definition handleRegenerateUid (auth : Ui.Auth) (rnd : N) (db_now : Z)
           (s : state) (db : Pg.database) : Ui.effect state :=
  match Ui.own_profile auth with
  | None => Ui.nothing s db
  | Some profile =>
      let new_uid := newUid rnd in
      let update := Ui.Update_profile_uid (Pg.pr_user_id profile) new_uid in
      let (resp, db') :=
        Pg.update_uid (Ui.user auth) (Pg.pr_user_id profile) new_uid db_now db in
      match Pg.error resp with
      | Some _ => Ui.mkEffect (setRegenerating false s) db' [regenerate_failed] [update]
      | None => Ui.mkEffect (setRegenerating false s) db' [uid_regenerated] [update]
      end
  end.




End Settings.

(** ** Vocabulary of the statements *)

(** [x] occurs in [l] at an earlier position than [y]. *)
Definition precedes {A : Type} (x y : A) (l : list A) : Prop :=
  exists l1 l2 l3, l = l1 ++ x :: l2 ++ y :: l3.

(** [created_at] never decreases along [l]. *)
Definition ascending (l : list Pg.message) : Prop :=
  StronglySorted (fun x y => (Pg.created_at x <= Pg.created_at y)%Z) l.

(** The place of the row with id [x] in [l], counted from 0; the length
    of [l] when no row has that id. *)
Fixpoint place (x : UUID) (l : list Pg.message) : nat :=
  match l with
  | [] => 0
  | m :: l' => if String.eqb (Pg.id m) x then 0 else S (place x l')
  end.

(** What the triggers and constraints of [public.messages] maintain:
    every content passes [validate_message_content], ids are unique,
    and every reply reference names a stored message. *)
Definition content_valid (db : Pg.database) : Prop :=
  Forall (fun m => Pg.validate_message_content (Pg.content m) = None)
         (Pg.messages db).

Definition ids_unique (db : Pg.database) : Prop :=
  NoDup (map Pg.id (Pg.messages db)).

Definition replies_resolve (db : Pg.database) : Prop :=
  forall m r, In m (Pg.messages db) -> Pg.reply_to_id m = Some r ->
              exists t, In t (Pg.messages db) /\ Pg.id t = r.

Definition messages_well_formed (db : Pg.database) : Prop :=
  content_valid db /\ ids_unique db /\ replies_resolve db.

(** Successive elements of [l] lie at least [gap] apart. *)
Fixpoint spaced (gap : Z) (l : list Z) : Prop :=
  match l with
  | a :: (b :: _) as rest => (gap <= b - a)%Z /\ spaced gap rest
  | _ => True
  end.

(** [m'] is [m] but for its reply reference and [updated_at]. *)
Definition same_message (m m' : Pg.message) : Prop :=
  Pg.id m' = Pg.id m /\ Pg.sender_id m' = Pg.sender_id m
  /\ Pg.receiver_id m' = Pg.receiver_id m /\ Pg.content m' = Pg.content m
  /\ Pg.is_edited m' = Pg.is_edited m /\ Pg.created_at m' = Pg.created_at m.

(** What [public.contacts] holds when every edge came through
    [handleAddContact]: ids are unique, no owner has the same peer
    twice, and nobody is their own contact. *)
Definition edge (c : Pg.contact) : UUID * UUID :=
  (Pg.ct_user_id c, Pg.ct_contact_user_id c).

Definition edges_well_formed (db : Pg.database) : Prop :=
  NoDup (map Pg.ct_id (Pg.contacts db))
  /\ NoDup (map edge (Pg.contacts db))
  /\ forall c, In c (Pg.contacts db) -> Pg.ct_user_id c <> Pg.ct_contact_user_id c.

(** How many times [handleSendMessage] is called in a sequence of events. *)
Definition calls_of_send (es : list ChatArea.event) : nat :=
  length (filter (fun e => match e with ChatArea.Press_send _ => true | _ => false end) es).

(** ** Sample data for concrete runs *)

Module Example.

Definition alice : UUID := "alice".
Definition bob : UUID := "bob".
Definition carol : UUID := "carol".

Definition alice_profile : Pg.profile :=
  Pg.mkProfile "p1" alice "Alice" "ab12cd34" "#3b82f6" 100 100.
Definition bob_profile : Pg.profile :=
  Pg.mkProfile "p2" bob "Bob" "zz99yy88" "#ef4444" 200 200.
Definition carol_profile : Pg.profile :=
  Pg.mkProfile "p3" carol "Carol" "c0ffee00" "#22c55e" 300 300.

Definition people : list Pg.profile := [alice_profile; bob_profile; carol_profile].

(** Three accounts, no contacts, no messages. *)
Definition fresh : Pg.database := Pg.mkDatabase people [] [].

Definition as_alice : Ui.Auth := Ui.mkAuth (Some alice) (Some alice_profile).
Definition as_bob : Ui.Auth := Ui.mkAuth (Some bob) (Some bob_profile).

(** Alice's session while [useAuth()] has her identity and not yet her
    profile. *)
Definition alice_loading : Ui.Auth := Ui.mkAuth (Some alice) None.

Definition bob_contact : Ui.Contact :=
  Ui.mkContact "c1" bob (Ui.mkContactProfile "Bob" "zz99yy88" "#ef4444").
Definition alice_contact : Ui.Contact :=
  Ui.mkContact "c2" alice (Ui.mkContactProfile "Alice" "ab12cd34" "#3b82f6").

(** A stand-in for [md5] in concrete runs: 32 characters whatever the
    text, the first of them taken from the text. *)
Definition hash32 (t : string) : string :=
  String.substring 0 32 (t ++ "00000000000000000000000000000000").

(** An environment whose first three passes produce handles that are
    taken and whose fourth produces a free one. *)
Definition draws (i : nat) : Pg.entropy :=
  Pg.mkEntropy (nth i ["zz99yy88"; "c0ffee00"; "zz99yy88"] "f00dface")
               "2026-01-18 19:59:43" "0.42".

(** An environment that only ever produces Bob's handle. *)
Definition stuck (i : nat) : Pg.entropy :=
  Pg.mkEntropy "zz99yy88" "2026-01-18 19:59:43" "0.42".

(** Two executions of [ORDER BY created_at]: one that returns rows
    created at the same instant as the list has them, one that returns
    the row "m1" before the others. *)
Definition as_listed : Pg.tie_order := fun _ => 0%nat.
Definition m1_first : Pg.tie_order :=
  fun m => if String.eqb (Pg.id m) "m1" then 0%nat else 1%nat.

(** Two messages between Alice and Bob created at the same instant. *)
Definition tie_late_id : Pg.message :=
  Pg.mkMessage "m2" alice bob "second id" None false 5000 5000.
Definition tie_early_id : Pg.message :=
  Pg.mkMessage "m1" bob alice "first id" None false 5000 5000.

Definition tied : Pg.database :=
  Pg.mkDatabase people [] [tie_late_id; tie_early_id].

(** Alice has typed nothing yet; the store holds no message. *)
Definition idle : ChatArea.session :=
  ChatArea.mkSession ChatArea.initial [] fresh [].

(** Carol wrote to Alice; Alice answered that message in her thread
    with Bob. *)
Definition from_carol : Pg.message :=
  Pg.mkMessage "m1" carol alice "greetings from Carol" None false 1000 1000.
Definition quoting_carol : Pg.message :=
  Pg.mkMessage "m2" alice bob "look at this" (Some "m1") false 2000 2000.
Definition forwarded : Pg.database :=
  Pg.mkDatabase people [] [from_carol; quoting_carol].

(** Alice wrote to Bob, Bob answered that message. *)
Definition hello : Pg.message :=
  Pg.mkMessage "m1" alice bob "hello" None false 1000 1000.
Definition answer : Pg.message :=
  Pg.mkMessage "m2" bob alice "hello yourself" (Some "m1") false 2000 2000.
Definition talk : Pg.database :=
  Pg.mkDatabase people [] [hello; answer].

(** A text of 10001 characters. *)
Definition long_text : string :=
  string_of_list_ascii (repeat "a"%char (N.to_nat 10001)).

(** The same talk in a store where Bob's answer, written before the
    validation trigger was installed, has 10001 characters. *)
Definition long_answer : Pg.message :=
  Pg.mkMessage "m2" bob alice long_text (Some "m1") false 2000 2000.
Definition legacy : Pg.database :=
  Pg.mkDatabase people [] [hello; long_answer].

(** Alice has opened [hello] for editing and typed [text]. *)
Definition editing (text : string) : ChatArea.state :=
  ChatArea.mkState [ChatArea.mkMessage hello None] "" None
                   (Some (ChatArea.mkMessage hello None)) text 0.

(** The add-contact dialog with [text] typed in, over the contact
    list as it was last fetched from [db]. *)
Definition dialog (db : Pg.database) (text : string) : ContactsList.state :=
  ContactsList.fetchContacts as_alice db
    (ContactsList.mkState [] text true false "").

(** Alice has typed [text] in her thread with Bob; her last accepted
    send was at [last]. *)
Definition drafting (text : string) (last : Z) : ChatArea.state :=
  ChatArea.mkState [] text None None "" last.

(** Three sends of Alice to Bob, each run to its end: at 1000000, 300 ms
    later and 600 ms later. *)
Definition three_presses : list ChatArea.press :=
  [ChatArea.mkPress "one" 1000000 "m3" 1000010;
   ChatArea.mkPress "two" 1000300 "m4" 1000310;
   ChatArea.mkPress "three" 1000600 "m5" 1000610].

Definition settings : Settings.state := Settings.mkState "Alice" false false false false.

End Example.

(** * Properties *)

(** ** Text *)

Lemma substring_prefix_length (n : nat) (s : string) :
  (n <= String.length s)%nat -> String.length (String.substring 0 n s) = n.
Proof.
  revert s; induction n as [|n IH]; intros [|c s] H; simpl in *;
    try reflexivity; try lia.
  rewrite IH by lia; reflexivity.
Qed.

Lemma trimStart_head (ws : ascii -> bool) (s : string) (c : ascii) (t : string) :
  Js.trimStart ws s = String c t -> ws c = false.
Proof.
  induction s as [|a s IH]; simpl; [discriminate|].
  destruct (ws a) eqn:E; [exact IH|].
  intros H; injection H as -> _; exact E.
Qed.

Lemma trimEnd_keeps_head (ws : ascii -> bool) (c : ascii) (t : string) :
  ws c = false -> exists t', Js.trimEnd ws (String c t) = String c t'.
Proof.
  intros H; simpl.
  destruct (Js.trimEnd ws t); [rewrite H|]; eexists; reflexivity.
Qed.

(** A trimmed text is empty or starts with a character that is not
    white space. *)
Lemma trim_with_head (ws : ascii -> bool) (s : string) (c : ascii) (t : string) :
  Js.trim_with ws s = String c t -> ws c = false.
Proof.
  unfold Js.trim_with.
  destruct (Js.trimStart ws s) as [|a r] eqn:E; simpl; [discriminate|].
  pose proof (trimStart_head _ _ _ _ E) as Ha.
  destruct (Js.trimEnd ws r); [rewrite Ha|]; intros H; injection H as <- _; exact Ha.
Qed.

Lemma space_is_whitespace (c : ascii) :
  Pg.is_space c = true -> Js.is_whitespace c = true.
Proof.
  unfold Pg.is_space; intros H; apply Ascii.eqb_eq in H; subst; reflexivity.
Qed.

(** What the component lets through as non-empty, the trigger does too. *)
Lemma trimmed_text_not_blank (s : string) :
  Js.trim s <> EmptyString ->
  String.length (Js.trim_with Pg.is_space (Js.trim s)) <> 0%nat.
Proof.
  intros H.
  destruct (Js.trim s) as [|c t] eqn:E; [congruence|].
  assert (Hc : Pg.is_space c = false).
  { destruct (Pg.is_space c) eqn:Hs; [|reflexivity].
    apply space_is_whitespace in Hs.
    rewrite (trim_with_head _ _ _ _ E) in Hs; discriminate. }
  unfold Js.trim_with; simpl Js.trimStart; rewrite Hc.
  destruct (trimEnd_keeps_head Pg.is_space c t Hc) as [t' ->]; simpl; lia.
Qed.

Lemma truthy_iff (s : string) : Js.truthy s = true <-> s <> EmptyString.
Proof. destruct s; simpl; split; congruence. Qed.

(** ** Tables *)

(** Under a UNIQUE constraint two rows with the same key are one row. *)
Lemma unique_key_determines_row {A B : Type} (key : A -> B) (tbl : list A) (x y : A) :
  NoDup (map key tbl) -> In x tbl -> In y tbl -> key x = key y -> x = y.
Proof.
  induction tbl as [|r tbl IH]; simpl; [tauto|].
  intros Hnd Hx Hy Hk; inversion Hnd as [|? ? Hnot Hnd']; subst.
  destruct Hx as [Hx|Hx], Hy as [Hy|Hy]; subst.
  - reflexivity.
  - exfalso; apply Hnot; rewrite Hk; apply in_map; exact Hy.
  - exfalso; apply Hnot; rewrite <- Hk; apply in_map; exact Hx.
  - apply IH; assumption.
Qed.

(** ** UID directory *)

(** An 8-character handle that some profile bears resolves to one row. *)
Lemma lookup_resolves (h : string) (db : Pg.database) (p : Pg.profile) :
  String.length h = 8%nat -> In p (Pg.profiles db) -> Pg.pr_uid p = h ->
  exists q, In q (Pg.profiles db) /\ Pg.pr_uid q = h
            /\ fst (Pg.lookup_profile_by_uid (Some h) db)
               = [(Pg.pr_user_id q, Pg.pr_name q)]
            /\ (NoDup (map Pg.pr_uid (Pg.profiles db)) -> q = p).
Proof.
  intros H Hp Hu; unfold Pg.lookup_profile_by_uid.
  rewrite H; simpl negb; cbv iota; simpl fst.
  destruct (filter (fun p0 => (Pg.pr_uid p0 =? h)%string) (Pg.profiles db))
    as [|q l] eqn:E.
  - assert (Hin : In p (filter (fun p0 => (Pg.pr_uid p0 =? h)%string) (Pg.profiles db))).
    { apply filter_In; split; [exact Hp|]; apply String.eqb_eq; exact Hu. }
    rewrite E in Hin; destruct Hin.
  - assert (Hq : In q (filter (fun p0 => (Pg.pr_uid p0 =? h)%string) (Pg.profiles db)))
      by (rewrite E; left; reflexivity).
    apply filter_In in Hq.
    destruct Hq as [Hq Hqu]; apply String.eqb_eq in Hqu.
    exists q; repeat split; try assumption.
    intros Hnd.
    apply (unique_key_determines_row Pg.pr_uid (Pg.profiles db)); congruence.
Qed.

(** C5.  [lookup_profile_by_uid] on a text whose length is not 8 (or on
    NULL) answers with no row, sends no statement to storage and does
    so whatever the database holds; on an 8-character handle borne by
    some profile it answers with exactly one row, the identity and
    name of a profile bearing that handle, and of that very profile
    when handles are unique. *)
Theorem lookup_profile_by_uid_one_or_none (h : string) (db : Pg.database) :
  Pg.lookup_profile_by_uid None db = ([], [])
  /\ (String.length h <> 8%nat -> Pg.lookup_profile_by_uid (Some h) db = ([], []))
  /\ (String.length h = 8%nat ->
      forall p, In p (Pg.profiles db) -> Pg.pr_uid p = h ->
      exists q, In q (Pg.profiles db) /\ Pg.pr_uid q = h
                /\ fst (Pg.lookup_profile_by_uid (Some h) db)
                   = [(Pg.pr_user_id q, Pg.pr_name q)]
                /\ (NoDup (map Pg.pr_uid (Pg.profiles db)) -> q = p)).
Proof.
  split; [reflexivity|]; split.
  - intros H; unfold Pg.lookup_profile_by_uid.
    apply Nat.eqb_neq in H; rewrite H; reflexivity.
  - intros H p Hp Hu.
    destruct (lookup_resolves h db p H Hp Hu) as [q [Hq [Hqu [Hrow Huniq]]]].
    exists q; repeat split; assumption.
Qed.

Section Directory.

Variable md5 : string -> string.


(** Every handle the routine tries has 8 characters. *)
Lemma candidate_length (e : Pg.entropy) :
  (forall t, String.length (md5 t) = 32%nat) ->
  String.length (Pg.candidate md5 e) = 8%nat.
Proof.
  intros H; unfold Pg.candidate.
  apply substring_prefix_length; rewrite H; lia.
Qed.

Lemma update_profile_uid_cases (auth : option UUID) (p : UUID) (h : string)
      (now : Z) (tbl : list Pg.profile) :
  (Pg.uid_conflict auth p h tbl = true
   /\ Pg.update_profile_uid auth p h now tbl = Pg.Raise Pg.unique_violation)
  \/ (Pg.uid_conflict auth p h tbl = false
      /\ exists tbl', Pg.update_profile_uid auth p h now tbl = Pg.Return tbl'
                      /\ forall r, In r tbl' -> Pg.pr_user_id r = p ->
                                   auth = Some p -> Pg.pr_uid r = h).
Proof.
  unfold Pg.update_profile_uid.
  destruct (Pg.uid_conflict auth p h tbl); [left; split; reflexivity|right].
  split; [reflexivity|]; eexists; split; [reflexivity|].
  intros r Hr Hp Hauth; apply in_map_iff in Hr; destruct Hr as [r0 [<- _]].
  destruct (Pg.touches auth p r0) eqn:E; [reflexivity|].
  simpl in Hp; unfold Pg.touches, Pg.auth_is in E; subst auth.
  rewrite Hp, String.eqb_refl in E; discriminate.
Qed.

(** With one profile row for each identity, the update of one's own
    profile meets a uniqueness conflict exactly when there is a row to
    update and another identity bears the new handle. *)
Lemma one_row_for_identity (p : UUID) (tbl : list Pg.profile) :
  NoDup (map Pg.pr_user_id tbl) ->
  (length (filter (fun r => String.eqb (Pg.pr_user_id r) p) tbl) <= 1)%nat.
Proof.
  induction tbl as [|a tbl IH]; simpl; intros Hnd; [lia|].
  inversion Hnd as [|? ? Hfresh Hnd']; subst.
  destruct (String.eqb_spec (Pg.pr_user_id a) p) as [E|E]; [|apply IH; exact Hnd'].
  destruct (filter (fun r => String.eqb (Pg.pr_user_id r) p) tbl) as [|b l] eqn:F;
    [simpl; lia|].
  exfalso; apply Hfresh.
  assert (Hb : In b (filter (fun r => String.eqb (Pg.pr_user_id r) p) tbl))
    by (rewrite F; left; reflexivity).
  apply filter_In in Hb; destruct Hb as [Hb Hp]; apply String.eqb_eq in Hp.
  rewrite E, <- Hp; apply in_map; exact Hb.
Qed.

Lemma uid_conflict_iff (p : UUID) (h : string) (tbl : list Pg.profile) :
  NoDup (map Pg.pr_user_id tbl) ->
  (Pg.uid_conflict (Some p) p h tbl = true
   <-> (exists r, In r tbl /\ Pg.pr_user_id r = p)
       /\ (exists q, In q tbl /\ Pg.pr_user_id q <> p /\ Pg.pr_uid q = h)).
Proof.
  intros Hnd.
  assert (Ht : forall r, Pg.touches (Some p) p r = String.eqb (Pg.pr_user_id r) p).
  { intros r; unfold Pg.touches, Pg.auth_is.
    rewrite (String.eqb_sym p); apply andb_diag. }
  unfold Pg.uid_conflict.
  rewrite (filter_ext _ _ Ht).
  rewrite (filter_ext (fun q => negb (Pg.touches (Some p) p q))
                      (fun q => negb (String.eqb (Pg.pr_user_id q) p)))
    by (intros q; rewrite Ht; reflexivity).
  pose proof (one_row_for_identity p tbl Hnd) as Hone.
  destruct (2 <=? length (filter (fun r => String.eqb (Pg.pr_user_id r) p) tbl))%nat
    eqn:E2; [apply Nat.leb_le in E2; lia|rewrite orb_false_l].
  rewrite andb_true_iff, Nat.leb_le, existsb_exists; split.
  - intros [Hhit [q [Hq Hu]]]; split.
    + destruct (filter (fun r => String.eqb (Pg.pr_user_id r) p) tbl) as [|r l] eqn:F;
        [simpl in Hhit; lia|].
      assert (Hr : In r (filter (fun r => String.eqb (Pg.pr_user_id r) p) tbl))
        by (rewrite F; left; reflexivity).
      apply filter_In in Hr; destruct Hr as [Hr Hp]; apply String.eqb_eq in Hp.
      exists r; split; assumption.
    + apply filter_In in Hq; destruct Hq as [Hq Hp].
      apply negb_true_iff, String.eqb_neq in Hp; apply String.eqb_eq in Hu.
      exists q; repeat split; assumption.
  - intros [[r [Hr Hp]] [q [Hq [Hqp Hu]]]]; split.
    + assert (Hin : In r (filter (fun r => String.eqb (Pg.pr_user_id r) p) tbl))
        by (apply filter_In; split; [exact Hr|apply String.eqb_eq; exact Hp]).
      destruct (filter (fun r => String.eqb (Pg.pr_user_id r) p) tbl);
        [destruct Hin|simpl; lia].
    + exists q; split; [|apply String.eqb_eq; exact Hu].
      apply filter_In; split; [exact Hq|].
      apply negb_true_iff, String.eqb_neq; exact Hqp.
Qed.

(** The update of one's own profile rewrites the rows of that identity
    and no other. *)
Lemma update_profile_uid_own (p : UUID) (h : string) (now : Z)
      (tbl tbl' : list Pg.profile) :
  Pg.update_profile_uid (Some p) p h now tbl = Pg.Return tbl' ->
  tbl' = map (fun r => if String.eqb (Pg.pr_user_id r) p
                       then Pg.mkProfile (Pg.pr_id r) (Pg.pr_user_id r) (Pg.pr_name r) h
                                         (Pg.pr_avatar_color r) (Pg.pr_created_at r) now
                       else r)
             tbl.
Proof.
  unfold Pg.update_profile_uid.
  destruct (Pg.uid_conflict (Some p) p h tbl); [discriminate|].
  intros H; injection H as <-.
  apply map_ext; intros r; unfold Pg.touches, Pg.auth_is.
  rewrite (String.eqb_sym p), andb_diag; reflexivity.
Qed.

Section Loop.

Variables (src : nat -> Pg.entropy) (now : Z) (p : UUID) (tbl : list Pg.profile).

Let tries (fuel i : nat) (attempt : Z) :=
  Pg.regenerate_loop md5 fuel src i attempt now (Some p) p tbl.

Let clash (i : nat) : bool := Pg.collides md5 src (Some p) p tbl i.

(** The loop started with [attempt] conflicts behind it and enough
    fuel for the passes that remain. *)
Lemma regenerate_loop_runs (fuel : nat) :
  forall (i : nat) (attempt : Z),
    (0 <= attempt < Pg.max_attempts)%Z ->
    (Z.to_nat (Pg.max_attempts - attempt) <= fuel)%nat ->
    exists res,
      tries fuel i attempt = Some res
      /\ ((forall j, (j < Z.to_nat (Pg.max_attempts - attempt))%nat ->
                     clash (i + j) = true) ->
          res = (Pg.Raise (Pg.Failed_to_generate_unique_UID Pg.max_attempts), tbl))
      /\ (forall k, (k < Z.to_nat (Pg.max_attempts - attempt))%nat ->
                    (forall j, (j < k)%nat -> clash (i + j) = true) ->
                    clash (i + k) = false ->
                    exists tbl',
                      Pg.update_profile_uid (Some p) p
                        (Pg.candidate md5 (src (i + k))) now tbl = Pg.Return tbl'
                      /\ res = (Pg.Return (Pg.candidate md5 (src (i + k))), tbl')).
Proof.
  unfold Pg.max_attempts, tries, clash, Pg.collides.
  induction fuel as [|fuel IH]; intros i attempt Ha Hf; [lia|].
  simpl Pg.regenerate_loop; unfold Pg.max_attempts.
  destruct (update_profile_uid_cases (Some p) p (Pg.candidate md5 (src i)) now tbl)
    as [[Hc Hup]|[Hc [tbl' [Hup _]]]]; rewrite Hup.
  - destruct (attempt + 1 >=? 10)%Z eqn:E.
    + eexists; split; [reflexivity|]; split; [reflexivity|].
      intros k Hk _ Hk'. assert (k = 0)%nat by lia; subst k.
      rewrite Nat.add_0_r in Hk'; congruence.
    + destruct (IH (S i) (attempt + 1)%Z) as [res [Hres [Hall Hone]]]; try lia.
      exists res; split; [exact Hres|]; split.
      * intros Hj; apply Hall; intros j Hlt.
        replace (S i + j)%nat with (i + S j)%nat by lia; apply Hj; lia.
      * intros [|k] Hk Hlt Hk'.
        { rewrite Nat.add_0_r in Hk'; congruence. }
        replace (i + S k)%nat with (S i + k)%nat in * by lia.
        apply Hone; [lia| |exact Hk'].
        intros j Hj; replace (S i + j)%nat with (i + S j)%nat by lia.
        apply Hlt; lia.
  - eexists; split; [reflexivity|]; split.
    + intros Hj; specialize (Hj 0%nat); rewrite Nat.add_0_r in Hj.
      rewrite Hj in Hc by lia; discriminate.
    + intros [|k] Hk Hlt Hk'.
      * rewrite Nat.add_0_r; exists tbl'; split; [exact Hup|reflexivity].
      * specialize (Hlt 0%nat); rewrite Nat.add_0_r in Hlt.
        rewrite Hlt in Hc by lia; discriminate.
Qed.

End Loop.

(** C1.  Called on one's own identity, [regenerate_profile_uid] ends
    within [max_attempts] = 10 passes of its loop: unfolding the loop
    that many times always reaches a result.  A candidate meets a
    uniqueness conflict exactly when the caller has a profile row and
    another identity bears the candidate (each identity having one
    row).  When the first 10 candidates all meet a uniqueness conflict
    the result is the error "Failed to generate unique UID after 10
    attempts" and the table is as before; when fewer than 10 conflicts
    come first, the result is the first candidate without conflict,
    and the table is the one before with that candidate as [uid], and
    the time of the call as [updated_at], in the caller's row and with
    every other row as it was: the handle returned is the handle
    persisted. *)
Theorem regenerate_profile_uid_bounded_retry
        (src : nat -> Pg.entropy) (now : Z) (p : UUID)
        (tbl : list Pg.profile) (fuel : nat) :
  (Z.to_nat Pg.max_attempts <= fuel)%nat ->
  Pg.max_attempts = 10%Z
  /\ (NoDup (map Pg.pr_user_id tbl) ->
      forall i,
        Pg.collides md5 src (Some p) p tbl i = true
        <-> (exists r, In r tbl /\ Pg.pr_user_id r = p)
            /\ (exists q, In q tbl /\ Pg.pr_user_id q <> p
                          /\ Pg.pr_uid q = Pg.candidate md5 (src i)))
  /\ exists res,
      Pg.regenerate_profile_uid md5 fuel src now (Some p) p tbl = Some res
      /\ ((forall i, (i < 10)%nat -> Pg.collides md5 src (Some p) p tbl i = true) ->
          res = (Pg.Raise (Pg.Failed_to_generate_unique_UID 10), tbl))
      /\ (forall k, (k < 10)%nat ->
                    (forall i, (i < k)%nat -> Pg.collides md5 src (Some p) p tbl i = true) ->
                    Pg.collides md5 src (Some p) p tbl k = false ->
                    let h := Pg.candidate md5 (src k) in
                    let tbl' :=
                      map (fun r => if String.eqb (Pg.pr_user_id r) p
                                    then Pg.mkProfile (Pg.pr_id r) (Pg.pr_user_id r)
                                                      (Pg.pr_name r) h
                                                      (Pg.pr_avatar_color r)
                                                      (Pg.pr_created_at r) now
                                    else r)
                          tbl in
                    res = (Pg.Return h, tbl')
                    /\ (forall r, In r tbl' -> Pg.pr_user_id r = p -> Pg.pr_uid r = h)
                    /\ (forall r, In r tbl -> Pg.pr_user_id r = p ->
                                  exists r', In r' tbl' /\ Pg.pr_id r' = Pg.pr_id r
                                             /\ Pg.pr_user_id r' = p /\ Pg.pr_uid r' = h)
                    /\ (forall r, In r tbl -> Pg.pr_user_id r <> p -> In r tbl')).
Proof.
  intros Hf; split; [reflexivity|].
  split; [intros Hnd i; apply uid_conflict_iff; exact Hnd|].
  unfold Pg.regenerate_profile_uid; rewrite String.eqb_refl; simpl negb; cbv iota.
  destruct (regenerate_loop_runs src now p tbl fuel 0 0%Z) as [res [Hres [Hall Hone]]];
    [unfold Pg.max_attempts; lia|rewrite Z.sub_0_r; exact Hf|].
  exists res; split; [exact Hres|]; split.
  - intros Hi; apply Hall; intros j Hj; apply Hi.
    unfold Pg.max_attempts in Hj; simpl in Hj; lia.
  - intros k Hk Hlt Hk'.
    destruct (Hone k) as [tbl' [Hup ->]].
    + unfold Pg.max_attempts; simpl; lia.
    + intros j Hj; apply Hlt; exact Hj.
    + exact Hk'.
    + simpl in Hup; apply update_profile_uid_own in Hup; subst tbl'.
      split; [reflexivity|]; split; [|split].
      * intros r Hin Hp; apply in_map_iff in Hin; destruct Hin as [r0 [<- _]].
        destruct (String.eqb_spec (Pg.pr_user_id r0) p) as [E|E]; [reflexivity|].
        contradiction.
      * intros r Hin Hp; eexists; split.
        { apply in_map_iff; exists r; split; [reflexivity|exact Hin]. }
        apply String.eqb_eq in Hp; rewrite Hp; apply String.eqb_eq in Hp.
        repeat split; exact Hp.
      * intros r Hin Hp; apply in_map_iff; exists r; split; [|exact Hin].
        apply String.eqb_neq in Hp; rewrite Hp; reflexivity.
Qed.

End Directory.

(** Lookups of a malformed and of a resolving handle. *)
Lemma lookup_profile_by_uid_one_or_none_witness :
  Pg.lookup_profile_by_uid (Some "zz99") Example.fresh = ([], [])
  /\ exists q, In q (Pg.profiles Example.fresh)
               /\ fst (Pg.lookup_profile_by_uid (Some "zz99yy88") Example.fresh)
                  = [(Pg.pr_user_id q, Pg.pr_name q)]
               /\ q = Example.bob_profile.
Proof.
  split.
  - apply (proj1 (proj2 (lookup_profile_by_uid_one_or_none "zz99" Example.fresh))).
    simpl; discriminate.
  - destruct (proj2 (proj2 (lookup_profile_by_uid_one_or_none "zz99yy88" Example.fresh))
                eq_refl Example.bob_profile (or_intror (or_introl eq_refl)) eq_refl)
      as [q [Hq [_ [Hrow Huniq]]]].
    exists q; split; [exact Hq|]; split; [exact Hrow|].
    apply Huniq; simpl.
    repeat (constructor; [simpl; intuition discriminate|]); constructor.
Defined.

(** Two runs of the routine as Alice: one where three taken handles
    are drawn before a free one, one where only a taken handle is ever
    drawn. *)
Lemma regenerate_profile_uid_bounded_retry_witness :
  (Z.to_nat Pg.max_attempts <= 10)%nat
  /\ Pg.regenerate_profile_uid Example.hash32 10 Example.draws 7000
        (Some Example.alice) Example.alice Example.people
      = Some (Pg.Return "f00dface",
              [Pg.mkProfile "p1" Example.alice "Alice" "f00dface" "#3b82f6" 100 7000;
               Example.bob_profile; Example.carol_profile])
  /\ Pg.regenerate_profile_uid Example.hash32 10 Example.stuck 7000
        (Some Example.alice) Example.alice Example.people
     = Some (Pg.Raise (Pg.Failed_to_generate_unique_UID 10), Example.people).
Proof.
  assert (Hfuel : (Z.to_nat Pg.max_attempts <= 10)%nat) by (apply Nat.leb_le; reflexivity).
  split; [exact Hfuel|]; split.
  - destruct (regenerate_profile_uid_bounded_retry Example.hash32 Example.draws 7000
                Example.alice Example.people 10 Hfuel) as [_ [_ [res [Hres [_ Hone]]]]].
    destruct (Hone 3%nat) as [Hr _].
    + apply Nat.ltb_lt; reflexivity.
    + intros [|[|[|i]]] Hi; try reflexivity.
      exfalso; apply Nat.ltb_lt in Hi; discriminate.
    + reflexivity.
    + rewrite Hres, Hr; reflexivity.
  - destruct (regenerate_profile_uid_bounded_retry Example.hash32 Example.stuck 7000
                Example.alice Example.people 10 Hfuel) as [_ [_ [res [Hres [Hall _]]]]].
    rewrite Hres, Hall; [reflexivity|].
    intros i _; reflexivity.
Defined.

(** C4.  The handle [handleRegenerateUid] persists when [Math.random()]
    returns 0.5: it is the single character "i", the update succeeds
    and is announced, and the directory can no longer resolve the
    caller by that handle. *)
Theorem handleRegenerateUid_one_character_handle :
  let e := Settings.handleRegenerateUid Example.as_alice (2 ^ 52)%N 7000
                                        Example.settings Example.fresh in
  Js.toString36 (2 ^ 52)%N = "0.i"
  /\ Settings.newUid (2 ^ 52)%N = "i"
  /\ Ui.toasts e = [Settings.uid_regenerated]
  /\ map Pg.pr_uid (Pg.profiles (Ui.db e)) = ["i"; "zz99yy88"; "c0ffee00"]
  /\ Pg.lookup_profile_by_uid (Some "i") (Ui.db e) = ([], []).
Proof. vm_compute; repeat split. Qed.

(** ** Message thread *)

Lemma sorts_before_iff (pick : Pg.tie_order) (m x : Pg.message) :
  Pg.sorts_before pick m x = true
  <-> (Pg.created_at m < Pg.created_at x)%Z
      \/ (Pg.created_at m = Pg.created_at x /\ (pick m <= pick x)%nat).
Proof.
  unfold Pg.sorts_before.
  rewrite orb_true_iff, andb_true_iff, Z.ltb_lt, Z.eqb_eq, Nat.leb_le; tauto.
Qed.

Lemma sorts_before_total (pick : Pg.tie_order) (m x : Pg.message) :
  Pg.sorts_before pick m x = false -> Pg.sorts_before pick x m = true.
Proof.
  intros H; apply sorts_before_iff.
  assert (N : ~ ((Pg.created_at m < Pg.created_at x)%Z
                 \/ (Pg.created_at m = Pg.created_at x /\ (pick m <= pick x)%nat))).
  { rewrite <- sorts_before_iff, H; discriminate. }
  lia.
Qed.

Lemma sorts_before_trans (pick : Pg.tie_order) (a b c : Pg.message) :
  Pg.sorts_before pick a b = true -> Pg.sorts_before pick b c = true ->
  Pg.sorts_before pick a c = true.
Proof. rewrite !sorts_before_iff; lia. Qed.

Lemma insert_by_created_at_perm (pick : Pg.tie_order) (m : Pg.message)
      (l : list Pg.message) :
  Permutation (Pg.insert_by_created_at pick m l) (m :: l).
Proof.
  induction l as [|x l IH]; simpl; [reflexivity|].
  destruct (Pg.sorts_before pick m x); [reflexivity|].
  rewrite IH; apply perm_swap.
Qed.

Lemma order_by_created_at_perm (pick : Pg.tie_order) (l : list Pg.message) :
  Permutation (Pg.order_by_created_at pick l) l.
Proof.
  induction l as [|x l IH]; simpl; [reflexivity|].
  rewrite insert_by_created_at_perm; apply perm_skip; exact IH.
Qed.

(** What a query returns is sorted by creation time and, within one
    creation time, by the rank its execution gives. *)
Lemma insert_by_created_at_sorted (pick : Pg.tie_order) (m : Pg.message)
      (l : list Pg.message) :
  StronglySorted (fun x y => Pg.sorts_before pick x y = true) l ->
  StronglySorted (fun x y => Pg.sorts_before pick x y = true)
                 (Pg.insert_by_created_at pick m l).
Proof.
  induction l as [|x l IH]; simpl; intros H.
  - constructor; constructor.
  - inversion H as [|? ? Hl Hx]; subst.
    destruct (Pg.sorts_before pick m x) eqn:E.
    + constructor; [exact H|].
      constructor; [exact E|].
      rewrite Forall_forall in *; intros y Hy.
      apply (sorts_before_trans pick m x y); [exact E|apply Hx; exact Hy].
    + constructor; [apply IH; exact Hl|].
      rewrite Forall_forall in *; intros y Hy.
      apply (Permutation_in _ (insert_by_created_at_perm pick m l)) in Hy.
      destruct Hy as [<-|Hy]; [apply sorts_before_total; exact E|apply Hx; exact Hy].
Qed.

Lemma order_by_created_at_sorted (pick : Pg.tie_order) (l : list Pg.message) :
  StronglySorted (fun x y => Pg.sorts_before pick x y = true)
                 (Pg.order_by_created_at pick l).
Proof.
  induction l as [|x l IH]; simpl.
  - constructor.
  - apply insert_by_created_at_sorted; exact IH.
Qed.

Lemma order_by_created_at_ascending (pick : Pg.tie_order) (l : list Pg.message) :
  ascending (Pg.order_by_created_at pick l).
Proof.
  unfold ascending.
  pose proof (order_by_created_at_sorted pick l) as H.
  induction H as [|x r Hr IH Hx]; constructor; [exact IH|].
  revert Hx; apply Forall_impl; intros y Hy.
  apply sorts_before_iff in Hy; lia.
Qed.

(** In a list sorted by time an element of strictly earlier time
    stands first. *)
Lemma earlier_precedes {A : Type} (time : A -> Z) (l : list A) (x y : A) :
  StronglySorted (fun a b => (time a <= time b)%Z) l ->
  In x l -> In y l -> (time x < time y)%Z -> precedes x y l.
Proof.
  unfold precedes; intros Hs Hx Hy Hlt.
  induction Hs as [|a l Hl IH Ha].
  - destruct Hx.
  - rewrite Forall_forall in Ha.
    destruct Hx as [->|Hx].
    + destruct Hy as [->|Hy]; [lia|].
      apply in_split in Hy; destruct Hy as [l2 [l3 ->]].
      exists [], l2, l3; reflexivity.
    + destruct Hy as [->|Hy].
      * specialize (Ha x Hx); lia.
      * destruct (IH Hx Hy) as [l1 [l2 [l3 ->]]].
        exists (a :: l1), l2, l3; reflexivity.
Qed.

Lemma ascending_precedes (l : list Pg.message) (m1 m2 : Pg.message) :
  ascending l -> In m1 l -> In m2 l ->
  (Pg.created_at m1 < Pg.created_at m2)%Z -> precedes m1 m2 l.
Proof. apply (earlier_precedes Pg.created_at). Qed.

(** Of two rows of one creation time, the one the execution ranks
    strictly lower stands first. *)
Lemma ranked_lower_precedes (pick : Pg.tie_order) (l : list Pg.message)
      (m1 m2 : Pg.message) :
  In m1 l -> In m2 l ->
  Pg.created_at m1 = Pg.created_at m2 -> (pick m1 < pick m2)%nat ->
  precedes m1 m2 (Pg.order_by_created_at pick l).
Proof.
  intros H1 H2 Ht Hp.
  assert (Hnot : Pg.sorts_before pick m2 m1 = false).
  { destruct (Pg.sorts_before pick m2 m1) eqn:E; [|reflexivity].
    apply sorts_before_iff in E; lia. }
  apply (Permutation_in _ (Permutation_sym (order_by_created_at_perm pick l))) in H1, H2.
  pose proof (order_by_created_at_sorted pick l) as Hs.
  revert Hs H1 H2; generalize (Pg.order_by_created_at pick l) as out.
  unfold precedes.
  induction out as [|x out IH]; intros Hs H1 H2; [destruct H1|].
  inversion Hs as [|? ? Hout Hx]; subst.
  rewrite Forall_forall in Hx.
  destruct H1 as [->|H1].
  - destruct H2 as [->|H2]; [lia|].
    apply in_split in H2; destruct H2 as [l2 [l3 ->]].
    exists [], l2, l3; reflexivity.
  - destruct H2 as [->|H2].
    + rewrite (Hx m1 H1) in Hnot; discriminate.
    + destruct (IH Hout H1 H2) as [l1 [l2 [l3 ->]]].
      exists (x :: l1), l2, l3; reflexivity.
Qed.

(** Two arrangements of the same rows that are sorted by the same
    relation are one arrangement when the relation tells the rows
    apart. *)
Lemma one_sorted_arrangement {A : Type} (R : A -> A -> Prop) (l1 : list A) :
  forall l2 : list A,
    Permutation l1 l2 ->
    StronglySorted R l1 -> StronglySorted R l2 ->
    (forall a b, In a l1 -> In b l1 -> R a b -> R b a -> a = b) ->
    l1 = l2.
Proof.
  induction l1 as [|a l1 IH]; intros l2 Hp H1 H2 Hanti.
  - apply Permutation_nil in Hp; subst; reflexivity.
  - destruct l2 as [|b l2]; [apply Permutation_sym, Permutation_nil in Hp; discriminate|].
    inversion H1 as [|? ? H1' Ha]; subst.
    inversion H2 as [|? ? H2' Hb]; subst.
    rewrite Forall_forall in Ha, Hb.
    assert (E : a = b).
    { assert (Hin_a : In a (b :: l2))
        by (apply (Permutation_in _ Hp); left; reflexivity).
      assert (Hin_b : In b (a :: l1))
        by (apply (Permutation_in _ (Permutation_sym Hp)); left; reflexivity).
      destruct Hin_a as [E|Hin_a]; [symmetry; exact E|].
      destruct Hin_b as [E|Hin_b]; [exact E|].
      apply Hanti; [left; reflexivity|right; exact Hin_b|apply Ha|apply Hb]; assumption. }
    subst b; f_equal; apply IH; try assumption.
    + apply Permutation_cons_inv in Hp; exact Hp.
    + intros x y Hx Hy; apply Hanti; right; assumption.
Qed.

(** Two ascending arrangements of the same rows are one arrangement
    when no two rows share the sorting key. *)
Lemma one_arrangement_without_ties {A : Type} (time : A -> Z) (l1 l2 : list A) :
  Permutation l1 l2 ->
  StronglySorted (fun x y => (time x <= time y)%Z) l1 ->
  StronglySorted (fun x y => (time x <= time y)%Z) l2 ->
  NoDup (map time l1) ->
  l1 = l2.
Proof.
  intros Hp H1 H2 Hnd.
  apply (one_sorted_arrangement (fun x y => (time x <= time y)%Z)); try assumption.
  intros a b Ha Hb Hab Hba.
  apply (unique_key_determines_row time l1); try assumption; lia.
Qed.

Lemma sorted_relates_ordered_pairs {A : Type} (R : A -> A -> Prop) (l : list A) (a b : A) :
  StronglySorted R l -> precedes a b l -> R a b.
Proof.
  intros Hs [l1 [l2 [l3 ->]]].
  induction l1 as [|x l1 IH]; simpl in Hs; inversion Hs as [|? ? Hs' Hx]; subst.
  - rewrite Forall_forall in Hx; apply Hx.
    apply in_or_app; right; left; reflexivity.
  - apply IH; exact Hs'.
Qed.

Lemma sorted_when_ordered_pairs_related {A : Type} (R : A -> A -> Prop) (l : list A) :
  (forall a b, precedes a b l -> R a b) -> StronglySorted R l.
Proof.
  induction l as [|x l IH]; intros H; constructor.
  - apply IH; intros a b [l1 [l2 [l3 ->]]]; apply H.
    exists (x :: l1), l2, l3; reflexivity.
  - apply Forall_forall; intros b Hb.
    apply in_split in Hb; destruct Hb as [l2 [l3 ->]].
    apply H; exists [], l2, l3; reflexivity.
Qed.

Lemma place_app (x : UUID) (pre l : list Pg.message) :
  ~ In x (map Pg.id pre) -> place x (pre ++ l) = (length pre + place x l)%nat.
Proof.
  induction pre as [|m pre IH]; simpl; intros H; [reflexivity|].
  destruct (String.eqb_spec (Pg.id m) x) as [E|E]; [exfalso; apply H; left; exact E|].
  rewrite IH; [reflexivity|]; intros Hin; apply H; right; exact Hin.
Qed.

Lemma place_determines_id (out : list Pg.message) (a b : Pg.message) :
  In a out -> In b out ->
  place (Pg.id a) out = place (Pg.id b) out -> Pg.id a = Pg.id b.
Proof.
  induction out as [|m out IH]; simpl; [tauto|].
  intros Ha Hb.
  destruct (String.eqb_spec (Pg.id m) (Pg.id a)) as [Ea|Ea],
           (String.eqb_spec (Pg.id m) (Pg.id b)) as [Eb|Eb];
    try congruence; try discriminate.
  intros H; injection H as H; apply IH; try assumption.
  - destruct Ha as [->|Ha]; [contradiction|exact Ha].
  - destruct Hb as [->|Hb]; [contradiction|exact Hb].
Qed.

Lemma place_follows_order (out : list Pg.message) (a b : Pg.message) :
  NoDup (map Pg.id out) -> precedes a b out ->
  (place (Pg.id a) out < place (Pg.id b) out)%nat.
Proof.
  intros Hnd [l1 [l2 [l3 ->]]].
  assert (Ha : ~ In (Pg.id a) (map Pg.id l1) /\ Pg.id a <> Pg.id b).
  { rewrite map_app in Hnd; simpl in Hnd; apply NoDup_remove_2 in Hnd.
    split.
    - intros H; apply Hnd, in_or_app; left; exact H.
    - intros E; apply Hnd, in_or_app; right.
      rewrite E; apply in_map, in_or_app; right; left; reflexivity. }
  assert (Hb : ~ In (Pg.id b) (map Pg.id l1)).
  { replace (l1 ++ a :: l2 ++ b :: l3) with ((l1 ++ a :: l2) ++ b :: l3) in Hnd
      by (rewrite <- app_assoc; reflexivity).
    rewrite map_app in Hnd; simpl in Hnd; apply NoDup_remove_2 in Hnd.
    intros H; apply Hnd, in_or_app; left.
    rewrite map_app; apply in_or_app; left; exact H. }
  destruct Ha as [Ha Hab].
  rewrite !place_app by assumption; simpl.
  rewrite String.eqb_refl.
  apply String.eqb_neq in Hab; rewrite Hab; lia.
Qed.

(** The rankings give [order_by_created_at] every answer the clause
    allows, and no other: over rows of distinct ids its answers are
    the ascending arrangements of the rows. *)
Lemma order_by_created_at_answers (l out : list Pg.message) :
  NoDup (map Pg.id l) ->
  ((exists pick, Pg.order_by_created_at pick l = out)
   <-> Permutation out l /\ ascending out).
Proof.
  intros Hnd; split.
  - intros [pick <-]; split;
      [apply order_by_created_at_perm|apply order_by_created_at_ascending].
  - intros [Hp Hs].
    set (pick := fun m : Pg.message => place (Pg.id m) out).
    assert (Hids : NoDup (map Pg.id out)).
    { apply (Permutation_NoDup (l := map Pg.id l)); [|exact Hnd].
      apply Permutation_map, Permutation_sym; exact Hp. }
    exists pick; symmetry.
    apply (one_sorted_arrangement (fun x y => Pg.sorts_before pick x y = true)).
    + rewrite order_by_created_at_perm; exact Hp.
    + apply sorted_when_ordered_pairs_related; intros a b Hab.
      apply sorts_before_iff.
      pose proof (sorted_relates_ordered_pairs _ out a b Hs Hab) as Ht; simpl in Ht.
      pose proof (place_follows_order out a b Hids Hab) as Hrank.
      unfold pick; lia.
    + apply order_by_created_at_sorted.
    + intros a b Ha Hb Hab Hba.
      apply sorts_before_iff in Hab, Hba; unfold pick in Hab, Hba.
      apply (unique_key_determines_row Pg.id out); try assumption.
      apply (place_determines_id out); try assumption; lia.
Qed.

Lemma row_with_reply auth u c db msg :
  ChatArea.row (ChatArea.with_reply auth u c db msg) = msg.
Proof.
  unfold ChatArea.with_reply.
  destruct (Pg.reply_to_id msg); [|reflexivity].
  destruct (Pg.data (Pg.select_message (Some u) u0 db)) as [[? ?]|]; reflexivity.
Qed.

(** The rows [fetchMessages] leaves in the view. *)
Lemma fetchMessages_rows pick auth u c db s :
  Ui.user auth = Some u ->
  map ChatArea.row (ChatArea.messages (ChatArea.fetchMessages pick auth (Some c) db s))
  = Pg.order_by_created_at pick
      (filter (fun m => Pg.can_view_message (Some u) m
                        && Pg.in_thread u (Ui.contact_user_id c) m)
              (Pg.messages db)).
Proof.
  intros Hu; unfold ChatArea.fetchMessages; rewrite Hu; simpl.
  rewrite map_map.
  erewrite map_ext; [apply map_id|].
  intros m; apply row_with_reply.
Qed.

Lemma in_thread_visible (a b : UUID) (m : Pg.message) :
  Pg.can_view_message (Some a) m && Pg.in_thread a b m = Pg.in_thread a b m.
Proof.
  unfold Pg.can_view_message, Pg.in_thread, Pg.auth_is.
  rewrite (String.eqb_sym a (Pg.sender_id m)), (String.eqb_sym a (Pg.receiver_id m)).
  destruct (Pg.sender_id m =? a)%string, (Pg.receiver_id m =? a)%string,
           (Pg.sender_id m =? b)%string, (Pg.receiver_id m =? b)%string; reflexivity.
Qed.

Lemma in_thread_sym (a b : UUID) (m : Pg.message) :
  Pg.in_thread a b m = Pg.in_thread b a m.
Proof. unfold Pg.in_thread; apply orb_comm. Qed.

(** The rows of a thread as either party is returned them. *)
Lemma fetchMessages_thread pick auth a b c db s :
  Ui.user auth = Some a -> Ui.contact_user_id c = b ->
  map ChatArea.row (ChatArea.messages (ChatArea.fetchMessages pick auth (Some c) db s))
  = Pg.order_by_created_at pick (filter (Pg.in_thread a b) (Pg.messages db)).
Proof.
  intros Ha Hc; rewrite (fetchMessages_rows pick auth a) by exact Ha.
  rewrite Hc; f_equal; apply filter_ext; intros m; apply in_thread_visible.
Qed.

(** C2 (as the code has it).  Whatever order the executions of the
    query give to rows created at the same instant, the thread
    [fetchMessages] shows holds exactly the messages between the two
    parties in ascending order of [created_at]: of two messages with
    creation times t1 < t2 the one created at t1 stands first, for
    either party; both parties are shown the same messages, and the
    same sequence when no two messages of the thread were created at
    the same instant.  Nothing but [created_at] orders the thread: of
    two different messages created at the same instant either one can
    come first. *)
Theorem fetchMessages_ordered_by_created_at
        (db : Pg.database) (a b : UUID)
        (auth_a auth_b : Ui.Auth) (contact_a contact_b : Ui.Contact)
        (s_a s_b : ChatArea.state) (pick_a pick_b : Pg.tie_order) :
  Ui.user auth_a = Some a -> Ui.contact_user_id contact_a = b ->
  Ui.user auth_b = Some b -> Ui.contact_user_id contact_b = a ->
  let thread := filter (Pg.in_thread a b) (Pg.messages db) in
  let seen_by_a pick :=
    map ChatArea.row
        (ChatArea.messages (ChatArea.fetchMessages pick auth_a (Some contact_a) db s_a)) in
  let seen_by_b pick :=
    map ChatArea.row
        (ChatArea.messages (ChatArea.fetchMessages pick auth_b (Some contact_b) db s_b)) in
  Permutation (seen_by_a pick_a) thread
  /\ Permutation (seen_by_b pick_b) thread
  /\ ascending (seen_by_a pick_a)
  /\ ascending (seen_by_b pick_b)
  /\ (forall m1 m2, In m1 thread -> In m2 thread ->
                    (Pg.created_at m1 < Pg.created_at m2)%Z ->
                    precedes m1 m2 (seen_by_a pick_a)
                    /\ precedes m1 m2 (seen_by_b pick_b))
  /\ (NoDup (map Pg.created_at thread) -> seen_by_a pick_a = seen_by_b pick_b)
  /\ (forall m1 m2, In m1 thread -> In m2 thread ->
                    Pg.created_at m1 = Pg.created_at m2 -> Pg.id m1 <> Pg.id m2 ->
                    exists pick pick',
                      precedes m1 m2 (seen_by_a pick)
                      /\ precedes m2 m1 (seen_by_a pick')
                      /\ precedes m1 m2 (seen_by_b pick)
                      /\ precedes m2 m1 (seen_by_b pick')).
Proof.
  intros Ha Hca Hb Hcb thread seen_by_a seen_by_b.
  assert (Ea : forall pick, seen_by_a pick = Pg.order_by_created_at pick thread).
  { intros pick; apply (fetchMessages_thread pick auth_a a b); assumption. }
  assert (Eb : forall pick, seen_by_b pick = Pg.order_by_created_at pick thread).
  { intros pick; subst seen_by_b; cbv beta.
    rewrite (fetchMessages_thread pick auth_b b a) by assumption.
    f_equal; apply filter_ext; intros m; apply in_thread_sym. }
  assert (Hin : forall pick m, In m thread -> In m (Pg.order_by_created_at pick thread)).
  { intros pick m H.
    apply (Permutation_in _ (Permutation_sym (order_by_created_at_perm pick thread)) H). }
  rewrite !Ea, !Eb.
  split; [apply order_by_created_at_perm|].
  split; [apply order_by_created_at_perm|].
  split; [apply order_by_created_at_ascending|].
  split; [apply order_by_created_at_ascending|].
  split.
  { intros m1 m2 H1 H2 Hlt; split;
      apply ascending_precedes; auto using order_by_created_at_ascending. }
  split.
  { intros Hnd.
    apply (one_arrangement_without_ties Pg.created_at).
    - rewrite !order_by_created_at_perm; reflexivity.
    - apply order_by_created_at_ascending.
    - apply order_by_created_at_ascending.
    - apply (Permutation_NoDup (l := map Pg.created_at thread)); [|exact Hnd].
      apply Permutation_map, Permutation_sym, order_by_created_at_perm. }
  intros m1 m2 H1 H2 Ht Hid.
  exists (fun m => if String.eqb (Pg.id m) (Pg.id m1) then 0%nat else 1%nat),
         (fun m => if String.eqb (Pg.id m) (Pg.id m2) then 0%nat else 1%nat).
  rewrite !Ea, !Eb.
  assert (H12 : (Pg.id m2 =? Pg.id m1)%string = false)
    by (apply String.eqb_neq; congruence).
  assert (H21 : (Pg.id m1 =? Pg.id m2)%string = false)
    by (apply String.eqb_neq; congruence).
  repeat split; apply ranked_lower_precedes; auto;
    rewrite String.eqb_refl, ?H12, ?H21; lia.
Qed.

(** C2 (as stated) fails: no secondary key settles the order of
    messages created at the same instant.  Two executions of the query
    of [fetchMessages] over the same two rows are free to return them
    in either order; in the first of them the row with the larger id
    comes first. *)
Lemma fetchMessages_ties_not_determined :
  let shown pick :=
    map (fun m => Pg.id (ChatArea.row m))
        (ChatArea.messages
           (ChatArea.fetchMessages pick Example.as_alice (Some Example.bob_contact)
                                   Example.tied ChatArea.initial)) in
  Pg.created_at Example.tie_late_id = Pg.created_at Example.tie_early_id
  /\ shown Example.as_listed = ["m2"; "m1"]
  /\ shown Example.m1_first = ["m1"; "m2"]
  /\ shown Example.as_listed <> shown Example.m1_first.
Proof.
  repeat split; try reflexivity.
  vm_compute; discriminate.
Qed.

(** A run where both parties and the order by time can be observed:
    the two rows were created at different instants, and the two
    executions that differ on ties agree on them. *)
Lemma fetchMessages_ordered_by_created_at_witness :
  let earlier := Pg.mkMessage "m3" Example.alice Example.bob "earlier" None false 3000 3000 in
  let later := Pg.mkMessage "m1" Example.bob Example.alice "later" None false 9000 9000 in
  let db := Pg.mkDatabase Example.people [] [later; earlier] in
  let seen_by_a :=
    map ChatArea.row
        (ChatArea.messages
           (ChatArea.fetchMessages Example.as_listed Example.as_alice
                                   (Some Example.bob_contact) db ChatArea.initial)) in
  let seen_by_b :=
    map ChatArea.row
        (ChatArea.messages
           (ChatArea.fetchMessages Example.m1_first Example.as_bob
                                   (Some Example.alice_contact) db ChatArea.initial)) in
  seen_by_a = [earlier; later]
  /\ seen_by_a = seen_by_b
  /\ precedes earlier later seen_by_a
  /\ precedes earlier later seen_by_b.
Proof.
  intros earlier later db seen_by_a seen_by_b.
  split; [reflexivity|].
  destruct (fetchMessages_ordered_by_created_at db Example.alice Example.bob
              Example.as_alice Example.as_bob Example.bob_contact Example.alice_contact
              ChatArea.initial ChatArea.initial Example.as_listed Example.m1_first
              eq_refl eq_refl eq_refl eq_refl) as [_ [_ [_ [_ [Horder [Hsame _]]]]]].
  split.
  - apply Hsame; simpl.
    repeat (constructor; [simpl; intuition discriminate|]); constructor.
  - apply (Horder earlier later).
    + right; left; reflexivity.
    + left; reflexivity.
    + reflexivity.
Defined.

Lemma fetchMessages_messages pick auth u c db s :
  Ui.user auth = Some u ->
  ChatArea.messages (ChatArea.fetchMessages pick auth (Some c) db s)
  = map (ChatArea.with_reply auth u c db)
        (Pg.order_by_created_at pick
           (filter (fun m => Pg.can_view_message (Some u) m
                             && Pg.in_thread u (Ui.contact_user_id c) m)
                   (Pg.messages db))).
Proof. intros Hu; unfold ChatArea.fetchMessages; rewrite Hu; reflexivity. Qed.

(** *** Sending *)

Lemma send_request_within_cooldown auth contact s now :
  (now - ChatArea.lastMessageTime s < ChatArea.MESSAGE_COOLDOWN)%Z ->
  ChatArea.send_request auth contact s now = None.
Proof.
  intros H; unfold ChatArea.send_request.
  destruct (Ui.user auth); [|reflexivity].
  destruct contact; [|reflexivity].
  destruct (negb (Js.truthy (Js.trim (ChatArea.newMessage s)))); [reflexivity|].
  apply Z.ltb_lt in H; rewrite H; reflexivity.
Qed.

(** A call that is left alone until its insert has answered is
    [handleSendMessage] run in one piece. *)
Lemma run_one_send auth contact now new_id db_now w :
  ChatArea.in_flight w = [] ->
  let w' := ChatArea.run auth contact
              [ChatArea.Press_send now; ChatArea.Insert_answers new_id db_now] w in
  let e := ChatArea.handleSendMessage auth contact now new_id db_now
                                      (ChatArea.ui w) (ChatArea.store w) in
  ChatArea.ui w' = Ui.st e
  /\ ChatArea.store w' = Ui.db e
  /\ ChatArea.shown w' = ChatArea.shown w ++ Ui.toasts e
  /\ ChatArea.in_flight w' = [].
Proof.
  intros Hw; simpl; unfold ChatArea.handleSendMessage.
  destruct (ChatArea.send_request auth contact (ChatArea.ui w) now) as [r|] eqn:Hr; simpl.
  - rewrite Hw; simpl.
    destruct (Ui.user auth) as [u|] eqn:Hu.
    + destruct (ChatArea.serve u new_id db_now r (ChatArea.store w)) as [resp db'].
      destruct (ChatArea.send_settled now (Pg.error resp) (ChatArea.ui w)) as [s' ts].
      repeat split.
    + unfold ChatArea.send_request in Hr; rewrite Hu in Hr; discriminate.
  - rewrite Hw; simpl.
    destruct (Ui.user auth); simpl; rewrite app_nil_r; repeat split; exact Hw.
Qed.

(** When a send has been accepted and has settled, a send made less
    than 500 ms after it is dropped: nothing is issued, stored or
    shown, whatever the user typed in between. *)
Lemma settled_send_starts_cooldown
      (auth : Ui.Auth) (contact : option Ui.Contact) (u : UUID)
      (w : ChatArea.session) (r : Ui.request)
      (now1 now2 : Z) (new_id : UUID) (db_now : Z) (text : string) :
  Ui.user auth = Some u ->
  ChatArea.in_flight w = [] ->
  ChatArea.send_request auth contact (ChatArea.ui w) now1 = Some r ->
  Pg.error (fst (ChatArea.serve u new_id db_now r (ChatArea.store w))) = None ->
  (now2 - now1 < ChatArea.MESSAGE_COOLDOWN)%Z ->
  let w1 := ChatArea.run auth contact
              [ChatArea.Press_send now1; ChatArea.Insert_answers new_id db_now] w in
  let w2 := ChatArea.run auth contact
              [ChatArea.Type_message text; ChatArea.Press_send now2] w1 in
  ChatArea.store w1 = snd (ChatArea.serve u new_id db_now r (ChatArea.store w))
  /\ ChatArea.store w2 = ChatArea.store w1
  /\ ChatArea.in_flight w2 = []
  /\ ChatArea.shown w2 = ChatArea.shown w.
Proof.
  intros Hu Hw Hr Hok Hlt; simpl.
  rewrite Hr; simpl; rewrite Hu, Hw; simpl.
  destruct (ChatArea.serve u new_id db_now r (ChatArea.store w)) as [resp db'] eqn:E.
  simpl in Hok; rewrite Hok; simpl.
  rewrite send_request_within_cooldown by (simpl; exact Hlt).
  simpl; rewrite app_nil_r; repeat split.
Qed.

(** C3.  Two presses 50 ms apart, the second made before the first
    insert has answered: both inserts are issued and both messages are
    stored, without any toast. *)
Theorem overlapping_sends_both_persisted :
  let w := ChatArea.run Example.as_alice (Some Example.bob_contact)
             [ChatArea.Type_message "hello";
              ChatArea.Press_send 1000000;
              ChatArea.Press_send 1000050;
              ChatArea.Insert_answers "m1" 1000080;
              ChatArea.Insert_answers "m2" 1000130]
             Example.idle in
  (1000050 - 1000000 < ChatArea.MESSAGE_COOLDOWN)%Z
  /\ map Pg.content (Pg.messages (ChatArea.store w)) = ["hello"; "hello"]
  /\ map Pg.created_at (Pg.messages (ChatArea.store w)) = [1000080; 1000130]%Z
  /\ ChatArea.shown w = []
  /\ ChatArea.in_flight w = [].
Proof. vm_compute; repeat split. Qed.

(** *** Deleting *)

Lemma in_order_by_created_at (pick : Pg.tie_order) (m : Pg.message)
      (l : list Pg.message) :
  In m l -> In m (Pg.order_by_created_at pick l).
Proof.
  intros H; apply (Permutation_in _ (Permutation_sym (order_by_created_at_perm pick l))).
  exact H.
Qed.

(** The rewriting of the rows that refer to [x] raises exactly when
    one of them has a content the validation trigger refuses. *)
Lemma set_null_error_none (x : UUID) (l : list Pg.message) :
  (forall r, In r l -> Pg.reply_to_id r = Some x ->
             Pg.validate_message_content (Pg.content r) = None) ->
  Pg.set_null_error x l = None.
Proof.
  induction l as [|m l IH]; simpl; intros H; [reflexivity|].
  unfold Pg.refers_to.
  destruct (Pg.reply_to_id m) as [r|] eqn:Hr.
  - destruct (String.eqb_spec r x) as [E|E].
    + rewrite (H m) by (auto; congruence); apply IH; auto.
    + apply IH; auto.
  - apply IH; auto.
Qed.

Lemma set_null_error_some (x : UUID) (l : list Pg.message) (e : Pg.exception) :
  Pg.set_null_error x l = Some e ->
  exists r, In r l /\ Pg.reply_to_id r = Some x
            /\ Pg.validate_message_content (Pg.content r) = Some e.
Proof.
  induction l as [|m l IH]; simpl; [discriminate|].
  unfold Pg.refers_to.
  destruct (Pg.reply_to_id m) as [r|] eqn:Hr.
  - destruct (String.eqb_spec r x) as [E|E].
    + destruct (Pg.validate_message_content (Pg.content m)) as [e'|] eqn:Hv.
      * intros H; injection H as <-; exists m; subst r; auto.
      * intros H; destruct (IH H) as [r' [Hin H']]; exists r'; auto.
    + intros H; destruct (IH H) as [r' [Hin H']]; exists r'; auto.
  - intros H; destruct (IH H) as [r' [Hin H']]; exists r'; auto.
Qed.

Lemma set_null_error_raises (x : UUID) (l : list Pg.message) (r : Pg.message) :
  In r l -> Pg.reply_to_id r = Some x ->
  Pg.validate_message_content (Pg.content r) <> None ->
  Pg.set_null_error x l <> None.
Proof.
  intros Hin Href Hbad.
  induction l as [|m l IH]; simpl; [destruct Hin|].
  unfold Pg.refers_to.
  destruct Hin as [->|Hin].
  - rewrite Href, String.eqb_refl.
    destruct (Pg.validate_message_content (Pg.content r)); [discriminate|congruence].
  - destruct (Pg.reply_to_id m) as [y|]; [|apply IH; exact Hin].
    destruct (String.eqb y x); [|apply IH; exact Hin].
    destruct (Pg.validate_message_content (Pg.content m)); [discriminate|].
    apply IH; exact Hin.
Qed.

(** A deletion addresses no row of the caller and does nothing, or is
    refused by the trigger and does nothing, or removes the addressed
    rows and voids the references to them. *)
Lemma delete_message_cases (auth : option UUID) (x : UUID) (now : Z) (db : Pg.database) :
  let kept := filter (fun m => negb (Pg.deletes auth x m)) (Pg.messages db) in
  (existsb (Pg.deletes auth x) (Pg.messages db) = false
   /\ Pg.delete_message auth x now db = (Pg.ok tt, db))
  \/ (exists e r, Pg.delete_message auth x now db = (Pg.failed e, db)
                  /\ In r (Pg.messages db) /\ Pg.reply_to_id r = Some x
                  /\ Pg.validate_message_content (Pg.content r) = Some e)
  \/ (existsb (Pg.deletes auth x) (Pg.messages db) = true
      /\ Pg.set_null_error x kept = None
      /\ Pg.delete_message auth x now db
         = (Pg.ok tt,
            Pg.mkDatabase (Pg.profiles db) (Pg.contacts db)
                          (map (Pg.set_null x now) kept))).
Proof.
  intros kept; unfold Pg.delete_message; fold kept.
  destruct (existsb (Pg.deletes auth x) (Pg.messages db)); [|left; split; reflexivity].
  right.
  destruct (Pg.set_null_error x kept) as [e|] eqn:E.
  - left; destruct (set_null_error_some x kept e E) as [r [Hin [Hr Hv]]].
    exists e, r; split; [reflexivity|]; split; [|split; assumption].
    apply filter_In in Hin; tauto.
  - right; repeat split.
Qed.

Lemma delete_message_rows (u x : UUID) (now : Z) (db : Pg.database) (target : Pg.message) :
  In target (Pg.messages db) -> Pg.id target = x -> Pg.sender_id target = u ->
  (forall r, In r (Pg.messages db) -> Pg.reply_to_id r = Some x ->
             Pg.validate_message_content (Pg.content r) = None) ->
  Pg.delete_message (Some u) x now db
  = (Pg.ok tt,
     Pg.mkDatabase (Pg.profiles db) (Pg.contacts db)
       (map (Pg.set_null x now)
            (filter (fun m => negb (Pg.deletes (Some u) x m)) (Pg.messages db)))).
Proof.
  intros Hin Hid Hs Hvalid; unfold Pg.delete_message.
  assert (E : existsb (Pg.deletes (Some u) x) (Pg.messages db) = true).
  { apply existsb_exists; exists target; split; [exact Hin|].
    unfold Pg.deletes, Pg.auth_is; rewrite Hid, Hs, !String.eqb_refl; reflexivity. }
  rewrite E, set_null_error_none; [reflexivity|].
  intros r Hr; apply filter_In in Hr; apply Hvalid; tauto.
Qed.

(** The store of Alice's and Bob's talk is well formed. *)
Lemma talk_well_formed : messages_well_formed Example.talk.
Proof.
  split; [|split].
  - repeat (constructor; [reflexivity|]); constructor.
  - repeat (constructor; [simpl; intuition discriminate|]); constructor.
  - intros m r [<-|[<-|[]]] Hr; simpl in Hr; [discriminate|].
    injection Hr as <-; exists Example.hello; split; [left|]; reflexivity.
Defined.

(** C6.  Over a store whose contents all pass the validation trigger,
    as every content written through the trigger does: when the sender
    of a message deletes it, a message that replied to it stays in
    storage with the same id, parties, content, edited flag and
    creation time, and with no reply reference; the deletion shows no
    error and the deleted row is gone.  Whoever then fetches the thread
    the replying message belongs to finds it listed, with no reply
    preview, however the query orders rows created at the same
    instant. *)
Theorem deleted_reply_target_leaves_dependents
        (deleter viewer : Ui.Auth) (u v : UUID) (c : Ui.Contact)
        (db : Pg.database) (s_deleter s_viewer : ChatArea.state)
        (target d : Pg.message) (now : Z) (pick : Pg.tie_order) :
  Ui.user deleter = Some u ->
  Ui.user viewer = Some v ->
  content_valid db ->
  In target (Pg.messages db) -> Pg.sender_id target = u ->
  In d (Pg.messages db) ->
  Pg.reply_to_id d = Some (Pg.id target) -> Pg.id d <> Pg.id target ->
  Pg.in_thread v (Ui.contact_user_id c) d = true ->
  let e := ChatArea.handleDeleteMessage deleter (Pg.id target) now s_deleter db in
  let view := ChatArea.fetchMessages pick viewer (Some c) (Ui.db e) s_viewer in
  Ui.toasts e = []
  /\ ~ In target (Pg.messages (Ui.db e))
  /\ exists d',
       In d' (Pg.messages (Ui.db e))
       /\ In (ChatArea.mkMessage d' None) (ChatArea.messages view)
       /\ Pg.reply_to_id d' = None
       /\ Pg.id d' = Pg.id d
       /\ Pg.sender_id d' = Pg.sender_id d
       /\ Pg.receiver_id d' = Pg.receiver_id d
       /\ Pg.content d' = Pg.content d
       /\ Pg.is_edited d' = Pg.is_edited d
       /\ Pg.created_at d' = Pg.created_at d.
Proof.
  intros Hu Hv Hcontent Ht Hts Hd Hr Hne Hth e view.
  assert (Hvalid : forall r, In r (Pg.messages db) ->
                             Pg.reply_to_id r = Some (Pg.id target) ->
                             Pg.validate_message_content (Pg.content r) = None).
  { intros r Hin _; unfold content_valid in Hcontent.
    rewrite Forall_forall in Hcontent; apply Hcontent; exact Hin. }
  assert (He : e = Ui.mkEffect s_deleter
                     (Pg.mkDatabase (Pg.profiles db) (Pg.contacts db)
                        (map (Pg.set_null (Pg.id target) now)
                             (filter (fun m => negb (Pg.deletes (Some u) (Pg.id target) m))
                                     (Pg.messages db))))
                     [] [Ui.Delete_message (Pg.id target)]).
  { subst e; unfold ChatArea.handleDeleteMessage.
    rewrite Hu, (delete_message_rows u _ now db target) by auto; reflexivity. }
  set (d' := Pg.set_null (Pg.id target) now d).
  assert (Hd' : d' = Pg.mkMessage (Pg.id d) (Pg.sender_id d) (Pg.receiver_id d)
                                  (Pg.content d) None (Pg.is_edited d)
                                  (Pg.created_at d) now).
  { subst d'; unfold Pg.set_null; rewrite Hr, String.eqb_refl; reflexivity. }
  assert (Hstored : In d' (Pg.messages (Ui.db e))).
  { rewrite He; simpl; apply in_map; apply filter_In; split; [exact Hd|].
    unfold Pg.deletes. apply String.eqb_neq in Hne; rewrite Hne; reflexivity. }
  split; [rewrite He; reflexivity|]; split.
  - rewrite He; simpl; intros Hin.
    apply in_map_iff in Hin; destruct Hin as [r [Hset Hin]].
    apply filter_In in Hin; destruct Hin as [_ Hkeep].
    assert (Hsame : Pg.id r = Pg.id target /\ Pg.sender_id r = Pg.sender_id target).
    { rewrite <- Hset; unfold Pg.set_null.
      destruct (Pg.reply_to_id r) as [x|]; [|split; reflexivity].
      destruct (x =? Pg.id target)%string; split; reflexivity. }
    destruct Hsame as [Hi Hse].
    unfold Pg.deletes, Pg.auth_is in Hkeep.
    rewrite Hi, Hse, Hts, !String.eqb_refl in Hkeep; discriminate.
  - exists d'; split; [exact Hstored|]; split.
    + subst view; rewrite (fetchMessages_messages pick viewer v) by exact Hv.
      replace (ChatArea.mkMessage d' None)
        with (ChatArea.with_reply viewer v c (Ui.db e) d')
        by (unfold ChatArea.with_reply; rewrite Hd'; reflexivity).
      apply in_map, in_order_by_created_at, filter_In; split; [exact Hstored|].
      rewrite in_thread_visible.
      rewrite <- Hth, Hd'; reflexivity.
    + rewrite Hd'; repeat split.
Qed.

(** Bob's answer, as Bob sees it after Alice deleted the message it
    replied to. *)
Lemma deleted_reply_target_leaves_dependents_witness :
  let e := ChatArea.handleDeleteMessage Example.as_alice "m1" 3000
                                        ChatArea.initial Example.talk in
  let view := ChatArea.fetchMessages Example.as_listed Example.as_bob
                                     (Some Example.alice_contact)
                                     (Ui.db e) ChatArea.initial in
  map (fun m => Pg.id (ChatArea.row m)) (ChatArea.messages view) = ["m2"]
  /\ Ui.toasts e = []
  /\ ~ In Example.hello (Pg.messages (Ui.db e))
  /\ exists d', In (ChatArea.mkMessage d' None) (ChatArea.messages view)
                /\ Pg.id d' = "m2" /\ Pg.content d' = "hello yourself".
Proof.
  intros e view; split; [reflexivity|].
  destruct (deleted_reply_target_leaves_dependents
              Example.as_alice Example.as_bob Example.alice Example.bob
              Example.alice_contact Example.talk
              ChatArea.initial ChatArea.initial Example.hello Example.answer 3000
              Example.as_listed
              eq_refl eq_refl (proj1 talk_well_formed) (or_introl eq_refl) eq_refl
              (or_intror (or_introl eq_refl)) eq_refl)
    as [Htoast [Hgone [d' [_ [Hview [_ [Hid [_ [_ [Hcontent _]]]]]]]]]].
  - simpl; discriminate.
  - reflexivity.
  - split; [exact Htoast|]; split; [exact Hgone|].
    exists d'; split; [exact Hview|]; split; [exact Hid|exact Hcontent].
Defined.

(** *** Editing *)

Lemma validate_trimmed_text (text : string) :
  Js.trim text <> EmptyString ->
  (Z.of_nat (String.length (Js.trim text)) <= 10000)%Z ->
  Pg.validate_message_content (Js.trim text) = None.
Proof.
  intros Hne Hlen; unfold Pg.validate_message_content.
  pose proof (trimmed_text_not_blank text Hne) as Hb.
  apply Nat.eqb_neq in Hb; rewrite Hb.
  destruct (Z.ltb_spec 10000 (Z.of_nat (String.length (Js.trim text)))); [lia|reflexivity].
Qed.

Lemma validate_long_text (text : string) :
  Js.trim text <> EmptyString ->
  (10000 < Z.of_nat (String.length (Js.trim text)))%Z ->
  Pg.validate_message_content (Js.trim text)
  = Some Pg.Message_content_exceeds_maximum_length.
Proof.
  intros Hne Hlen; unfold Pg.validate_message_content.
  pose proof (trimmed_text_not_blank text Hne) as Hb.
  apply Nat.eqb_neq in Hb; rewrite Hb.
  apply Z.ltb_lt in Hlen; rewrite Hlen; reflexivity.
Qed.

(** C9 (as the code has it).  When the sender of a message edits it
    with a text that is non-empty after trimming, the update is
    requested with the trimmed text.  If that text has at most 10000
    characters, no error is shown and the stored row has it as its
    content, the edited flag set and [updated_at] at the time of the
    update, while its id, sender, receiver, creation time and reply
    reference are as before; every row the edit does not address, and
    the other tables, are unchanged.  If it has more, the trigger
    refuses the update: "Failed to edit message." is shown and the
    database and the editor are as they were. *)
Theorem handleEditMessage_changes_content_only
        (auth : Ui.Auth) (u : UUID) (db : Pg.database) (s : ChatArea.state)
        (edited : ChatArea.Message) (m : Pg.message) (now : Z) :
  Ui.user auth = Some u ->
  ChatArea.editingMessage s = Some edited ->
  In m (Pg.messages db) ->
  Pg.id m = Pg.id (ChatArea.row edited) ->
  Pg.sender_id m = u ->
  Js.trim (ChatArea.editContent s) <> EmptyString ->
  let text := Js.trim (ChatArea.editContent s) in
  let e := ChatArea.handleEditMessage auth now s db in
  Ui.requests e = [Ui.Update_message (Pg.id m) text]
  /\ ((Z.of_nat (String.length text) <= 10000)%Z ->
      Ui.toasts e = []
      /\ Pg.profiles (Ui.db e) = Pg.profiles db
      /\ Pg.contacts (Ui.db e) = Pg.contacts db
      /\ Pg.messages (Ui.db e)
         = map (fun r => if Pg.edits (Some u) (Pg.id m) r
                         then Pg.set_content text now r
                         else r)
               (Pg.messages db)
      /\ Pg.edits (Some u) (Pg.id m) m = true
      /\ (forall r, Pg.id r <> Pg.id m -> Pg.edits (Some u) (Pg.id m) r = false)
      /\ exists m',
          In m' (Pg.messages (Ui.db e))
          /\ Pg.content m' = text
          /\ Pg.is_edited m' = true
          /\ Pg.updated_at m' = now
          /\ Pg.id m' = Pg.id m
          /\ Pg.sender_id m' = Pg.sender_id m
          /\ Pg.receiver_id m' = Pg.receiver_id m
          /\ Pg.created_at m' = Pg.created_at m
          /\ Pg.reply_to_id m' = Pg.reply_to_id m)
  /\ ((10000 < Z.of_nat (String.length text))%Z ->
      Ui.toasts e = [ChatArea.edit_failed]
      /\ Ui.db e = db
      /\ Ui.st e = s).
Proof.
  intros Hu He Hin Hid Hs Hne text e; subst text.
  pose (text := Js.trim (ChatArea.editContent s)).
  assert (Hm : Pg.edits (Some u) (Pg.id m) m = true).
  { unfold Pg.edits, Pg.auth_is; rewrite Hs, !String.eqb_refl; reflexivity. }
  assert (Hex : existsb (Pg.edits (Some u) (Pg.id m)) (Pg.messages db) = true).
  { apply existsb_exists; exists m; split; assumption. }
  assert (Hcall : e = let (resp, db') := Pg.update_message (Some u) (Pg.id m) text now db in
                      match Pg.error resp with
                      | Some _ => Ui.mkEffect s db' [ChatArea.edit_failed]
                                              [Ui.Update_message (Pg.id m) text]
                      | None =>
                          Ui.mkEffect
                            (ChatArea.mkState (ChatArea.messages s) (ChatArea.newMessage s)
                                              (ChatArea.replyTo s) None ""
                                              (ChatArea.lastMessageTime s))
                            db' [] [Ui.Update_message (Pg.id m) text]
                      end).
  { subst e; unfold text, ChatArea.handleEditMessage; rewrite He.
    pose proof Hne as Ht; apply truthy_iff in Ht; rewrite Ht; simpl negb; cbv iota.
    rewrite Hu, <- Hid; reflexivity. }
  unfold text, Pg.update_message in Hcall; rewrite Hex in Hcall; clear text.
  split; [|split].
  - rewrite Hcall.
    destruct (Pg.validate_message_content _); reflexivity.
  - intros Hlen.
    rewrite (validate_trimmed_text _ Hne Hlen) in Hcall.
    rewrite Hcall; simpl.
    repeat (split; [reflexivity || exact Hm|]).
    split.
    + intros r Hr; unfold Pg.edits.
      apply String.eqb_neq in Hr; rewrite Hr; reflexivity.
    + exists (Pg.set_content (Js.trim (ChatArea.editContent s)) now m); split.
      * apply in_map_iff; exists m; rewrite Hm; split; [reflexivity|exact Hin].
      * repeat split.
  - intros Hlen.
    rewrite (validate_long_text _ Hne Hlen) in Hcall.
    rewrite Hcall; repeat split.
Qed.

(** C9 (as stated) fails for a non-empty text of more than 10000
    characters: the storage trigger rejects the update, the component
    shows "Failed to edit message." and the row keeps its content and
    its edited flag. *)
Lemma handleEditMessage_rejects_long_text :
  let e := ChatArea.handleEditMessage Example.as_alice 3000
             (Example.editing Example.long_text) Example.talk in
  Js.truthy (Js.trim Example.long_text) = true
  /\ String.length Example.long_text = N.to_nat 10001
  /\ Ui.toasts e = [ChatArea.edit_failed]
  /\ Ui.db e = Example.talk
  /\ map Pg.content (Pg.messages (Ui.db e)) = ["hello"; "hello yourself"]
  /\ map Pg.is_edited (Pg.messages (Ui.db e)) = [false; false].
Proof. vm_compute; repeat split. Qed.

(** Alice turns "hello" into "hello!". *)
Lemma handleEditMessage_changes_content_only_witness :
  let e := ChatArea.handleEditMessage Example.as_alice 3000
             (Example.editing "  hello! ") Example.talk in
  Pg.messages (Ui.db e)
  = [Pg.mkMessage "m1" Example.alice Example.bob "hello!" None true 1000 3000;
     Example.answer]
  /\ Ui.toasts e = []
  /\ exists m', In m' (Pg.messages (Ui.db e))
                /\ Pg.content m' = "hello!" /\ Pg.is_edited m' = true
                /\ Pg.created_at m' = 1000%Z.
Proof.
  intros e; split; [reflexivity|].
  destruct (handleEditMessage_changes_content_only
              Example.as_alice Example.alice Example.talk (Example.editing "  hello! ")
              (ChatArea.mkMessage Example.hello None) Example.hello 3000
              eq_refl eq_refl (or_introl eq_refl) eq_refl eq_refl)
    as [_ [Hshort _]].
  - simpl; discriminate.
  - destruct Hshort
      as [Htoast [_ [_ [_ [_ [_ [m' [Hin [Hc [He [_ [_ [_ [_ [Ht _]]]]]]]]]]]]]]].
    + apply Z.leb_le; reflexivity.
    + split; [exact Htoast|].
      exists m'; split; [exact Hin|]; split; [exact Hc|]; split; [exact He|exact Ht].
Defined.

(** *** Reply previews *)

Lemma select_message_found (u x : UUID) (db : Pg.database) (text : string) (sender : UUID) :
  Pg.data (Pg.select_message (Some u) x db) = Some (text, sender) ->
  exists replied, In replied (Pg.messages db) /\ Pg.id replied = x
                  /\ Pg.content replied = text /\ Pg.sender_id replied = sender
                  /\ Pg.can_view_message (Some u) replied = true.
Proof.
  unfold Pg.select_message.
  destruct (filter (fun m => Pg.can_view_message (Some u) m && (Pg.id m =? x)%string)
                   (Pg.messages db)) as [|r [|r' l]] eqn:E; simpl; try discriminate.
  intros H; injection H as <- <-.
  assert (Hr : In r (filter (fun m => Pg.can_view_message (Some u) m && (Pg.id m =? x)%string)
                            (Pg.messages db))) by (rewrite E; left; reflexivity).
  apply filter_In in Hr; destruct Hr as [Hin Hp].
  apply andb_true_iff in Hp; destruct Hp as [Hv Hi]; apply String.eqb_eq in Hi.
  exists r; repeat split; assumption.
Qed.

(** C10 (as the code has it).  Every reply preview in a fetched thread
    quotes a stored message, the one the reply reference names.  When
    the viewer sent the quoted message, the preview is headed by the
    name of the profile the session holds if it holds one with a
    non-empty name, and by "You" if it holds no profile or one with an
    empty name; in every other case it is headed by the open contact's
    display name, whoever sent the quoted message. *)
Theorem reply_preview_names_viewer_or_open_contact
        (pick : Pg.tie_order)
        (auth : Ui.Auth) (u : UUID) (c : Ui.Contact) (db : Pg.database)
        (s : ChatArea.state) (shown : ChatArea.Message) (preview : ChatArea.reply_preview) :
  Ui.user auth = Some u ->
  In shown (ChatArea.messages (ChatArea.fetchMessages pick auth (Some c) db s)) ->
  ChatArea.reply_to shown = Some preview ->
  exists replied,
    In replied (Pg.messages db)
    /\ Pg.reply_to_id (ChatArea.row shown) = Some (Pg.id replied)
    /\ ChatArea.reply_content preview = Pg.content replied
    /\ (Pg.sender_id replied = u ->
        (forall p, Ui.own_profile auth = Some p -> Pg.pr_name p <> EmptyString ->
                   ChatArea.sender_name preview = Pg.pr_name p)
        /\ (forall p, Ui.own_profile auth = Some p -> Pg.pr_name p = EmptyString ->
                      ChatArea.sender_name preview = "You")
        /\ (Ui.own_profile auth = None -> ChatArea.sender_name preview = "You"))
    /\ (Pg.sender_id replied <> u ->
        ChatArea.sender_name preview = Ui.name (Ui.profile c)).
Proof.
  intros Hu Hin Hp.
  rewrite (fetchMessages_messages pick auth u) in Hin by exact Hu.
  apply in_map_iff in Hin; destruct Hin as [msg [<- _]].
  unfold ChatArea.with_reply in *.
  destruct (Pg.reply_to_id msg) as [r|] eqn:Hr; [|discriminate].
  destruct (Pg.data (Pg.select_message (Some u) r db)) as [[text sender]|] eqn:Hsel;
    [|discriminate].
  destruct (select_message_found u r db text sender Hsel)
    as [replied [Hstored [Hid [Hc [Hs _]]]]].
  simpl in Hp; injection Hp as <-; simpl.
  exists replied; split; [exact Hstored|]; split; [rewrite Hr, Hid; reflexivity|].
  split; [symmetry; exact Hc|]; rewrite Hs; split.
  - intros ->; rewrite String.eqb_refl; unfold ChatArea.own_name, Js.or_else.
    split; [|split].
    + intros p Hown Hname; rewrite Hown.
      apply truthy_iff in Hname; rewrite Hname; reflexivity.
    + intros p Hown Hname; rewrite Hown, Hname; reflexivity.
    + intros Hown; rewrite Hown; reflexivity.
  - intros Hne; apply String.eqb_neq in Hne; rewrite Hne; reflexivity.
Qed.

(** C10 (as stated) fails when the session holds no profile of the
    viewer.  Alice's session has her identity and not yet her profile;
    in her thread with Bob, Bob's answer quotes a message Alice sent,
    and the preview is headed "You", not "Alice", the display name her
    profile row has. *)
Lemma reply_preview_headed_You_without_profile :
  let view := ChatArea.fetchMessages Example.as_listed Example.alice_loading
                                     (Some Example.bob_contact)
                                     Example.talk ChatArea.initial in
  Ui.user Example.alice_loading = Some Example.alice
  /\ Pg.sender_id Example.hello = Example.alice
  /\ In Example.alice_profile (Pg.profiles Example.talk)
  /\ Pg.pr_user_id Example.alice_profile = Example.alice
  /\ Pg.pr_name Example.alice_profile = "Alice"
  /\ ChatArea.messages view
     = [ChatArea.mkMessage Example.hello None;
        ChatArea.mkMessage Example.answer (Some (ChatArea.mkReply "hello" "You"))].
Proof. vm_compute; repeat split; left; reflexivity. Qed.

(** Alice's thread with Bob, where her message quotes one Carol sent
    her: the preview is headed by Bob's name.  In Bob's thread with
    Alice, his answer quotes a message of hers, and is headed by his
    own name when he replies to himself. *)
Lemma reply_preview_names_viewer_or_open_contact_witness :
  let view := ChatArea.fetchMessages Example.as_listed Example.as_alice
                                     (Some Example.bob_contact)
                                     Example.forwarded ChatArea.initial in
  let preview := ChatArea.mkReply "greetings from Carol" "Bob" in
  let own := ChatArea.mkReply "hello" "Alice" in
  ChatArea.messages view = [ChatArea.mkMessage Example.quoting_carol (Some preview)]
  /\ Pg.sender_id Example.from_carol = Example.carol
  /\ ChatArea.sender_name preview = Ui.name (Ui.profile Example.bob_contact)
  /\ In (ChatArea.mkMessage Example.answer (Some own))
        (ChatArea.messages
           (ChatArea.fetchMessages Example.as_listed Example.as_alice
                                   (Some Example.bob_contact)
                                   Example.talk ChatArea.initial))
  /\ ChatArea.sender_name own = Pg.pr_name Example.alice_profile.
Proof.
  intros view preview own; split; [reflexivity|]; split; [reflexivity|].
  split; [|split; [right; left; reflexivity|]].
  - destruct (reply_preview_names_viewer_or_open_contact
                Example.as_listed
                Example.as_alice Example.alice Example.bob_contact Example.forwarded
                ChatArea.initial (ChatArea.mkMessage Example.quoting_carol (Some preview))
                preview eq_refl (or_introl eq_refl) eq_refl)
      as [replied [Hin [Hid [_ [_ Hother]]]]].
    apply Hother.
    destruct Hin as [<-|[<-|[]]]; simpl in *; discriminate.
  - destruct (reply_preview_names_viewer_or_open_contact
                Example.as_listed
                Example.as_alice Example.alice Example.bob_contact Example.talk
                ChatArea.initial (ChatArea.mkMessage Example.answer (Some own))
                own eq_refl (or_intror (or_introl eq_refl)) eq_refl)
      as [replied [Hin [Hid [_ [Hown _]]]]].
    assert (Hsender : Pg.sender_id replied = Example.alice).
    { destruct Hin as [<-|[<-|[]]]; simpl in *; [reflexivity|discriminate]. }
    destruct (Hown Hsender) as [Hname _].
    apply (Hname Example.alice_profile eq_refl); simpl; discriminate.
Defined.

(** ** Contact graph *)

Lemma find_contact_some (v : UUID) (l : list Ui.Contact) :
  In v (map Ui.contact_user_id l) ->
  exists c, find (fun c => String.eqb (Ui.contact_user_id c) v) l = Some c.
Proof.
  induction l as [|c l IH]; simpl; [tauto|].
  destruct (String.eqb_spec (Ui.contact_user_id c) v) as [E|E].
  - intros _; exists c; reflexivity.
  - intros [H|H]; [contradiction|apply IH; exact H].
Qed.

Lemma find_contact_none (v : UUID) (l : list Ui.Contact) :
  ~ In v (map Ui.contact_user_id l) ->
  find (fun c => String.eqb (Ui.contact_user_id c) v) l = None.
Proof.
  induction l as [|c l IH]; simpl; [reflexivity|].
  destruct (String.eqb_spec (Ui.contact_user_id c) v) as [E|E].
  - intros H; exfalso; apply H; left; exact E.
  - intros H; apply IH; intros Hin; apply H; right; exact Hin.
Qed.

(** The shape of [handleAddContact] once the guards on the session and
    on the typed text have passed. *)
Lemma handleAddContact_after_guards auth u new_id now s db :
  Ui.user auth = Some u ->
  Js.trim (ContactsList.searchUid s) <> EmptyString ->
  ContactsList.handleAddContact auth new_id now s db
  = let h := Js.trim (ContactsList.searchUid s) in
    if negb (String.length h =? 8)%nat
    then Ui.mkEffect s db [ContactsList.invalid_uid] []
    else
      match fst (Pg.lookup_profile_by_uid (Some h) db) with
      | [] => Ui.mkEffect (ContactsList.setLoading false s) db
                          [ContactsList.user_not_found]
                          [Ui.Rpc_lookup_profile_by_uid h]
      | (v, n) :: _ =>
          if String.eqb v u
          then Ui.mkEffect (ContactsList.setLoading false s) db
                           [ContactsList.cannot_add_yourself]
                           [Ui.Rpc_lookup_profile_by_uid h]
          else
            match find (fun c => String.eqb (Ui.contact_user_id c) v)
                       (ContactsList.contacts s) with
            | Some _ => Ui.mkEffect (ContactsList.setLoading false s) db
                                    [ContactsList.already_added]
                                    [Ui.Rpc_lookup_profile_by_uid h]
            | None =>
                match Pg.error (fst (Pg.insert_contact (Some u) new_id now u v db)) with
                | Some _ =>
                    Ui.mkEffect (ContactsList.setLoading false s)
                                (snd (Pg.insert_contact (Some u) new_id now u v db))
                                [ContactsList.add_failed]
                                [Ui.Rpc_lookup_profile_by_uid h; Ui.Insert_contact u v]
                | None =>
                    Ui.mkEffect
                      (ContactsList.fetchContacts auth
                         (snd (Pg.insert_contact (Some u) new_id now u v db))
                         (ContactsList.mkState (ContactsList.contacts s) "" false false
                                               (ContactsList.filter s)))
                      (snd (Pg.insert_contact (Some u) new_id now u v db))
                      [ContactsList.contact_added n]
                      [Ui.Rpc_lookup_profile_by_uid h; Ui.Insert_contact u v]
                end
            end
      end.
Proof.
  intros Hu Hne; unfold ContactsList.handleAddContact; rewrite Hu.
  apply truthy_iff in Hne; rewrite Hne; simpl negb; cbv iota zeta.
  destruct (negb (String.length (Js.trim (ContactsList.searchUid s)) =? 8)%nat);
    [reflexivity|].
  unfold Pg.rpc_lookup_profile_by_uid, Pg.ok; cbn [Pg.data Pg.error].
  destruct (fst (Pg.lookup_profile_by_uid
                   (Some (Js.trim (ContactsList.searchUid s))) db)) as [|[v n] rest];
    [reflexivity|].
  destruct (String.eqb v u); [reflexivity|].
  destruct (find _ (ContactsList.contacts s)); [reflexivity|].
  destruct (Pg.insert_contact (Some u) new_id now u v db) as [resp db']; reflexivity.
Qed.

(** The insert either leaves the database as it was or appends one edge. *)
Lemma insert_contact_cases (u v new_id : UUID) (now : Z) (db : Pg.database) :
  (exists e, Pg.insert_contact (Some u) new_id now u v db = (Pg.failed e, db))
  \/ (Pg.insert_contact (Some u) new_id now u v db
      = (Pg.ok tt, Pg.mkDatabase (Pg.profiles db)
                                 (Pg.contacts db ++ [Pg.mkContact new_id u v now])
                                 (Pg.messages db))
      /\ forall c, In c (Pg.contacts db) ->
                   ~ (Pg.ct_user_id c = u /\ Pg.ct_contact_user_id c = v)).
Proof.
  unfold Pg.insert_contact, Pg.auth_is; rewrite String.eqb_refl; simpl negb; cbv iota.
  destruct (existsb _ (Pg.contacts db)) eqn:E.
  - left; eexists; reflexivity.
  - right; split; [reflexivity|].
    intros c Hc [H1 H2].
    assert (Hex : existsb (fun c0 => (Pg.ct_id c0 =? new_id)%string
                                     || ((Pg.ct_user_id c0 =? u)%string
                                         && (Pg.ct_contact_user_id c0 =? v)%string))
                          (Pg.contacts db) = true).
    { apply existsb_exists; exists c; split; [exact Hc|].
      rewrite H1, H2, !String.eqb_refl; apply orb_true_r. }
    rewrite Hex in E; discriminate.
Qed.

(** The contacts [fetchContacts] lists are the peers of the caller's
    edges in storage. *)
Lemma fetchContacts_lists_edges auth u db s :
  Ui.user auth = Some u ->
  map Ui.contact_user_id (ContactsList.contacts (ContactsList.fetchContacts auth db s))
  = map Pg.ct_contact_user_id
        (filter (fun c => String.eqb (Pg.ct_user_id c) u) (Pg.contacts db)).
Proof.
  intros Hu; unfold ContactsList.fetchContacts, Pg.select_contacts, Pg.ok; rewrite Hu.
  cbn [Pg.data Pg.error].
  assert (E : filter (fun c => Pg.auth_is (Some u) (Pg.ct_user_id c)
                               && (Pg.ct_user_id c =? u)%string) (Pg.contacts db)
              = filter (fun c => (Pg.ct_user_id c =? u)%string) (Pg.contacts db)).
  { apply filter_ext; intros c; unfold Pg.auth_is.
    rewrite (String.eqb_sym u); apply andb_diag. }
  rewrite E.
  destruct (filter (fun c => (Pg.ct_user_id c =? u)%string) (Pg.contacts db))
    as [|c0 cs]; [reflexivity|].
  cbn [map]; unfold Pg.select_profiles_in, Pg.ok; cbn [Pg.data Pg.error].
  unfold ContactsList.setContacts; cbn [ContactsList.contacts map Ui.contact_user_id snd].
  f_equal; rewrite !map_map; reflexivity.
Qed.

(** With no session or with a blank text the handler returns at once. *)
Lemma handleAddContact_blank auth new_id now s db :
  Ui.user auth = None \/ Js.trim (ContactsList.searchUid s) = EmptyString ->
  ContactsList.handleAddContact auth new_id now s db = Ui.nothing s db.
Proof.
  unfold ContactsList.handleAddContact; intros [->| ->]; [reflexivity|].
  destruct (Ui.user auth); reflexivity.
Qed.

Lemma toasts_of_checks_distinct :
  NoDup [ContactsList.invalid_uid; ContactsList.user_not_found;
         ContactsList.cannot_add_yourself; ContactsList.already_added;
         ContactsList.add_failed].
Proof.
  repeat (constructor; [simpl; intuition discriminate|]); constructor.
Qed.

Lemma insert_contact_fresh (u v new_id : UUID) (now : Z) (db : Pg.database) :
  (forall c, In c (Pg.contacts db) ->
             ~ (Pg.ct_user_id c = u /\ Pg.ct_contact_user_id c = v)) ->
  (forall c, In c (Pg.contacts db) -> Pg.ct_id c <> new_id) ->
  Pg.insert_contact (Some u) new_id now u v db
  = (Pg.ok tt, Pg.mkDatabase (Pg.profiles db)
                             (Pg.contacts db ++ [Pg.mkContact new_id u v now])
                             (Pg.messages db)).
Proof.
  intros Hedge Hid.
  unfold Pg.insert_contact, Pg.auth_is; rewrite String.eqb_refl; simpl negb; cbv iota.
  destruct (existsb _ (Pg.contacts db)) eqn:E; [|reflexivity].
  apply existsb_exists in E; destruct E as [c [Hc H]].
  apply orb_true_iff in H; destruct H as [H|H].
  - apply String.eqb_eq in H; exfalso; exact (Hid c Hc H).
  - apply andb_true_iff in H; destruct H as [H1 H2].
    apply String.eqb_eq in H1, H2; exfalso; apply (Hedge c Hc); split; assumption.
Qed.

(** [handleAddContact] once the four checks of the component have
    passed: the insert is requested and its answer decides. *)
Lemma handleAddContact_checks_passed auth u new_id now s db v n rest :
  Ui.user auth = Some u ->
  String.length (Js.trim (ContactsList.searchUid s)) = 8%nat ->
  fst (Pg.lookup_profile_by_uid (Some (Js.trim (ContactsList.searchUid s))) db)
  = (v, n) :: rest ->
  v <> u ->
  ~ In v (map Ui.contact_user_id (ContactsList.contacts s)) ->
  let h := Js.trim (ContactsList.searchUid s) in
  let e := ContactsList.handleAddContact auth new_id now s db in
  Ui.requests e = [Ui.Rpc_lookup_profile_by_uid h; Ui.Insert_contact u v]
  /\ ((exists c, In c (Pg.contacts db)
                 /\ Pg.ct_user_id c = u /\ Pg.ct_contact_user_id c = v) ->
      Ui.toasts e = [ContactsList.add_failed] /\ Ui.db e = db)
  /\ (Ui.db e <> db ->
      (forall c, In c (Pg.contacts db) ->
                 ~ (Pg.ct_user_id c = u /\ Pg.ct_contact_user_id c = v))
      /\ Ui.toasts e = [ContactsList.contact_added n]
      /\ Ui.db e = Pg.mkDatabase (Pg.profiles db)
                     (Pg.contacts db ++ [Pg.mkContact new_id u v now])
                     (Pg.messages db))
  /\ ((forall c, In c (Pg.contacts db) ->
                 ~ (Pg.ct_user_id c = u /\ Pg.ct_contact_user_id c = v)) ->
      (forall c, In c (Pg.contacts db) -> Pg.ct_id c <> new_id) ->
      Ui.toasts e = [ContactsList.contact_added n]
      /\ Ui.db e = Pg.mkDatabase (Pg.profiles db)
                     (Pg.contacts db ++ [Pg.mkContact new_id u v now])
                     (Pg.messages db)).
Proof.
  intros Hu Hlen Hfound Hv Hl h e.
  assert (Hne : Js.trim (ContactsList.searchUid s) <> EmptyString).
  { intros E; rewrite E in Hlen; discriminate. }
  assert (He : e = ContactsList.handleAddContact auth new_id now s db) by reflexivity.
  rewrite (handleAddContact_after_guards auth u) in He by assumption; cbv zeta in He.
  rewrite Hlen, Hfound in He.
  pose proof Hv as Hvb; apply String.eqb_neq in Hvb; rewrite Hvb in He.
  rewrite (find_contact_none v _ Hl) in He.
  simpl negb in He; cbv iota in He.
  split; [|split; [|split]].
  - rewrite He.
    destruct (Pg.error (fst (Pg.insert_contact (Some u) new_id now u v db))); reflexivity.
  - intros [c [Hc [Hcu Hcv]]].
    destruct (insert_contact_cases u v new_id now db) as [[x Hx]|[_ Hfree]].
    + rewrite Hx in He; simpl in He; rewrite He; split; reflexivity.
    + exfalso; apply (Hfree c Hc); split; assumption.
  - intros Hchanged.
    destruct (insert_contact_cases u v new_id now db) as [[x Hx]|[Hok Hfree]].
    + rewrite Hx in He; simpl in He; rewrite He in Hchanged.
      exfalso; apply Hchanged; reflexivity.
    + rewrite Hok in He; simpl in He; rewrite He.
      split; [exact Hfree|split; reflexivity].
  - intros Hfree Hid.
    rewrite (insert_contact_fresh u v new_id now db Hfree Hid) in He; simpl in He.
    rewrite He; split; reflexivity.
Qed.

(** C7 (as the code has it).  With a session and a non-blank text
    typed, [handleAddContact] checks, in this order, that the trimmed
    text has 8 characters, that the directory resolves it, that it does
    not resolve to the caller and that the resolved identity is not in
    the contact list the component holds.  Each failed check shows its
    own toast (the four differ from one another and from the toast of
    a failed insert), sends nothing further and leaves the database as
    it is.  The insert is requested exactly when all four pass.  It is
    then refused, under the toast of a failed insert and with the
    database left as it is, when storage already has the edge; it adds
    the edge when storage has neither the edge nor the id drawn for it;
    and the database changes only by that one edge.  The caller's own
    handle ends in "You can't add yourself as a contact." when it has 8
    characters and handles are unique, and in "UID must be exactly 8
    characters." when it has not, whatever the contact list and the
    other tables hold. *)
Theorem handleAddContact_four_checks
        (auth : Ui.Auth) (u new_id : UUID) (now : Z)
        (s : ContactsList.state) (db : Pg.database) :
  Ui.user auth = Some u ->
  Js.trim (ContactsList.searchUid s) <> EmptyString ->
  let h := Js.trim (ContactsList.searchUid s) in
  let found := fst (Pg.lookup_profile_by_uid (Some h) db) in
  let listed v := In v (map Ui.contact_user_id (ContactsList.contacts s)) in
  let stored v := exists c, In c (Pg.contacts db)
                            /\ Pg.ct_user_id c = u /\ Pg.ct_contact_user_id c = v in
  let e := ContactsList.handleAddContact auth new_id now s db in
  NoDup [ContactsList.invalid_uid; ContactsList.user_not_found;
         ContactsList.cannot_add_yourself; ContactsList.already_added;
         ContactsList.add_failed]
  /\ (String.length h <> 8%nat ->
      Ui.toasts e = [ContactsList.invalid_uid]
      /\ Ui.requests e = [] /\ Ui.db e = db)
  /\ (String.length h = 8%nat -> found = [] ->
      Ui.toasts e = [ContactsList.user_not_found]
      /\ Ui.requests e = [Ui.Rpc_lookup_profile_by_uid h] /\ Ui.db e = db)
  /\ (forall n rest,
        String.length h = 8%nat -> found = (u, n) :: rest ->
        Ui.toasts e = [ContactsList.cannot_add_yourself]
        /\ Ui.requests e = [Ui.Rpc_lookup_profile_by_uid h] /\ Ui.db e = db)
  /\ (forall v n rest,
        String.length h = 8%nat -> found = (v, n) :: rest -> v <> u -> listed v ->
        Ui.toasts e = [ContactsList.already_added]
        /\ Ui.requests e = [Ui.Rpc_lookup_profile_by_uid h] /\ Ui.db e = db)
  /\ (forall v n rest,
        String.length h = 8%nat -> found = (v, n) :: rest -> v <> u -> ~ listed v ->
        Ui.requests e = [Ui.Rpc_lookup_profile_by_uid h; Ui.Insert_contact u v]
        /\ (stored v ->
            Ui.toasts e = [ContactsList.add_failed] /\ Ui.db e = db)
        /\ (~ stored v ->
            (forall c, In c (Pg.contacts db) -> Pg.ct_id c <> new_id) ->
            Ui.toasts e = [ContactsList.contact_added n]
            /\ Ui.db e = Pg.mkDatabase (Pg.profiles db)
                           (Pg.contacts db ++ [Pg.mkContact new_id u v now])
                           (Pg.messages db)))
  /\ ((exists a b, In (Ui.Insert_contact a b) (Ui.requests e)) \/ Ui.db e <> db ->
      String.length h = 8%nat
      /\ exists v n rest, found = (v, n) :: rest /\ v <> u /\ ~ listed v)
  /\ (Ui.db e <> db ->
      exists v n rest,
        found = (v, n) :: rest /\ ~ stored v
        /\ Ui.toasts e = [ContactsList.contact_added n]
        /\ Ui.db e = Pg.mkDatabase (Pg.profiles db)
                       (Pg.contacts db ++ [Pg.mkContact new_id u v now])
                       (Pg.messages db))
  /\ (forall p,
        In p (Pg.profiles db) -> Pg.pr_user_id p = u -> Pg.pr_uid p = h ->
        NoDup (map Pg.pr_uid (Pg.profiles db)) ->
        (String.length h = 8%nat ->
         Ui.toasts e = [ContactsList.cannot_add_yourself]
         /\ Ui.requests e = [Ui.Rpc_lookup_profile_by_uid h] /\ Ui.db e = db)
        /\ (String.length h <> 8%nat ->
            Ui.toasts e = [ContactsList.invalid_uid]
            /\ Ui.requests e = [] /\ Ui.db e = db)).
Proof.
  intros Hu Hne h found listed stored e.
  assert (Hshort : String.length h <> 8%nat ->
                   Ui.toasts e = [ContactsList.invalid_uid]
                   /\ Ui.requests e = [] /\ Ui.db e = db).
  { intros Hlen; subst e.
    rewrite (handleAddContact_after_guards auth u) by assumption; cbv zeta.
    fold h; apply Nat.eqb_neq in Hlen; rewrite Hlen; repeat split. }
  assert (Hself : forall n rest,
             String.length h = 8%nat -> found = (u, n) :: rest ->
             Ui.toasts e = [ContactsList.cannot_add_yourself]
             /\ Ui.requests e = [Ui.Rpc_lookup_profile_by_uid h] /\ Ui.db e = db).
  { intros n rest Hlen Hfound; subst e.
    rewrite (handleAddContact_after_guards auth u) by assumption; cbv zeta.
    fold h; fold found; rewrite Hlen, Hfound, String.eqb_refl.
    repeat split. }
  assert (Hreached : (exists a b, In (Ui.Insert_contact a b) (Ui.requests e))
                     \/ Ui.db e <> db ->
                     String.length h = 8%nat
                     /\ exists v n rest, found = (v, n) :: rest /\ v <> u /\ ~ listed v).
  { subst e; rewrite (handleAddContact_after_guards auth u) by assumption; cbv zeta.
    fold h; fold found.
    destruct (Nat.eqb_spec (String.length h) 8) as [Hlen|Hlen]; simpl negb; cbv iota.
    2:{ simpl; intros [[a [b []]]|H]; congruence. }
    destruct found as [|[v n] rest] eqn:Hfound.
    { simpl; intros [[a [b [H|[]]]]|H]; congruence. }
    destruct (String.eqb_spec v u) as [Hv|Hv].
    { simpl; intros [[a [b [H|[]]]]|H]; congruence. }
    destruct (in_dec string_dec v (map Ui.contact_user_id (ContactsList.contacts s)))
      as [Hl|Hl].
    { destruct (find_contact_some v _ Hl) as [c ->].
      simpl; intros [[a [b [H|[]]]]|H]; congruence. }
    intros _; split; [exact Hlen|].
    exists v, n, rest; repeat split; assumption. }
  split; [exact toasts_of_checks_distinct|].
  split; [exact Hshort|].
  split.
  { intros Hlen Hfound; subst e.
    rewrite (handleAddContact_after_guards auth u) by assumption; cbv zeta.
    fold h; fold found; rewrite Hlen, Hfound; repeat split. }
  split; [exact Hself|].
  split.
  { intros v n rest Hlen Hfound Hv Hl; subst e.
    rewrite (handleAddContact_after_guards auth u) by assumption; cbv zeta.
    fold h; fold found; rewrite Hlen, Hfound.
    apply String.eqb_neq in Hv; rewrite Hv.
    destruct (find_contact_some v _ Hl) as [c ->]; repeat split. }
  split.
  { intros v n rest Hlen Hfound Hv Hl.
    destruct (handleAddContact_checks_passed auth u new_id now s db v n rest
                Hu Hlen Hfound Hv Hl) as [Hreq [Hdup [_ Hnew]]].
    split; [exact Hreq|]; split; [exact Hdup|].
    intros Hfree Hid; apply Hnew; [|exact Hid].
    intros c Hc Hedge; apply Hfree; exists c; tauto. }
  split; [exact Hreached|].
  split.
  { intros Hchanged.
    destruct (Hreached (or_intror Hchanged)) as [Hlen [v [n [rest [Hfound [Hv Hl]]]]]].
    destruct (handleAddContact_checks_passed auth u new_id now s db v n rest
                Hu Hlen Hfound Hv Hl) as [_ [_ [Hnew _]]].
    destruct (Hnew Hchanged) as [Hfree [Ht Hd]].
    exists v, n, rest; split; [exact Hfound|]; split; [|split; assumption].
    intros [c [Hc Hedge]]; exact (Hfree c Hc Hedge). }
  intros p Hp Hpu Hph Hnd; split; [|exact Hshort].
  intros Hlen.
  destruct (lookup_resolves h db p Hlen Hp Hph) as [q [_ [_ [Hrow Hq]]]].
  rewrite (Hq Hnd), Hpu in Hrow.
  apply (Hself (Pg.pr_name p) []); assumption.
Qed.

(** C7 (as stated) fails in two ways.  Storage has the edge from Alice
    to Bob while the contact list her component holds is empty: the
    four checks pass, the insert is requested, and its refusal is shown
    as "Failed to add contact.", which is none of the four reasons.
    And after [handleRegenerateUid] gave Alice the handle "i", typing
    her own handle ends in "UID must be exactly 8 characters.", not in
    the self-reference reason. *)
Lemma handleAddContact_fifth_reason_and_short_own_handle :
  let db := Pg.mkDatabase Example.people
              [Pg.mkContact "c1" Example.alice Example.bob 5000] [] in
  let e := ContactsList.handleAddContact Example.as_alice "c2" 6000
             (ContactsList.mkState [] "zz99yy88" true false "") db in
  let renamed := Ui.db (Settings.handleRegenerateUid Example.as_alice (2 ^ 52)%N 7000
                          Example.settings Example.fresh) in
  let own := ContactsList.handleAddContact Example.as_alice "c1" 8000
               (ContactsList.mkState [] "i" true false "") renamed in
  Ui.requests e = [Ui.Rpc_lookup_profile_by_uid "zz99yy88";
                   Ui.Insert_contact Example.alice Example.bob]
  /\ Ui.toasts e = [ContactsList.add_failed]
  /\ ~ In ContactsList.add_failed
          [ContactsList.invalid_uid; ContactsList.user_not_found;
           ContactsList.cannot_add_yourself; ContactsList.already_added]
  /\ Ui.db e = db
  /\ map (fun p => (Pg.pr_user_id p, Pg.pr_uid p)) (Pg.profiles renamed)
     = [(Example.alice, "i"); (Example.bob, "zz99yy88"); (Example.carol, "c0ffee00")]
  /\ Ui.toasts own = [ContactsList.invalid_uid]
  /\ Ui.toasts own <> [ContactsList.cannot_add_yourself].
Proof.
  vm_compute; repeat split; try discriminate.
  intros [H|[H|[H|[H|[]]]]]; discriminate.
Qed.

(** Alice types her own handle, then Bob's. *)
Lemma handleAddContact_four_checks_witness :
  let own := ContactsList.handleAddContact Example.as_alice "c1" 5000
               (Example.dialog Example.fresh " ab12cd34 ") Example.fresh in
  let other := ContactsList.handleAddContact Example.as_alice "c1" 5000
                 (Example.dialog Example.fresh "zz99yy88") Example.fresh in
  (Ui.toasts own = [ContactsList.cannot_add_yourself]
   /\ Ui.requests own = [Ui.Rpc_lookup_profile_by_uid "ab12cd34"]
   /\ Ui.db own = Example.fresh)
  /\ Ui.requests other = [Ui.Rpc_lookup_profile_by_uid "zz99yy88";
                          Ui.Insert_contact Example.alice Example.bob]
  /\ Ui.toasts other = [ContactsList.contact_added "Bob"]
  /\ Pg.contacts (Ui.db other) = [Pg.mkContact "c1" Example.alice Example.bob 5000].
Proof.
  intros own other.
  assert (Hown : Js.trim (ContactsList.searchUid
                            (Example.dialog Example.fresh " ab12cd34 ")) <> EmptyString)
    by (simpl; discriminate).
  assert (Hother : Js.trim (ContactsList.searchUid
                              (Example.dialog Example.fresh "zz99yy88")) <> EmptyString)
    by (simpl; discriminate).
  assert (Hnd : NoDup (map Pg.pr_uid (Pg.profiles Example.fresh))).
  { repeat (constructor; [simpl; intuition discriminate|]); constructor. }
  split.
  - apply (proj2 (proj2 (proj2 (proj2 (proj2 (proj2 (proj2 (proj2
             (handleAddContact_four_checks Example.as_alice Example.alice "c1" 5000
                (Example.dialog Example.fresh " ab12cd34 ") Example.fresh
                eq_refl Hown)))))))) Example.alice_profile).
    + left; reflexivity.
    + reflexivity.
    + reflexivity.
    + exact Hnd.
    + reflexivity.
  - destruct (proj1 (proj2 (proj2 (proj2 (proj2 (proj2
                (handleAddContact_four_checks Example.as_alice Example.alice "c1" 5000
                   (Example.dialog Example.fresh "zz99yy88") Example.fresh
                   eq_refl Hother))))))
                Example.bob "Bob" []) as [Hreq [_ Hnew]].
    + reflexivity.
    + reflexivity.
    + discriminate.
    + simpl; tauto.
    + split; [exact Hreq|].
      destruct Hnew as [Ht Hd].
      * intros [c [[] _]].
      * intros c [].
      * split; [exact Ht|exact (f_equal Pg.contacts Hd)].
Defined.





(** * Further properties *)

(** ** The message store *)

Lemma filter_keeps_keys_distinct {Row Key : Type}
  (key : Row -> Key) (keep : Row -> bool) (rows : list Row)
  (Hkeys : NoDup (map key rows)) :
  NoDup (map key (filter keep rows)).
Proof.
  induction rows as [|x rows IH]; simpl; [constructor|].
  simpl in Hkeys; inversion Hkeys as [|? ? Hx Hl]; subst.
  destruct (keep x); simpl; [|apply IH; exact Hl].
  constructor; [|apply IH; exact Hl].
  intros Hin; apply Hx.
  apply in_map_iff in Hin; destruct Hin as [y [Hy Hin]].
  apply filter_In in Hin; rewrite <- Hy; apply in_map; tauto.
Qed.

(** An insert either fails and leaves the database as it was, or has
    passed the trigger, the policy, the primary key and the foreign key
    and appends one row. *)
Lemma insert_message_cases auth new_id now sender receiver text reply db :
  (exists e, Pg.insert_message auth new_id now sender receiver text reply db
             = (Pg.failed e, db))
  \/ (Pg.insert_message auth new_id now sender receiver text reply db
      = (Pg.ok tt,
         Pg.mkDatabase (Pg.profiles db) (Pg.contacts db)
           (Pg.messages db
              ++ [Pg.mkMessage new_id sender receiver text reply false now now]))
      /\ Pg.validate_message_content text = None
      /\ Pg.auth_is auth sender = true
      /\ (forall m, In m (Pg.messages db) -> Pg.id m <> new_id)
      /\ (forall r, reply = Some r -> exists t, In t (Pg.messages db) /\ Pg.id t = r)).
Proof.
  unfold Pg.insert_message.
  destruct (Pg.validate_message_content text) as [e|]; [left; eexists; reflexivity|].
  destruct (Pg.auth_is auth sender); simpl negb; cbv iota;
    [|left; eexists; reflexivity].
  destruct (existsb (fun m => (Pg.id m =? new_id)%string) (Pg.messages db)) eqn:Hpk;
    [left; eexists; reflexivity|].
  assert (Hfresh : forall m, In m (Pg.messages db) -> Pg.id m <> new_id).
  { intros m Hm E.
    assert (existsb (fun m => (Pg.id m =? new_id)%string) (Pg.messages db) = true).
    { apply existsb_exists; exists m; split; [exact Hm|apply String.eqb_eq; exact E]. }
    congruence. }
  destruct reply as [r|].
  - destruct (existsb (fun m => (Pg.id m =? r)%string) (Pg.messages db)) eqn:Hfk;
      simpl negb; cbv iota; [|left; eexists; reflexivity].
    right; repeat split; try assumption.
    intros r' E; injection E as <-.
    apply existsb_exists in Hfk; destruct Hfk as [t [Ht Hid]].
    exists t; split; [exact Ht|apply String.eqb_eq; exact Hid].
  - right; repeat split; try assumption; discriminate.
Qed.

Lemma insert_message_well_formed auth new_id now sender receiver text reply db :
  messages_well_formed db ->
  messages_well_formed
    (snd (Pg.insert_message auth new_id now sender receiver text reply db)).
Proof.
  unfold messages_well_formed, content_valid, ids_unique, replies_resolve.
  intros [Hc [Hi Hr]].
  destruct (insert_message_cases auth new_id now sender receiver text reply db)
    as [[e ->]|[-> [Hv [_ [Hfresh Hfk]]]]]; [repeat split; assumption|].
  simpl; split; [|split].
  - apply Forall_app; split; [exact Hc|]; constructor; [exact Hv|constructor].
  - rewrite map_app; simpl.
    apply (Permutation_NoDup (l := new_id :: map Pg.id (Pg.messages db))).
    + apply Permutation_cons_append.
    + constructor; [|exact Hi].
      intros Hin; apply in_map_iff in Hin; destruct Hin as [m [Hid Hm]].
      exact (Hfresh m Hm Hid).
  - intros m r Hm Hre; apply in_app_or in Hm; destruct Hm as [Hm|[<-|[]]].
    + destruct (Hr m r Hm Hre) as [t [Ht Hid]].
      exists t; split; [apply in_or_app; left; exact Ht|exact Hid].
    + simpl in Hre; destruct (Hfk r Hre) as [t [Ht Hid]].
      exists t; split; [apply in_or_app; left; exact Ht|exact Hid].
Qed.

Lemma update_message_well_formed auth x text now db :
  messages_well_formed db ->
  messages_well_formed (snd (Pg.update_message auth x text now db)).
Proof.
  unfold messages_well_formed, content_valid, ids_unique, replies_resolve.
  intros [Hc [Hi Hr]]; unfold Pg.update_message.
  destruct (existsb (Pg.edits auth x) (Pg.messages db)); [|repeat split; assumption].
  destruct (Pg.validate_message_content text) as [e|] eqn:Hv;
    [repeat split; assumption|].
  simpl; split; [|split].
  - apply Forall_map; revert Hc; apply Forall_impl; intros m Hm.
    destruct (Pg.edits auth x m); [exact Hv|exact Hm].
  - rewrite map_map.
    erewrite map_ext; [exact Hi|].
    intros m; destruct (Pg.edits auth x m); reflexivity.
  - intros m r Hm Hre; apply in_map_iff in Hm; destruct Hm as [m0 [<- Hm0]].
    assert (Hre0 : Pg.reply_to_id m0 = Some r).
    { destruct (Pg.edits auth x m0); exact Hre. }
    destruct (Hr m0 r Hm0 Hre0) as [t [Ht Hid]].
    exists (if Pg.edits auth x t then Pg.set_content text now t else t); split.
    + apply in_map_iff; exists t; split; [reflexivity|exact Ht].
    + destruct (Pg.edits auth x t); exact Hid.
Qed.

Lemma set_null_same (x : UUID) (now : Z) (m : Pg.message) :
  same_message m (Pg.set_null x now m)
  /\ (Pg.reply_to_id (Pg.set_null x now m) = Pg.reply_to_id m
      \/ Pg.reply_to_id (Pg.set_null x now m) = None)
  /\ (forall r, Pg.reply_to_id (Pg.set_null x now m) = Some r ->
                Pg.reply_to_id m = Some r /\ r <> x).
Proof.
  unfold Pg.set_null, same_message.
  destruct (Pg.reply_to_id m) as [r|] eqn:E.
  - destruct (String.eqb_spec r x) as [Hx|Hx]; simpl.
    + repeat split; try tauto; discriminate.
    + rewrite E; repeat split; try tauto; congruence.
  - rewrite E; repeat split; try tauto; discriminate.
Qed.

Lemma delete_message_well_formed auth x now db :
  messages_well_formed db ->
  messages_well_formed (snd (Pg.delete_message auth x now db)).
Proof.
  unfold messages_well_formed, content_valid, ids_unique, replies_resolve.
  intros [Hc [Hi Hr]]; unfold Pg.delete_message.
  destruct (existsb (Pg.deletes auth x) (Pg.messages db)); [|repeat split; assumption].
  destruct (Pg.set_null_error x _); [repeat split; assumption|].
  simpl; split; [|split].
  - apply Forall_map, Forall_forall; intros m Hm.
    apply filter_In in Hm; destruct Hm as [Hm _].
    destruct (set_null_same x now m) as [[_ [_ [_ [-> _]]]] _].
    rewrite Forall_forall in Hc; apply Hc; exact Hm.
  - rewrite map_map.
    erewrite map_ext; [apply filter_keeps_keys_distinct; exact Hi|].
    intros m; apply (set_null_same x now m).
  - intros m r Hm Hre; apply in_map_iff in Hm; destruct Hm as [m0 [<- Hm0]].
    apply filter_In in Hm0; destruct Hm0 as [Hm0 _].
    destruct (set_null_same x now m0) as [_ [_ Hkept]].
    destruct (Hkept r Hre) as [Hre0 Hrx].
    destruct (Hr m0 r Hm0 Hre0) as [t [Ht Hid]].
    exists (Pg.set_null x now t); split.
    + apply in_map, filter_In; split; [exact Ht|].
      unfold Pg.deletes; rewrite Hid.
      apply String.eqb_neq in Hrx; rewrite Hrx; reflexivity.
    + rewrite <- Hid; apply (set_null_same x now t).
Qed.

Lemma serve_well_formed u new_id db_now r db :
  messages_well_formed db ->
  messages_well_formed (snd (ChatArea.serve u new_id db_now r db)).
Proof.
  intros H; destruct r; simpl; try exact H.
  apply insert_message_well_formed; exact H.
Qed.

Lemma step_well_formed auth contact e w :
  messages_well_formed (ChatArea.store w) ->
  messages_well_formed (ChatArea.store (ChatArea.step auth contact e w)).
Proof.
  intros H; destruct e as [text|now|new_id db_now]; simpl.
  - exact H.
  - destruct (ChatArea.send_request auth contact (ChatArea.ui w) now); exact H.
  - destruct (Ui.user auth) as [u|]; [|exact H].
    destruct (ChatArea.in_flight w) as [|[now r] rest]; [exact H|].
    pose proof (serve_well_formed u new_id db_now r _ H) as H'.
    destruct (ChatArea.serve u new_id db_now r (ChatArea.store w)) as [resp db'].
    destruct (ChatArea.send_settled now (Pg.error resp) (ChatArea.ui w)); exact H'.
Qed.

(** X1.  Whatever the chat view does to a well-formed message store
    leaves it well formed: after [handleSendMessage],
    [handleEditMessage], [handleDeleteMessage], and after any sequence
    of typing, presses and answers with overlapping sends, every stored
    content passes the validation trigger, ids are unique and every
    reply reference names a stored message. *)
Theorem chat_handlers_keep_messages_well_formed
        (auth : Ui.Auth) (contact : option Ui.Contact) (db : Pg.database) :
  messages_well_formed db ->
  (forall now new_id db_now s,
      messages_well_formed
        (Ui.db (ChatArea.handleSendMessage auth contact now new_id db_now s db)))
  /\ (forall db_now s,
        messages_well_formed (Ui.db (ChatArea.handleEditMessage auth db_now s db)))
  /\ (forall x db_now s,
        messages_well_formed (Ui.db (ChatArea.handleDeleteMessage auth x db_now s db)))
  /\ (forall es ui in_flight shown,
        messages_well_formed
          (ChatArea.store
             (ChatArea.run auth contact es
                           (ChatArea.mkSession ui in_flight db shown)))).
Proof.
  intros H; split; [|split; [|split]].
  - intros now new_id db_now s; unfold ChatArea.handleSendMessage.
    destruct (Ui.user auth) as [u|]; [|exact H].
    destruct (ChatArea.send_request auth contact s now) as [r|]; [|exact H].
    pose proof (serve_well_formed u new_id db_now r _ H) as H'.
    destruct (ChatArea.serve u new_id db_now r db) as [resp db'].
    destruct (ChatArea.send_settled now (Pg.error resp) s); exact H'.
  - intros db_now s; unfold ChatArea.handleEditMessage.
    destruct (ChatArea.editingMessage s) as [m|]; [|exact H].
    destruct (negb (Js.truthy (Js.trim (ChatArea.editContent s)))); [exact H|].
    pose proof (update_message_well_formed (Ui.user auth) (Pg.id (ChatArea.row m))
                  (Js.trim (ChatArea.editContent s)) db_now db H) as H'.
    destruct (Pg.update_message _ _ _ _ _) as [resp db'].
    destruct (Pg.error resp); exact H'.
  - intros x db_now s; unfold ChatArea.handleDeleteMessage.
    pose proof (delete_message_well_formed (Ui.user auth) x db_now db H) as H'.
    destruct (Pg.delete_message _ _ _ _) as [resp db'].
    destruct (Pg.error resp); exact H'.
  - intros es; unfold ChatArea.run.
    assert (G : forall w, messages_well_formed (ChatArea.store w) ->
                          messages_well_formed
                            (ChatArea.store
                               (fold_left (fun w e => ChatArea.step auth contact e w) es w))).
    { induction es as [|e es IH]; intros w Hw; simpl; [exact Hw|].
      apply IH, step_well_formed; exact Hw. }
    intros ui in_flight shown; apply G; exact H.
Qed.

(** Overlapping sends, an edit and a deletion over the store of
    Alice's and Bob's talk. *)
Lemma chat_handlers_keep_messages_well_formed_witness :
  messages_well_formed Example.talk
  /\ messages_well_formed
       (Ui.db (ChatArea.handleDeleteMessage Example.as_alice "m1" 3000
                                            ChatArea.initial Example.talk))
  /\ messages_well_formed
       (ChatArea.store
          (ChatArea.run Example.as_alice (Some Example.bob_contact)
             [ChatArea.Type_message "again";
              ChatArea.Press_send 1000000; ChatArea.Press_send 1000050;
              ChatArea.Insert_answers "m3" 1000080;
              ChatArea.Insert_answers "m3" 1000130]
             (ChatArea.mkSession ChatArea.initial [] Example.talk []))).
Proof.
  split; [exact talk_well_formed|].
  destruct (chat_handlers_keep_messages_well_formed
              Example.as_alice (Some Example.bob_contact) Example.talk
              talk_well_formed) as [_ [_ [Hdel Hrun]]].
  split; [apply Hdel|apply Hrun].
Defined.

(** ** Sending *)

Lemma handleSendMessage_cases auth contact now new_id db_now s db :
  let e := ChatArea.handleSendMessage auth contact now new_id db_now s db in
  (ChatArea.accepted e = false
   /\ Ui.st e = s /\ Ui.db e = db
   /\ (Ui.toasts e = [] /\ Ui.requests e = []
       \/ Ui.toasts e = [ChatArea.send_failed]))
  \/ (ChatArea.accepted e = true
      /\ exists u c,
          Ui.user auth = Some u /\ contact = Some c
          /\ Js.trim (ChatArea.newMessage s) <> EmptyString
          /\ Pg.validate_message_content (Js.trim (ChatArea.newMessage s)) = None
          /\ (ChatArea.MESSAGE_COOLDOWN <= now - ChatArea.lastMessageTime s)%Z
          /\ Ui.st e = ChatArea.mkState (ChatArea.messages s) "" None
                                        (ChatArea.editingMessage s)
                                        (ChatArea.editContent s) now
          /\ Ui.toasts e = []
          /\ Pg.messages (Ui.db e)
             = Pg.messages db
               ++ [Pg.mkMessage new_id u (Ui.contact_user_id c)
                     (Js.trim (ChatArea.newMessage s))
                     (option_map (fun m => Pg.id (ChatArea.row m)) (ChatArea.replyTo s))
                     false db_now db_now]
          /\ Pg.profiles (Ui.db e) = Pg.profiles db
          /\ Pg.contacts (Ui.db e) = Pg.contacts db).
Proof.
  unfold ChatArea.handleSendMessage, ChatArea.send_request.
  destruct (Ui.user auth) as [u|]; [|left; simpl; tauto].
  destruct contact as [c|]; [|left; simpl; tauto].
  destruct (Js.truthy (Js.trim (ChatArea.newMessage s))) eqn:Ht; simpl negb; cbv iota;
    [|left; simpl; tauto].
  destruct (Z.ltb_spec (now - ChatArea.lastMessageTime s) ChatArea.MESSAGE_COOLDOWN)
    as [Hc|Hc]; [left; simpl; tauto|].
  unfold ChatArea.serve.
  destruct (insert_message_cases (Some u) new_id db_now u (Ui.contact_user_id c)
              (Js.trim (ChatArea.newMessage s))
              (option_map (fun m => Pg.id (ChatArea.row m)) (ChatArea.replyTo s)) db)
    as [[x ->]|[-> [Hv _]]]; simpl.
  - left; tauto.
  - right; split; [reflexivity|].
    exists u, c; repeat split; try assumption.
    apply truthy_iff; exact Ht.
Qed.

(** X2.  A send that is not accepted, because the text is blank, the
    cool-down has not passed, there is no session or contact, or
    storage refuses the insert, changes neither the database nor the
    component state: the draft, the reply target and the cool-down
    clock stay, and the only trace is the "Failed to send message."
    toast when an insert was refused.  A text that is longer than
    10000 characters after trimming is never accepted. *)
Theorem handleSendMessage_unaccepted_changes_nothing
        (auth : Ui.Auth) (contact : option Ui.Contact) (now : Z) (new_id : UUID)
        (db_now : Z) (s : ChatArea.state) (db : Pg.database) :
  let e := ChatArea.handleSendMessage auth contact now new_id db_now s db in
  (ChatArea.accepted e = false ->
   Ui.st e = s /\ Ui.db e = db
   /\ (Ui.toasts e = [] /\ Ui.requests e = []
       \/ Ui.toasts e = [ChatArea.send_failed]))
  /\ ((10000 < Z.of_nat (String.length (Js.trim (ChatArea.newMessage s))))%Z ->
      ChatArea.accepted e = false)
  /\ (Js.trim (ChatArea.newMessage s) = EmptyString
      \/ (now - ChatArea.lastMessageTime s < ChatArea.MESSAGE_COOLDOWN)%Z ->
      e = Ui.nothing s db).
Proof.
  intros e; split; [|split].
  - intros Hacc.
    destruct (handleSendMessage_cases auth contact now new_id db_now s db)
      as [[_ H]|[H _]]; fold e in H; [exact H|congruence].
  - intros Hlong.
    destruct (handleSendMessage_cases auth contact now new_id db_now s db)
      as [[H _]|[_ [u [c [_ [_ [_ [Hv _]]]]]]]]; [exact H|].
    exfalso; unfold Pg.validate_message_content in Hv.
    destruct (String.length (Js.trim_with Pg.is_space (Js.trim (ChatArea.newMessage s)))
              =? 0)%nat; [discriminate|].
    apply Z.ltb_lt in Hlong; rewrite Hlong in Hv; discriminate.
  - subst e; unfold ChatArea.handleSendMessage, ChatArea.send_request.
    intros [Hb|Hc].
    + rewrite Hb; destruct (Ui.user auth); [destruct contact|]; reflexivity.
    + apply Z.ltb_lt in Hc; rewrite Hc.
      destruct (Ui.user auth); [destruct contact|]; try reflexivity.
      destruct (negb (Js.truthy (Js.trim (ChatArea.newMessage s)))); reflexivity.
Qed.

(** An over-long draft and a draft sent too early. *)
Lemma handleSendMessage_unaccepted_changes_nothing_witness :
  let long := ChatArea.handleSendMessage Example.as_alice (Some Example.bob_contact)
                1000000 "m3" 1000010 (Example.drafting Example.long_text 0)
                Example.talk in
  let early := ChatArea.handleSendMessage Example.as_alice (Some Example.bob_contact)
                 1000400 "m3" 1000410 (Example.drafting "too soon" 1000000)
                 Example.talk in
  (Ui.toasts long = [ChatArea.send_failed]
   /\ Ui.st long = Example.drafting Example.long_text 0
   /\ Ui.db long = Example.talk)
  /\ early = Ui.nothing (Example.drafting "too soon" 1000000) Example.talk.
Proof.
  intros long early.
  pose proof (handleSendMessage_unaccepted_changes_nothing
                Example.as_alice (Some Example.bob_contact) 1000000 "m3" 1000010
                (Example.drafting Example.long_text 0) Example.talk) as [Hun [Hlong _]].
  pose proof (handleSendMessage_unaccepted_changes_nothing
                Example.as_alice (Some Example.bob_contact) 1000400 "m3" 1000410
                (Example.drafting "too soon" 1000000) Example.talk) as [_ [_ Hearly]].
  split.
  - assert (Hacc : ChatArea.accepted long = false).
    { apply Hlong; vm_compute; reflexivity. }
    destruct (Hun Hacc) as [Hs [Hd _]].
    split; [vm_compute; reflexivity|]; split; [exact Hs|exact Hd].
  - apply Hearly; right; reflexivity.
Defined.

Lemma existsb_false_when {A : Type} (p : A -> bool) (l : list A) :
  (forall x, In x l -> p x = false) -> existsb p l = false.
Proof.
  intros H; destruct (existsb p l) eqn:E; [|reflexivity].
  apply existsb_exists in E; destruct E as [x [Hx Hp]].
  rewrite (H x Hx) in Hp; discriminate.
Qed.

Lemma fetchMessages_shows (pick : Pg.tie_order)
      (auth : Ui.Auth) (u : UUID) (c : Ui.Contact)
      (db : Pg.database) (s : ChatArea.state) (m : Pg.message) :
  Ui.user auth = Some u ->
  (In m (map ChatArea.row
             (ChatArea.messages (ChatArea.fetchMessages pick auth (Some c) db s)))
   <-> In m (Pg.messages db) /\ Pg.in_thread u (Ui.contact_user_id c) m = true).
Proof.
  intros Hu; rewrite (fetchMessages_rows pick auth u) by exact Hu.
  split.
  - intros H; apply (Permutation_in _ (order_by_created_at_perm _ _)) in H.
    apply filter_In in H; rewrite in_thread_visible in H; exact H.
  - intros H; apply in_order_by_created_at, filter_In.
    rewrite in_thread_visible; exact H.
Qed.

(** X3.  A send of a non-blank text of at most 10000 characters, made
    once the cool-down has passed, with an id storage has not used and
    a reply target that is stored, appends exactly one row: the trimmed
    text from the caller to the open contact, not edited, stamped by
    storage.  The draft and the reply target are cleared, the cool-down
    starts at the time of the call, and the next fetch of the thread
    lists the row for the sender and for the receiver alike, however
    the query orders rows created at the same instant. *)
Theorem accepted_send_is_stored_and_shown
        (auth peer_auth : Ui.Auth) (u : UUID) (c c' : Ui.Contact)
        (now : Z) (new_id : UUID) (db_now : Z)
        (s s' : ChatArea.state) (db : Pg.database)
        (pick pick' : Pg.tie_order) :
  Ui.user auth = Some u ->
  Ui.user peer_auth = Some (Ui.contact_user_id c) ->
  Ui.contact_user_id c' = u ->
  Js.trim (ChatArea.newMessage s) <> EmptyString ->
  (Z.of_nat (String.length (Js.trim (ChatArea.newMessage s))) <= 10000)%Z ->
  (ChatArea.MESSAGE_COOLDOWN <= now - ChatArea.lastMessageTime s)%Z ->
  (forall m, In m (Pg.messages db) -> Pg.id m <> new_id) ->
  (forall m, ChatArea.replyTo s = Some m ->
             exists t, In t (Pg.messages db) /\ Pg.id t = Pg.id (ChatArea.row m)) ->
  let e := ChatArea.handleSendMessage auth (Some c) now new_id db_now s db in
  let sent := Pg.mkMessage new_id u (Ui.contact_user_id c)
                (Js.trim (ChatArea.newMessage s))
                (option_map (fun m => Pg.id (ChatArea.row m)) (ChatArea.replyTo s))
                false db_now db_now in
  Ui.toasts e = []
  /\ Pg.messages (Ui.db e) = Pg.messages db ++ [sent]
  /\ ChatArea.newMessage (Ui.st e) = EmptyString
  /\ ChatArea.replyTo (Ui.st e) = None
  /\ ChatArea.lastMessageTime (Ui.st e) = now
  /\ In sent (map ChatArea.row
                  (ChatArea.messages
                     (ChatArea.fetchMessages pick auth (Some c) (Ui.db e) (Ui.st e))))
  /\ In sent (map ChatArea.row
                  (ChatArea.messages
                     (ChatArea.fetchMessages pick' peer_auth (Some c') (Ui.db e) s'))).
Proof.
  intros Hu Hpeer Hc' Hne Hlen Hcool Hfresh Hreply e sent.
  assert (He : e = Ui.mkEffect
                     (ChatArea.mkState (ChatArea.messages s) "" None
                                       (ChatArea.editingMessage s)
                                       (ChatArea.editContent s) now)
                     (Pg.mkDatabase (Pg.profiles db) (Pg.contacts db)
                                    (Pg.messages db ++ [sent]))
                     []
                     [Ui.Insert_message u (Ui.contact_user_id c)
                        (Js.trim (ChatArea.newMessage s))
                        (option_map (fun m => Pg.id (ChatArea.row m))
                                    (ChatArea.replyTo s))]).
  { subst e; unfold ChatArea.handleSendMessage, ChatArea.send_request; rewrite Hu.
    pose proof Hne as Ht; apply truthy_iff in Ht; rewrite Ht; simpl negb; cbv iota.
    destruct (Z.ltb_spec (now - ChatArea.lastMessageTime s) ChatArea.MESSAGE_COOLDOWN);
      [lia|].
    unfold ChatArea.serve, Pg.insert_message.
    rewrite (validate_trimmed_text _ Hne Hlen).
    unfold Pg.auth_is; rewrite String.eqb_refl; simpl negb; cbv iota.
    rewrite existsb_false_when
      by (intros m Hm; apply String.eqb_neq; apply Hfresh; exact Hm).
    destruct (ChatArea.replyTo s) as [m|] eqn:Hr; simpl option_map; cbv iota.
    - destruct (Hreply m eq_refl) as [t [Ht' Hid]].
      assert (Hex : existsb (fun m0 => (Pg.id m0 =? Pg.id (ChatArea.row m))%string)
                            (Pg.messages db) = true).
      { apply existsb_exists; exists t; split; [exact Ht'|].
        apply String.eqb_eq; exact Hid. }
      rewrite Hex; reflexivity.
    - reflexivity. }
  rewrite He; simpl.
  repeat (split; [reflexivity|]).
  assert (Hin : In sent (Pg.messages db ++ [sent]))
    by (apply in_or_app; right; left; reflexivity).
  split.
  - apply (fetchMessages_shows pick auth u); [exact Hu|]; split; [exact Hin|].
    unfold Pg.in_thread; simpl; rewrite !String.eqb_refl; reflexivity.
  - apply (fetchMessages_shows pick' peer_auth (Ui.contact_user_id c)); [exact Hpeer|].
    split; [exact Hin|].
    unfold Pg.in_thread; simpl; rewrite Hc', !String.eqb_refl; apply orb_true_r.
Qed.

(** Alice answers Bob's answer. *)
Lemma accepted_send_is_stored_and_shown_witness :
  let s := ChatArea.mkState [] "  thanks " (Some (ChatArea.mkMessage Example.answer None))
                            None "" 0 in
  let e := ChatArea.handleSendMessage Example.as_alice (Some Example.bob_contact)
                                      1000000 "m3" 1000020 s Example.talk in
  let sent := Pg.mkMessage "m3" Example.alice Example.bob "thanks" (Some "m2")
                           false 1000020 1000020 in
  Pg.messages (Ui.db e) = [Example.hello; Example.answer; sent]
  /\ ChatArea.lastMessageTime (Ui.st e) = 1000000%Z
  /\ In sent (map ChatArea.row
                  (ChatArea.messages
                     (ChatArea.fetchMessages Example.m1_first Example.as_bob
                                             (Some Example.alice_contact)
                                             (Ui.db e) ChatArea.initial))).
Proof.
  intros s e sent.
  destruct (accepted_send_is_stored_and_shown
              Example.as_alice Example.as_bob Example.alice
              Example.bob_contact Example.alice_contact
              1000000 "m3" 1000020 s ChatArea.initial Example.talk
              Example.as_listed Example.m1_first
              eq_refl eq_refl eq_refl)
    as [_ [Hdb [_ [_ [Hlast [_ Hpeer]]]]]].
  - simpl; discriminate.
  - apply Z.leb_le; reflexivity.
  - apply Z.leb_le; reflexivity.
  - intros m [<-|[<-|[]]]; simpl; discriminate.
  - intros m Hm; injection Hm as <-.
    exists Example.answer; split; [right; left|]; reflexivity.
  - split; [exact Hdb|]; split; [exact Hlast|exact Hpeer].
Defined.

Lemma last_of_nonempty (z : Z) (l : list Z) (a d d' : Z) :
  last (z :: l) d = last (a :: z :: l) d'.
Proof.
  revert z a; induction l as [|y l IH]; intros z a; [reflexivity|].
  change (last (y :: l) d = last (z :: y :: l) d'); apply IH.
Qed.

Lemma spaced_cons (gap a : Z) (l : list Z) :
  spaced gap l ->
  (forall b, hd_error l = Some b -> (gap <= b - a)%Z) ->
  spaced gap (a :: l).
Proof.
  destruct l as [|b l]; simpl; [tauto|].
  intros H Hb; split; [apply Hb; reflexivity|exact H].
Qed.

(** X4.  In a session whose sends never overlap, the calls that are
    accepted lie at least 500 ms apart by [Date.now()], the first of
    them at least 500 ms after the last accepted send before, and the
    store gains exactly one row for each of them and none for the
    others. *)
Theorem serial_sends_are_spaced
        (auth : Ui.Auth) (contact : option Ui.Contact) (ps : list ChatArea.press) :
  forall (s : ChatArea.state) (db : Pg.database),
    let '(s', db', times) := ChatArea.presses auth contact ps s db in
    spaced ChatArea.MESSAGE_COOLDOWN times
    /\ (forall first, hd_error times = Some first ->
                      (ChatArea.MESSAGE_COOLDOWN
                       <= first - ChatArea.lastMessageTime s)%Z)
    /\ ChatArea.lastMessageTime s' = last times (ChatArea.lastMessageTime s)
    /\ length (Pg.messages db') = (length (Pg.messages db) + length times)%nat.
Proof.
  induction ps as [|p ps IH]; intros s db; simpl.
  - repeat split; [discriminate|lia].
  - set (e := ChatArea.handleSendMessage auth contact (ChatArea.pressed_at p)
                (ChatArea.fresh_id p) (ChatArea.answered_at p)
                (ChatArea.type_message (ChatArea.typed p) s) db).
    specialize (IH (Ui.st e) (Ui.db e)).
    destruct (ChatArea.presses auth contact ps (Ui.st e) (Ui.db e)) as [[s' db'] times].
    destruct IH as [Hsp [Hfirst [Hlast Hlen]]].
    destruct (handleSendMessage_cases auth contact (ChatArea.pressed_at p)
                (ChatArea.fresh_id p) (ChatArea.answered_at p)
                (ChatArea.type_message (ChatArea.typed p) s) db)
      as [[Hacc [Hs [Hd _]]]|[Hacc [u [c [_ [_ [_ [_ [Hcool [Hs [_ [Hm _]]]]]]]]]]]];
      fold e in Hacc, Hs; rewrite Hacc.
    + fold e in Hd; rewrite Hs in Hfirst, Hlast; rewrite Hd in Hlen.
      repeat split; assumption.
    + fold e in Hm; rewrite Hs in Hfirst, Hlast; simpl in Hfirst, Hlast, Hcool.
      rewrite Hm, length_app in Hlen; simpl in Hlen.
      split; [apply spaced_cons; assumption|].
      split; [intros first H; injection H as <-; exact Hcool|].
      split; [|simpl; lia].
      rewrite Hlast; destruct times as [|z times]; [reflexivity|].
      apply last_of_nonempty.
Qed.

(** Of three sends 300 ms apart the middle one is dropped. *)
Lemma serial_sends_are_spaced_witness :
  snd (ChatArea.presses Example.as_alice (Some Example.bob_contact)
                        Example.three_presses ChatArea.initial Example.talk)
  = [1000000; 1000600]%Z
  /\ let '(s', db', times) :=
       ChatArea.presses Example.as_alice (Some Example.bob_contact)
                        Example.three_presses ChatArea.initial Example.talk in
     spaced ChatArea.MESSAGE_COOLDOWN times
     /\ (forall first, hd_error times = Some first ->
                       (ChatArea.MESSAGE_COOLDOWN
                        <= first - ChatArea.lastMessageTime ChatArea.initial)%Z)
     /\ ChatArea.lastMessageTime s'
        = last times (ChatArea.lastMessageTime ChatArea.initial)
     /\ length (Pg.messages db')
        = (length (Pg.messages Example.talk) + length times)%nat.
Proof.
  split; [reflexivity|].
  exact (serial_sends_are_spaced Example.as_alice (Some Example.bob_contact)
           Example.three_presses ChatArea.initial Example.talk).
Defined.

(** ** Editing and deleting *)

Lemma filter_map_same {A : Type} (p : A -> bool) (g : A -> A) (l : list A) :
  (forall x, p (g x) = p x) -> filter p (map g l) = map g (filter p l).
Proof.
  intros H; induction l as [|x l IH]; simpl; [reflexivity|].
  rewrite H; destruct (p x); simpl; rewrite IH; reflexivity.
Qed.

Lemma precedes_in {A : Type} (x y : A) (l : list A) :
  precedes x y l -> In x l /\ In y l.
Proof.
  intros [l1 [l2 [l3 ->]]]; split; apply in_or_app; right.
  - left; reflexivity.
  - right; apply in_or_app; right; left; reflexivity.
Qed.

(** The ids and creation times of an ascending list of rows come in
    ascending order of time. *)
Lemma ascending_keys (l : list Pg.message) :
  ascending l ->
  StronglySorted (fun a b : UUID * Z => (snd a <= snd b)%Z)
                 (map (fun m => (Pg.id m, Pg.created_at m)) l).
Proof.
  unfold ascending; intros H.
  induction H as [|x l Hl IH Hx]; simpl; constructor; [exact IH|].
  apply Forall_map; exact Hx.
Qed.

(** What an edit does to the table, whether it succeeds or not. *)
Lemma handleEditMessage_rows auth db_now s db :
  exists g,
    Pg.messages (Ui.db (ChatArea.handleEditMessage auth db_now s db))
    = map g (Pg.messages db)
    /\ forall m, Pg.id (g m) = Pg.id m /\ Pg.sender_id (g m) = Pg.sender_id m
                 /\ Pg.receiver_id (g m) = Pg.receiver_id m
                 /\ Pg.created_at (g m) = Pg.created_at m
                 /\ Pg.reply_to_id (g m) = Pg.reply_to_id m
                 /\ (Pg.auth_is (Ui.user auth) (Pg.sender_id m) = false -> g m = m).
Proof.
  assert (Hid : exists g : Pg.message -> Pg.message,
             Pg.messages db = map g (Pg.messages db)
             /\ forall m, Pg.id (g m) = Pg.id m /\ Pg.sender_id (g m) = Pg.sender_id m
                          /\ Pg.receiver_id (g m) = Pg.receiver_id m
                          /\ Pg.created_at (g m) = Pg.created_at m
                          /\ Pg.reply_to_id (g m) = Pg.reply_to_id m
                          /\ (Pg.auth_is (Ui.user auth) (Pg.sender_id m) = false -> g m = m)).
  { exists (fun m => m); split; [symmetry; apply map_id|]; intros m; repeat split. }
  unfold ChatArea.handleEditMessage.
  destruct (ChatArea.editingMessage s) as [em|]; [|exact Hid].
  destruct (negb (Js.truthy (Js.trim (ChatArea.editContent s)))); [exact Hid|].
  unfold Pg.update_message.
  destruct (existsb _ (Pg.messages db)); [|exact Hid].
  destruct (Pg.validate_message_content _); [exact Hid|].
  simpl.
  exists (fun m => if Pg.edits (Ui.user auth) (Pg.id (ChatArea.row em)) m
                   then Pg.set_content (Js.trim (ChatArea.editContent s)) db_now m
                   else m).
  split; [reflexivity|].
  intros m; unfold Pg.edits.
  destruct (Pg.id m =? Pg.id (ChatArea.row em))%string; simpl; [|repeat split].
  destruct (Pg.auth_is (Ui.user auth) (Pg.sender_id m)); simpl; repeat split.
  discriminate.
Qed.

(** X5.  An edit, accepted or refused, changes neither which messages
    a thread shows nor their creation times, and it never reorders
    messages created at different instants: whoever fetches the thread
    after [handleEditMessage] finds the same ids with the same creation
    times, any two of different creation times in the order they had
    before, and all of them in the order they had before when no two
    messages of the thread were created at the same instant.  This
    holds whatever order the two executions of the query give to rows
    created at the same instant. *)
Theorem edit_keeps_thread_order
        (editor viewer : Ui.Auth) (contact : option Ui.Contact) (db_now : Z)
        (s_editor s_viewer : ChatArea.state) (db : Pg.database)
        (before after : Pg.tie_order) :
  let db' := Ui.db (ChatArea.handleEditMessage editor db_now s_editor db) in
  let key (m : ChatArea.Message) :=
    (Pg.id (ChatArea.row m), Pg.created_at (ChatArea.row m)) in
  let seen_before :=
    map key (ChatArea.messages (ChatArea.fetchMessages before viewer contact db s_viewer)) in
  let seen_after :=
    map key (ChatArea.messages (ChatArea.fetchMessages after viewer contact db' s_viewer)) in
  Permutation seen_before seen_after
  /\ (forall k1 k2, precedes k1 k2 seen_before -> (snd k1 < snd k2)%Z ->
                    precedes k1 k2 seen_after)
  /\ (NoDup (map snd seen_before) -> seen_after = seen_before).
Proof.
  intros db' key seen_before seen_after.
  assert (Hsame : seen_after = seen_before ->
                  Permutation seen_before seen_after
                  /\ (forall k1 k2, precedes k1 k2 seen_before -> (snd k1 < snd k2)%Z ->
                                    precedes k1 k2 seen_after)
                  /\ (NoDup (map snd seen_before) -> seen_after = seen_before)).
  { intros ->; split; [reflexivity|split; auto]. }
  destruct (Ui.user viewer) as [v|] eqn:Hv;
    [|apply Hsame; subst seen_before seen_after;
      unfold ChatArea.fetchMessages; rewrite Hv; reflexivity].
  destruct contact as [c|];
    [|apply Hsame; subst seen_before seen_after;
      unfold ChatArea.fetchMessages; rewrite Hv; reflexivity].
  clear Hsame.
  set (in_view := fun m => Pg.can_view_message (Some v) m
                           && Pg.in_thread v (Ui.contact_user_id c) m).
  set (key' := fun m : Pg.message => (Pg.id m, Pg.created_at m)).
  destruct (handleEditMessage_rows editor db_now s_editor db) as [g [Hrows Hg]].
  fold db' in Hrows.
  assert (Eb : seen_before
               = map key' (Pg.order_by_created_at before
                             (filter in_view (Pg.messages db)))).
  { subst seen_before key key' in_view.
    rewrite <- (fetchMessages_rows before viewer v c db s_viewer Hv), map_map.
    reflexivity. }
  assert (Ea : seen_after
               = map key' (Pg.order_by_created_at after
                             (map g (filter in_view (Pg.messages db))))).
  { subst seen_after key key' in_view.
    rewrite <- filter_map_same, <- Hrows.
    - rewrite <- (fetchMessages_rows after viewer v c db' s_viewer Hv), map_map.
      reflexivity.
    - intros x; unfold Pg.can_view_message, Pg.in_thread.
      destruct (Hg x) as [_ [-> [-> _]]]; reflexivity. }
  assert (Hperm : Permutation seen_before seen_after).
  { rewrite Ea, Eb, !order_by_created_at_perm, map_map.
    erewrite (map_ext (fun x => key' (g x)) key'); [reflexivity|].
    intros m; unfold key'; destruct (Hg m) as [-> [_ [_ [-> _]]]]; reflexivity. }
  assert (Hsb : StronglySorted (fun a b : UUID * Z => (snd a <= snd b)%Z) seen_before).
  { rewrite Eb; apply ascending_keys, order_by_created_at_ascending. }
  assert (Hsa : StronglySorted (fun a b : UUID * Z => (snd a <= snd b)%Z) seen_after).
  { rewrite Ea; apply ascending_keys, order_by_created_at_ascending. }
  split; [exact Hperm|]; split.
  - intros k1 k2 Hp Hlt; apply precedes_in in Hp; destruct Hp as [H1 H2].
    apply (earlier_precedes snd); try assumption;
      apply (Permutation_in _ Hperm); assumption.
  - intros Hnd; symmetry.
    apply (one_arrangement_without_ties snd); assumption.
Qed.

(** Alice edits her "hello"; Bob's thread has the two messages in the
    order it had, whichever way the query treats ties. *)
Lemma edit_keeps_thread_order_witness :
  let db' := Ui.db (ChatArea.handleEditMessage Example.as_alice 3000
                      (Example.editing "hello!") Example.talk) in
  let key (m : ChatArea.Message) :=
    (Pg.id (ChatArea.row m), Pg.created_at (ChatArea.row m)) in
  let seen_before :=
    map key (ChatArea.messages
               (ChatArea.fetchMessages Example.m1_first Example.as_bob
                  (Some Example.alice_contact) Example.talk ChatArea.initial)) in
  let seen_after :=
    map key (ChatArea.messages
               (ChatArea.fetchMessages Example.as_listed Example.as_bob
                  (Some Example.alice_contact) db' ChatArea.initial)) in
  map Pg.content (Pg.messages db') = ["hello!"; "hello yourself"]
  /\ seen_before = [("m1", 1000%Z); ("m2", 2000%Z)]
  /\ seen_after = seen_before.
Proof.
  intros db' key seen_before seen_after.
  split; [reflexivity|]; split; [reflexivity|].
  apply (edit_keeps_thread_order Example.as_alice Example.as_bob
           (Some Example.alice_contact) 3000 (Example.editing "hello!")
           ChatArea.initial Example.talk Example.m1_first Example.as_listed).
  simpl.
  repeat (constructor; [simpl; intuition discriminate|]); constructor.
Defined.

(** X6.  Only the sender's rows can be edited or deleted.  A message
    the caller did not send is still stored, unchanged, after the
    caller's [handleEditMessage]; after the caller's
    [handleDeleteMessage] it is still stored with the same id, parties,
    content, edited flag and creation time; and neither call shows an
    error for it: an edit or a deletion aimed only at messages of
    others succeeds without touching the database. *)
Theorem only_the_sender_edits_or_deletes
        (auth : Ui.Auth) (db_now : Z) (x : UUID)
        (s : ChatArea.state) (db : Pg.database) :
  let edited := ChatArea.handleEditMessage auth db_now s db in
  let deleted := ChatArea.handleDeleteMessage auth x db_now s db in
  (forall m, In m (Pg.messages db) ->
             Pg.auth_is (Ui.user auth) (Pg.sender_id m) = false ->
             In m (Pg.messages (Ui.db edited))
             /\ exists m', In m' (Pg.messages (Ui.db deleted)) /\ same_message m m')
  /\ (forall em,
        ChatArea.editingMessage s = Some em ->
        (forall m, In m (Pg.messages db) -> Pg.id m = Pg.id (ChatArea.row em) ->
                   Pg.auth_is (Ui.user auth) (Pg.sender_id m) = false) ->
        Ui.db edited = db /\ Ui.toasts edited = [])
  /\ ((forall m, In m (Pg.messages db) -> Pg.id m = x ->
                 Pg.auth_is (Ui.user auth) (Pg.sender_id m) = false) ->
      Ui.db deleted = db /\ Ui.toasts deleted = []).
Proof.
  intros edited deleted; split; [|split].
  - intros m Hm Hauth; split.
    + destruct (handleEditMessage_rows auth db_now s db) as [g [Hrows Hg]].
      fold edited in Hrows; rewrite Hrows.
      apply in_map_iff; exists m; split; [|exact Hm].
      apply (Hg m); exact Hauth.
    + subst deleted; unfold ChatArea.handleDeleteMessage.
      destruct (delete_message_cases (Ui.user auth) x db_now db)
        as [[_ ->]|[[e [r [-> _]]]|[_ [_ ->]]]]; simpl.
      * exists m; split; [exact Hm|repeat split].
      * exists m; split; [exact Hm|repeat split].
      * exists (Pg.set_null x db_now m); split; [|apply set_null_same].
        apply in_map, filter_In; split; [exact Hm|].
        unfold Pg.deletes; rewrite Hauth, andb_false_r; reflexivity.
  - intros em Hem Hothers; subst edited; unfold ChatArea.handleEditMessage.
    rewrite Hem.
    destruct (negb (Js.truthy (Js.trim (ChatArea.editContent s))));
      [split; reflexivity|].
    unfold Pg.update_message.
    rewrite existsb_false_when; [split; reflexivity|].
    intros m Hm; unfold Pg.edits.
    destruct (String.eqb_spec (Pg.id m) (Pg.id (ChatArea.row em))) as [E|E];
      [|reflexivity].
    rewrite (Hothers m Hm E); reflexivity.
  - intros Hothers; subst deleted; unfold ChatArea.handleDeleteMessage, Pg.delete_message.
    rewrite existsb_false_when; [split; reflexivity|].
    intros m Hm; unfold Pg.deletes.
    destruct (String.eqb_spec (Pg.id m) x) as [E|E]; [|reflexivity].
    rewrite (Hothers m Hm E); reflexivity.
Qed.

(** Bob tries to edit and to delete Alice's message. *)
Lemma only_the_sender_edits_or_deletes_witness :
  let edited := ChatArea.handleEditMessage Example.as_bob 3000
                  (Example.editing "hijacked") Example.talk in
  let deleted := ChatArea.handleDeleteMessage Example.as_bob "m1" 3000
                   (Example.editing "hijacked") Example.talk in
  (In Example.hello (Pg.messages (Ui.db edited))
   /\ exists m', In m' (Pg.messages (Ui.db deleted)) /\ same_message Example.hello m')
  /\ (Ui.db edited = Example.talk /\ Ui.toasts edited = [])
  /\ (Ui.db deleted = Example.talk /\ Ui.toasts deleted = []).
Proof.
  intros edited deleted.
  destruct (only_the_sender_edits_or_deletes Example.as_bob 3000 "m1"
              (Example.editing "hijacked") Example.talk) as [Hkeep [Hedit Hdel]].
  split; [apply Hkeep; [left; reflexivity|reflexivity]|].
  split.
  - apply (Hedit (ChatArea.mkMessage Example.hello None) eq_refl).
    intros m [<-|[<-|[]]] E; [reflexivity|discriminate].
  - apply Hdel.
    intros m [<-|[<-|[]]] E; [reflexivity|discriminate].
Defined.

(** ** What a thread shows *)

(** X7.  A fetched thread shows nothing the viewer is not a party to:
    every listed message is stored and runs between the viewer and the
    open contact, and every reply preview quotes the content of a stored
    message that the viewer sent or received.  A reply to a message
    between other people is listed without a preview. *)
Theorem thread_shows_only_messages_of_the_viewer
        (pick : Pg.tie_order)
        (auth : Ui.Auth) (u : UUID) (c : Ui.Contact) (db : Pg.database)
        (s : ChatArea.state) (shown : ChatArea.Message) :
  Ui.user auth = Some u ->
  In shown (ChatArea.messages (ChatArea.fetchMessages pick auth (Some c) db s)) ->
  In (ChatArea.row shown) (Pg.messages db)
  /\ Pg.in_thread u (Ui.contact_user_id c) (ChatArea.row shown) = true
  /\ (forall preview,
        ChatArea.reply_to shown = Some preview ->
        exists quoted,
          In quoted (Pg.messages db)
          /\ Pg.reply_to_id (ChatArea.row shown) = Some (Pg.id quoted)
          /\ ChatArea.reply_content preview = Pg.content quoted
          /\ (Pg.sender_id quoted = u \/ Pg.receiver_id quoted = u))
  /\ (forall r,
        Pg.reply_to_id (ChatArea.row shown) = Some r ->
        (forall m, In m (Pg.messages db) -> Pg.id m = r ->
                   Pg.sender_id m <> u /\ Pg.receiver_id m <> u) ->
        ChatArea.reply_to shown = None).
Proof.
  intros Hu Hin.
  assert (Hrow : In (ChatArea.row shown)
                    (map ChatArea.row
                         (ChatArea.messages
                            (ChatArea.fetchMessages pick auth (Some c) db s))))
    by (apply in_map; exact Hin).
  apply (fetchMessages_shows pick auth u) in Hrow; [|exact Hu].
  destruct Hrow as [Hstored Hthread].
  split; [exact Hstored|]; split; [exact Hthread|].
  rewrite (fetchMessages_messages pick auth u) in Hin by exact Hu.
  apply in_map_iff in Hin; destruct Hin as [msg [<- _]].
  unfold ChatArea.with_reply.
  destruct (Pg.reply_to_id msg) as [r|] eqn:Hr; simpl;
    [|rewrite ?Hr; split; intros; discriminate].
  destruct (Pg.data (Pg.select_message (Some u) r db)) as [[text sender]|] eqn:Hsel;
    simpl; rewrite ?Hr.
  - destruct (select_message_found u r db text sender Hsel)
      as [quoted [Hq [Hid [Hc [Hs Hview]]]]].
    assert (Hparty : Pg.sender_id quoted = u \/ Pg.receiver_id quoted = u).
    { unfold Pg.can_view_message, Pg.auth_is in Hview.
      apply orb_true_iff in Hview.
      destruct Hview as [H|H]; apply String.eqb_eq in H; [left|right]; congruence. }
    split.
    + intros preview Hp; injection Hp as <-; simpl.
      exists quoted; repeat split; try congruence; exact Hparty.
    + intros r' Hr' Hnone; injection Hr' as <-.
      destruct (Hnone quoted Hq Hid) as [H1 H2]; tauto.
  - split; [discriminate|reflexivity].
Qed.

(** Bob once answered a message of Carol in his thread with Alice:
    Alice sees the answer without a preview. *)
Lemma thread_shows_only_messages_of_the_viewer_witness :
  let db := Pg.mkDatabase Example.people []
              [Pg.mkMessage "m1" Example.carol Example.bob "for Bob only" None false 1000 1000;
               Pg.mkMessage "m2" Example.bob Example.alice "see?" (Some "m1") false 2000 2000] in
  let shown := ChatArea.mkMessage
                 (Pg.mkMessage "m2" Example.bob Example.alice "see?" (Some "m1")
                               false 2000 2000) None in
  ChatArea.messages
    (ChatArea.fetchMessages Example.as_listed Example.as_alice
                            (Some Example.bob_contact) db ChatArea.initial)
  = [shown]
  /\ In (ChatArea.row shown) (Pg.messages db)
  /\ ChatArea.reply_to shown = None.
Proof.
  intros db shown; split; [reflexivity|].
  destruct (thread_shows_only_messages_of_the_viewer
              Example.as_listed Example.as_alice Example.alice Example.bob_contact db ChatArea.initial
              shown eq_refl (or_introl eq_refl)) as [Hstored [_ [_ Hnone]]].
  split; [exact Hstored|].
  apply (Hnone "m1" eq_refl).
  intros m [<-|[<-|[]]] E; simpl; [split; discriminate|discriminate].
Defined.

Lemma filter_all {A : Type} (p : A -> bool) (l : list A) :
  (forall x, In x l -> p x = true) -> filter p l = l.
Proof.
  induction l as [|x l IH]; simpl; intros H; [reflexivity|].
  rewrite (H x) by (left; reflexivity); rewrite IH; [reflexivity|].
  intros y Hy; apply H; right; exact Hy.
Qed.

Lemma filter_out_one {A : Type} (p : A -> bool) (t : A) (l : list A) :
  NoDup l -> In t l -> (forall m, In m l -> (p m = true <-> m = t)) ->
  (length (filter (fun m => negb (p m)) l) + 1 = length l)%nat.
Proof.
  induction l as [|h l IH]; simpl; intros Hnd Ht Hp; [destruct Ht|].
  inversion Hnd as [|? ? Hh Hl]; subst.
  destruct (p h) eqn:E; simpl.
  - assert (h = t) by (apply Hp; [left; reflexivity|exact E]); subst h.
    rewrite filter_all; [lia|].
    intros m Hm; destruct (p m) eqn:Em; [|reflexivity].
    assert (m = t) by (apply Hp; [right; exact Hm|exact Em]); subst m; contradiction.
  - destruct Ht as [->|Ht].
    + assert (p t = true) by (apply Hp; [left|]; reflexivity); congruence.
    + rewrite <- (IH Hl Ht); [lia|].
      intros m Hm; apply Hp; right; exact Hm.
Qed.

(** X8.  When ids are unique and the sender of a stored message deletes
    it, the deletion is either carried out or refused as a whole.  It
    is carried out, without an error shown, when every message replying
    to the deleted one has a content the validation trigger accepts:
    exactly that row leaves storage, no row with its id remains, and no
    fetch of any thread by anyone lists it any more.  It is refused
    when, and only when, some replying message has a content the
    trigger does not accept: "Failed to delete message." is shown and
    storage is as it was. *)
Theorem deleted_message_leaves_every_thread
        (deleter viewer : Ui.Auth) (u v : UUID) (c : Ui.Contact)
        (db : Pg.database) (s_deleter s_viewer : ChatArea.state)
        (target : Pg.message) (now : Z) (pick : Pg.tie_order) :
  Ui.user deleter = Some u ->
  Ui.user viewer = Some v ->
  ids_unique db ->
  In target (Pg.messages db) -> Pg.sender_id target = u ->
  let e := ChatArea.handleDeleteMessage deleter (Pg.id target) now s_deleter db in
  ((forall r, In r (Pg.messages db) -> Pg.reply_to_id r = Some (Pg.id target) ->
              Pg.validate_message_content (Pg.content r) = None) ->
   Ui.toasts e = []
   /\ (length (Pg.messages (Ui.db e)) + 1 = length (Pg.messages db))%nat
   /\ (forall m, In m (Pg.messages (Ui.db e)) -> Pg.id m <> Pg.id target)
   /\ (forall shown,
         In shown (ChatArea.messages
                     (ChatArea.fetchMessages pick viewer (Some c) (Ui.db e) s_viewer)) ->
         Pg.id (ChatArea.row shown) <> Pg.id target))
  /\ (forall r, In r (Pg.messages db) -> Pg.id r <> Pg.id target ->
                Pg.reply_to_id r = Some (Pg.id target) ->
                Pg.validate_message_content (Pg.content r) <> None ->
                Ui.toasts e = [ChatArea.delete_failed] /\ Ui.db e = db)
  /\ (Ui.toasts e <> [] ->
      Ui.toasts e = [ChatArea.delete_failed]
      /\ Ui.db e = db
      /\ exists r, In r (Pg.messages db)
                   /\ Pg.reply_to_id r = Some (Pg.id target)
                   /\ Pg.validate_message_content (Pg.content r) <> None).
Proof.
  intros Hu Hv Hids Ht Hs e; split; [|split].
  - intros Hvalid.
    assert (He : e = Ui.mkEffect s_deleter
                       (Pg.mkDatabase (Pg.profiles db) (Pg.contacts db)
                          (map (Pg.set_null (Pg.id target) now)
                               (filter (fun m => negb (Pg.deletes (Some u) (Pg.id target) m))
                                       (Pg.messages db))))
                       [] [Ui.Delete_message (Pg.id target)]).
    { subst e; unfold ChatArea.handleDeleteMessage.
      rewrite Hu, (delete_message_rows u _ now db target) by auto; reflexivity. }
    assert (Hone : forall m, In m (Pg.messages db) ->
                             (Pg.deletes (Some u) (Pg.id target) m = true <-> m = target)).
    { intros m Hm; unfold Pg.deletes, Pg.auth_is; split.
      - intros H; apply andb_true_iff in H; destruct H as [H _].
        apply String.eqb_eq in H.
        apply (unique_key_determines_row Pg.id (Pg.messages db)); assumption.
      - intros ->; rewrite Hs, !String.eqb_refl; reflexivity. }
    assert (Hgone : forall m, In m (Pg.messages (Ui.db e)) -> Pg.id m <> Pg.id target).
    { rewrite He; intros m Hm E.
      apply in_map_iff in Hm; destruct Hm as [m0 [<- Hm0]].
      apply filter_In in Hm0; destruct Hm0 as [Hm0 Hkeep].
      destruct (set_null_same (Pg.id target) now m0) as [[Hid _] _].
      rewrite Hid in E.
      assert (m0 = target)
        by (apply (unique_key_determines_row Pg.id (Pg.messages db)); assumption).
      subst m0; rewrite (proj2 (Hone target Ht) eq_refl) in Hkeep; discriminate. }
    split; [rewrite He; reflexivity|].
    split; [|split; [exact Hgone|]].
    + rewrite He; cbn [Ui.db Pg.messages]; rewrite length_map.
      apply (filter_out_one (Pg.deletes (Some u) (Pg.id target)) target);
        [|exact Ht|exact Hone].
      apply (NoDup_map_inv Pg.id); exact Hids.
    + intros shown Hin; apply Hgone.
      assert (Hrow : In (ChatArea.row shown)
                        (map ChatArea.row
                             (ChatArea.messages
                                (ChatArea.fetchMessages pick viewer (Some c)
                                                        (Ui.db e) s_viewer))))
        by (apply in_map; exact Hin).
      apply (fetchMessages_shows pick viewer v) in Hrow; [tauto|exact Hv].
  - intros r Hr Hid Href Hbad.
    subst e; unfold ChatArea.handleDeleteMessage; rewrite Hu.
    destruct (delete_message_cases (Some u) (Pg.id target) now db)
      as [[Hnone _]|[[x [r' [-> _]]]|[_ [Hpass _]]]].
    + exfalso.
      assert (Hex : existsb (Pg.deletes (Some u) (Pg.id target)) (Pg.messages db) = true).
      { apply existsb_exists; exists target; split; [exact Ht|].
        unfold Pg.deletes, Pg.auth_is; rewrite Hs, !String.eqb_refl; reflexivity. }
      congruence.
    + split; reflexivity.
    + exfalso; revert Hpass.
      apply (set_null_error_raises _ _ r); [|exact Href|exact Hbad].
      apply filter_In; split; [exact Hr|].
      unfold Pg.deletes; apply String.eqb_neq in Hid; rewrite Hid; reflexivity.
  - subst e; unfold ChatArea.handleDeleteMessage; rewrite Hu.
    destruct (delete_message_cases (Some u) (Pg.id target) now db)
      as [[_ ->]|[[x [r [-> [Hr [Href Hbad]]]]]|[_ [_ ->]]]]; simpl;
      try (intros H; exfalso; apply H; reflexivity).
    intros _; split; [reflexivity|]; split; [reflexivity|].
    exists r; split; [exact Hr|]; split; [exact Href|].
    rewrite Hbad; discriminate.
Qed.

(** Alice deletes her "hello"; Bob's thread with her no longer has it.
    Over a store where Bob's answer is a text of 10001 characters, kept
    from before the trigger was installed, the deletion is refused. *)
Lemma deleted_message_leaves_every_thread_witness :
  let e := ChatArea.handleDeleteMessage Example.as_alice "m1" 3000
                                        ChatArea.initial Example.talk in
  let refused := ChatArea.handleDeleteMessage Example.as_alice "m1" 3000
                                              ChatArea.initial Example.legacy in
  length (Pg.messages (Ui.db e)) = 1%nat
  /\ Ui.toasts e = []
  /\ (forall shown,
        In shown (ChatArea.messages
                    (ChatArea.fetchMessages Example.as_listed Example.as_bob
                                            (Some Example.alice_contact)
                                            (Ui.db e) ChatArea.initial)) ->
        Pg.id (ChatArea.row shown) <> "m1")
  /\ Ui.toasts refused = [ChatArea.delete_failed]
  /\ Ui.db refused = Example.legacy.
Proof.
  intros e refused; split; [reflexivity|].
  destruct (deleted_message_leaves_every_thread
              Example.as_alice Example.as_bob Example.alice Example.bob
              Example.alice_contact Example.talk ChatArea.initial ChatArea.initial
              Example.hello 3000 Example.as_listed eq_refl eq_refl
              (proj1 (proj2 talk_well_formed)) (or_introl eq_refl) eq_refl)
    as [Hdone _].
  destruct Hdone as [Htoast [_ [_ Hshown]]].
  - intros r [<-|[<-|[]]] _; reflexivity.
  - split; [exact Htoast|]; split; [exact Hshown|].
    assert (Hids : ids_unique Example.legacy).
    { unfold ids_unique; simpl.
      repeat (constructor; [simpl; intuition discriminate|]); constructor. }
    destruct (deleted_message_leaves_every_thread
                Example.as_alice Example.as_bob Example.alice Example.bob
                Example.alice_contact Example.legacy ChatArea.initial ChatArea.initial
                Example.hello 3000 Example.as_listed eq_refl eq_refl
                Hids (or_introl eq_refl) eq_refl)
      as [_ [Hrefused _]].
    apply (Hrefused Example.long_answer).
    + right; left; reflexivity.
    + simpl; discriminate.
    + reflexivity.
    + vm_compute; discriminate.
Defined.

(** ** The directory *)

Lemma update_profile_uid_returns (auth : option UUID) (p : UUID) (h : string)
      (now : Z) (tbl tbl' : list Pg.profile) :
  Pg.update_profile_uid auth p h now tbl = Pg.Return tbl' ->
  tbl' = map (fun r => if Pg.touches auth p r then Pg.set_uid h now r else r) tbl
  /\ (length (filter (Pg.touches auth p) tbl) <= 1)%nat
  /\ (forall r0, In r0 tbl -> Pg.touches auth p r0 = true ->
      forall r, In r tbl -> Pg.touches auth p r = false -> Pg.pr_uid r <> h).
Proof.
  unfold Pg.update_profile_uid, Pg.uid_conflict.
  destruct (2 <=? length (filter (Pg.touches auth p) tbl))%nat eqn:E2;
    [discriminate|rewrite orb_false_l].
  apply Nat.leb_gt in E2.
  destruct (1 <=? length (filter (Pg.touches auth p) tbl))%nat eqn:E1;
    [rewrite andb_true_l|rewrite andb_false_l].
  - destruct (existsb _ _) eqn:Ex; [discriminate|].
    intros H; injection H as <-; split; [reflexivity|]; split; [lia|].
    intros r0 _ _ r Hr Ht Hu.
    assert (existsb (fun q => (Pg.pr_uid q =? h)%string)
                    (filter (fun q => negb (Pg.touches auth p q)) tbl) = true).
    { apply existsb_exists; exists r; split.
      - apply filter_In; rewrite Ht; split; [exact Hr|reflexivity].
      - apply String.eqb_eq; exact Hu. }
    congruence.
  - intros H; injection H as <-; split; [reflexivity|]; split; [lia|].
    intros r0 Hr0 Ht0; exfalso.
    apply Nat.leb_gt in E1.
    assert (In r0 (filter (Pg.touches auth p) tbl)) by (apply filter_In; tauto).
    destruct (filter (Pg.touches auth p) tbl); [contradiction|simpl in E1; lia].
Qed.

(** Rewriting the handle of at most one row to a handle no other row
    bears keeps handles unique. *)
Lemma set_uid_keeps_unique (touched : Pg.profile -> bool) (h : string) (now : Z)
      (tbl : list Pg.profile) :
  (length (filter touched tbl) <= 1)%nat ->
  ((exists r0, In r0 tbl /\ touched r0 = true) ->
   forall r, In r tbl -> touched r = false -> Pg.pr_uid r <> h) ->
  NoDup (map Pg.pr_uid tbl) ->
  NoDup (map Pg.pr_uid (map (fun r => if touched r then Pg.set_uid h now r else r) tbl)).
Proof.
  induction tbl as [|r tbl IH]; simpl; intros Hlen Hfree Hnd; [constructor|].
  inversion Hnd as [|? ? Hr Hrest]; subst.
  destruct (touched r) eqn:Ht; simpl in *.
  - assert (Hnone : forall q, In q tbl -> touched q = false).
    { intros q Hq; destruct (touched q) eqn:Eq; [|reflexivity].
      assert (In q (filter touched tbl)) by (apply filter_In; tauto).
      destruct (filter touched tbl); [contradiction|simpl in Hlen; lia]. }
    assert (Hsame : map (fun q => if touched q then Pg.set_uid h now q else q) tbl = tbl).
    { erewrite map_ext_in; [apply map_id|].
      intros q Hq; rewrite (Hnone q Hq); reflexivity. }
    rewrite Hsame; constructor; [|exact Hrest].
    intros Hin; apply in_map_iff in Hin; destruct Hin as [q [Hu Hq]].
    apply (Hfree (ex_intro _ r (conj (or_introl eq_refl) Ht)) q);
      [right; exact Hq|apply Hnone; exact Hq|exact Hu].
  - constructor.
    + intros Hin; rewrite map_map in Hin.
      apply in_map_iff in Hin; destruct Hin as [q [Hu Hq]].
      destruct (touched q) eqn:Eq; simpl in Hu.
      * apply (Hfree (ex_intro _ q (conj (or_intror Hq) Eq)) r);
          [left; reflexivity|exact Ht|symmetry; exact Hu].
      * apply Hr; rewrite <- Hu; apply in_map; exact Hq.
    + apply IH; [exact Hlen| |exact Hrest].
      intros [r0 [Hr0 Ht0]] q Hq Hqt.
      apply (Hfree (ex_intro _ r0 (conj (or_intror Hr0) Ht0)) q);
        [right; exact Hq|exact Hqt].
Qed.

Lemma update_profile_uid_keeps_unique auth p h now tbl tbl' :
  Pg.update_profile_uid auth p h now tbl = Pg.Return tbl' ->
  NoDup (map Pg.pr_uid tbl) -> NoDup (map Pg.pr_uid tbl').
Proof.
  intros Hup Hnd.
  destruct (update_profile_uid_returns auth p h now tbl tbl' Hup) as [-> [Hlen Hfree]].
  apply set_uid_keeps_unique; [exact Hlen| |exact Hnd].
  intros [r0 [Hr0 Ht0]]; apply (Hfree r0 Hr0 Ht0).
Qed.

Section Routine.

Variable md5 : string -> string.

(** Where a result of the loop comes from: an error leaves the table as
    it was, a handle is some candidate that was persisted without
    conflict. *)
Lemma regenerate_loop_result fuel src now auth p tbl :
  forall i attempt res tbl',
    Pg.regenerate_loop md5 fuel src i attempt now auth p tbl = Some (res, tbl') ->
    (exists e, res = Pg.Raise e /\ tbl' = tbl)
    \/ (exists j, res = Pg.Return (Pg.candidate md5 (src j))
                  /\ Pg.update_profile_uid auth p (Pg.candidate md5 (src j)) now tbl
                     = Pg.Return tbl').
Proof.
  induction fuel as [|fuel IH]; intros i attempt res tbl'; simpl; [discriminate|].
  destruct (Pg.update_profile_uid auth p (Pg.candidate md5 (src i)) now tbl)
    as [t|e] eqn:Hup.
  - intros H; injection H as <- <-; right; exists i; split; [reflexivity|exact Hup].
  - destruct e; try (intros H; injection H as <- <-; left; eexists; split; reflexivity).
    destruct (attempt + 1 >=? Pg.max_attempts)%Z.
    + intros H; injection H as <- <-; left; eexists; split; reflexivity.
    + apply IH.
Qed.

Lemma regenerate_profile_uid_result fuel src now auth p tbl res tbl' :
  Pg.regenerate_profile_uid md5 fuel src now auth p tbl = Some (res, tbl') ->
  (exists e, res = Pg.Raise e /\ tbl' = tbl)
  \/ (exists j, res = Pg.Return (Pg.candidate md5 (src j))
                /\ Pg.update_profile_uid auth p (Pg.candidate md5 (src j)) now tbl
                   = Pg.Return tbl').
Proof.
  unfold Pg.regenerate_profile_uid.
  destruct auth as [a|]; [|apply regenerate_loop_result].
  destruct (negb (a =? p)%string); [|apply regenerate_loop_result].
  intros H; injection H as <- <-; left; eexists; split; reflexivity.
Qed.

(** X9.  Handles stay unique.  If no two profiles share a handle, none
    do after [regenerate_profile_uid], whatever it returns, nor after
    the component's [handleRegenerateUid], whatever [Math.random()]
    gave; and neither changes which identities have a profile. *)
Theorem regeneration_keeps_handles_unique (db : Pg.database) :
  NoDup (map Pg.pr_uid (Pg.profiles db)) ->
  (forall fuel src now auth p res tbl',
      Pg.regenerate_profile_uid md5 fuel src now auth p (Pg.profiles db)
      = Some (res, tbl') ->
      NoDup (map Pg.pr_uid tbl')
      /\ map Pg.pr_user_id tbl' = map Pg.pr_user_id (Pg.profiles db))
  /\ (forall auth rnd db_now s,
        let e := Settings.handleRegenerateUid auth rnd db_now s db in
        NoDup (map Pg.pr_uid (Pg.profiles (Ui.db e)))
        /\ map Pg.pr_user_id (Pg.profiles (Ui.db e))
           = map Pg.pr_user_id (Pg.profiles db)).
Proof.
  intros Hnd.
  assert (Hids : forall auth p h now tbl',
             Pg.update_profile_uid auth p h now (Pg.profiles db) = Pg.Return tbl' ->
             map Pg.pr_user_id tbl' = map Pg.pr_user_id (Pg.profiles db)).
  { intros auth p h now tbl' Hup.
    destruct (update_profile_uid_returns _ _ _ _ _ _ Hup) as [-> _].
    rewrite map_map; apply map_ext; intros r.
    destruct (Pg.touches auth p r); reflexivity. }
  split.
  - intros fuel src now auth p res tbl' H.
    destruct (regenerate_profile_uid_result _ _ _ _ _ _ _ _ H)
      as [[e [_ ->]]|[j [_ Hup]]]; [split; [exact Hnd|reflexivity]|].
    split; [exact (update_profile_uid_keeps_unique _ _ _ _ _ _ Hup Hnd)|].
    exact (Hids _ _ _ _ _ Hup).
  - intros auth rnd db_now s; unfold Settings.handleRegenerateUid.
    destruct (Ui.own_profile auth) as [profile|]; [|split; [exact Hnd|reflexivity]].
    unfold Pg.update_uid.
    destruct (Pg.update_profile_uid (Ui.user auth) (Pg.pr_user_id profile)
                                    (Settings.newUid rnd) db_now (Pg.profiles db))
      as [tbl'|x] eqn:Hup; simpl.
    + split; [exact (update_profile_uid_keeps_unique _ _ _ _ _ _ Hup Hnd)|].
      exact (Hids _ _ _ _ _ Hup).
    + split; [exact Hnd|reflexivity].
Qed.

(** X10.  The handle [regenerate_profile_uid] returns to a caller who
    has a profile has exactly 8 characters, is borne by no profile of
    another identity, and resolves: [lookup_profile_by_uid] on it
    answers with the caller's identity and name. *)
Theorem regenerated_handle_resolves_to_caller
        (fuel : nat) (src : nat -> Pg.entropy) (now : Z) (p : UUID)
        (db : Pg.database) (h : string) (tbl' : list Pg.profile) (own : Pg.profile) :
  (forall t, String.length (md5 t) = 32%nat) ->
  In own (Pg.profiles db) -> Pg.pr_user_id own = p ->
  Pg.regenerate_profile_uid md5 fuel src now (Some p) p (Pg.profiles db)
  = Some (Pg.Return h, tbl') ->
  String.length h = 8%nat
  /\ (forall r, In r tbl' -> Pg.pr_uid r = h -> Pg.pr_user_id r = p)
  /\ exists r, In r (Pg.profiles db) /\ Pg.pr_user_id r = p
               /\ fst (Pg.lookup_profile_by_uid
                         (Some h) (Pg.mkDatabase tbl' (Pg.contacts db) (Pg.messages db)))
                  = [(p, Pg.pr_name r)].
Proof.
  intros Hmd5 Hown Hp H.
  destruct (regenerate_profile_uid_result _ _ _ _ _ _ _ _ H)
    as [[e [He _]]|[j [Hh Hup]]]; [discriminate|].
  injection Hh as ->.
  assert (Hlen : String.length (Pg.candidate md5 (src j)) = 8%nat).
  { unfold Pg.candidate; apply substring_prefix_length; rewrite Hmd5; lia. }
  destruct (update_profile_uid_returns _ _ _ _ _ _ Hup) as [-> [_ Hfree]].
  assert (Htouch : Pg.touches (Some p) p own = true).
  { unfold Pg.touches, Pg.auth_is; rewrite Hp, !String.eqb_refl; reflexivity. }
  assert (Hmine : forall r, In r (Pg.profiles db) ->
                            Pg.touches (Some p) p r = true -> Pg.pr_user_id r = p).
  { intros r _ Ht; unfold Pg.touches in Ht.
    apply andb_true_iff in Ht; destruct Ht as [Ht _]; apply String.eqb_eq; exact Ht. }
  assert (Hbearer : forall q,
             In q (map (fun r => if Pg.touches (Some p) p r
                                 then Pg.set_uid (Pg.candidate md5 (src j)) now r else r)
                       (Pg.profiles db)) ->
             Pg.pr_uid q = Pg.candidate md5 (src j) ->
             exists r, In r (Pg.profiles db) /\ Pg.pr_user_id r = p
                       /\ Pg.pr_user_id q = p /\ Pg.pr_name q = Pg.pr_name r).
  { intros q Hq Hu; apply in_map_iff in Hq; destruct Hq as [r [<- Hr]].
    destruct (Pg.touches (Some p) p r) eqn:Ht.
    - exists r; simpl; repeat split; try assumption; apply Hmine; assumption.
    - exfalso; exact (Hfree own Hown Htouch r Hr Ht Hu). }
  split; [exact Hlen|]; split.
  - intros r Hr Hu; destruct (Hbearer r Hr Hu) as [_ [_ [_ [E _]]]]; exact E.
  - destruct (lookup_resolves (Pg.candidate md5 (src j))
                (Pg.mkDatabase
                   (map (fun r => if Pg.touches (Some p) p r
                                  then Pg.set_uid (Pg.candidate md5 (src j)) now r else r)
                        (Pg.profiles db))
                   (Pg.contacts db) (Pg.messages db))
                (Pg.set_uid (Pg.candidate md5 (src j)) now own) Hlen)
      as [q [Hq [Hu [Hrow _]]]].
    + simpl; apply in_map_iff; exists own; rewrite Htouch; split; [reflexivity|exact Hown].
    + reflexivity.
    + destruct (Hbearer q Hq Hu) as [r [Hr [Hrp [Hqp Hname]]]].
      exists r; split; [exact Hr|]; split; [exact Hrp|].
      rewrite Hrow, Hqp, Hname; reflexivity.
Qed.

(** X11.  [regenerate_profile_uid] touches nothing but the caller's own
    row.  Called for another identity it raises "Not authorized to
    update this profile" before the loop, whatever the fuel; a call
    that ends in an error leaves the table as it was; and after any
    call every row of every other identity is in the table as before. *)
Theorem regenerate_touches_only_the_caller
        (fuel : nat) (src : nat -> Pg.entropy) (now : Z)
        (auth : option UUID) (p : UUID) (tbl : list Pg.profile) :
  (forall a, auth = Some a -> a <> p ->
             Pg.regenerate_profile_uid md5 fuel src now auth p tbl
             = Some (Pg.Raise Pg.Not_authorized_to_update_this_profile, tbl))
  /\ (forall res tbl',
        Pg.regenerate_profile_uid md5 fuel src now auth p tbl = Some (res, tbl') ->
        length tbl' = length tbl
        /\ (forall e, res = Pg.Raise e -> tbl' = tbl)
        /\ (forall r, In r tbl -> auth <> Some (Pg.pr_user_id r) -> In r tbl')
        /\ (forall r, In r tbl -> Pg.pr_user_id r <> p -> In r tbl')).
Proof.
  split.
  - intros a -> Hne; unfold Pg.regenerate_profile_uid.
    apply String.eqb_neq in Hne; rewrite Hne; reflexivity.
  - intros res tbl' H.
    destruct (regenerate_profile_uid_result _ _ _ _ _ _ _ _ H)
      as [[e [_ ->]]|[j [-> Hup]]]; [repeat split; auto|].
    destruct (update_profile_uid_returns _ _ _ _ _ _ Hup) as [-> _].
    assert (Hkeep : forall r, In r tbl -> Pg.touches auth p r = false ->
                              In r (map (fun r => if Pg.touches auth p r
                                                  then Pg.set_uid (Pg.candidate md5 (src j)) now r
                                                  else r) tbl)).
    { intros r Hr Ht; apply in_map_iff; exists r; rewrite Ht; tauto. }
    split; [apply length_map|]; split; [discriminate|]; split.
    + intros r Hr Ha; apply Hkeep; [exact Hr|].
      unfold Pg.touches, Pg.auth_is; destruct auth as [a|]; [|apply andb_false_r].
      destruct (String.eqb_spec a (Pg.pr_user_id r)) as [E|E];
        [congruence|apply andb_false_r].
    + intros r Hr Hp; apply Hkeep; [exact Hr|].
      unfold Pg.touches; apply String.eqb_neq in Hp; rewrite Hp; reflexivity.
Qed.

End Routine.

Lemma length_append (a b : string) :
  String.length (a ++ b) = (String.length a + String.length b)%nat.
Proof. induction a as [|c a IH]; simpl; [reflexivity|rewrite IH; reflexivity]. Qed.

Lemma hash32_length (t : string) : String.length (Example.hash32 t) = 32%nat.
Proof.
  unfold Example.hash32; apply substring_prefix_length.
  rewrite length_append; simpl; lia.
Defined.

Lemma people_handles_unique : NoDup (map Pg.pr_uid (Pg.profiles Example.fresh)).
Proof.
  repeat (constructor; [simpl; intuition discriminate|]); constructor.
Defined.

(** Alice regenerates through the routine and through the component. *)
Lemma regeneration_keeps_handles_unique_witness :
  (exists res tbl',
      Pg.regenerate_profile_uid Example.hash32 10 Example.draws 7000
        (Some Example.alice) Example.alice (Pg.profiles Example.fresh)
      = Some (res, tbl')
      /\ NoDup (map Pg.pr_uid tbl'))
  /\ NoDup (map Pg.pr_uid
                (Pg.profiles
                   (Ui.db (Settings.handleRegenerateUid Example.as_alice (2 ^ 52)%N 7000
                             Example.settings Example.fresh)))).
Proof.
  destruct (regeneration_keeps_handles_unique Example.hash32 Example.fresh
              people_handles_unique) as [Hsql Hui].
  split.
  - eexists; eexists; split; [reflexivity|].
    exact (proj1 (Hsql 10%nat Example.draws 7000%Z (Some Example.alice) Example.alice
                       _ _ eq_refl)).
  - exact (proj1 (Hui Example.as_alice (2 ^ 52)%N 7000%Z Example.settings)).
Defined.

(** Alice's regenerated handle resolves to her. *)
Lemma regenerated_handle_resolves_to_caller_witness :
  exists tbl',
    Pg.regenerate_profile_uid Example.hash32 10 Example.draws 7000
      (Some Example.alice) Example.alice (Pg.profiles Example.fresh)
    = Some (Pg.Return "f00dface", tbl')
    /\ String.length "f00dface" = 8%nat
    /\ exists r, In r (Pg.profiles Example.fresh)
                 /\ fst (Pg.lookup_profile_by_uid
                           (Some "f00dface")
                           (Pg.mkDatabase tbl' (Pg.contacts Example.fresh)
                                          (Pg.messages Example.fresh)))
                    = [(Example.alice, Pg.pr_name r)].
Proof.
  eexists; split; [reflexivity|].
  destruct (regenerated_handle_resolves_to_caller Example.hash32 10 Example.draws 7000
              Example.alice Example.fresh "f00dface" _ Example.alice_profile
              hash32_length (or_introl eq_refl) eq_refl eq_refl)
    as [Hlen [_ [r [Hr [_ Hrow]]]]].
  split; [exact Hlen|].
  exists r; split; [exact Hr|exact Hrow].
Defined.

(** Bob calls the routine for Alice's identity. *)
Lemma regenerate_touches_only_the_caller_witness :
  Pg.regenerate_profile_uid Example.hash32 0 Example.draws 7000
    (Some Example.bob) Example.alice Example.people
  = Some (Pg.Raise Pg.Not_authorized_to_update_this_profile, Example.people).
Proof.
  apply (proj1 (regenerate_touches_only_the_caller Example.hash32 0 Example.draws 7000
                  (Some Example.bob) Example.alice Example.people) Example.bob eq_refl).
  discriminate.
Defined.

(** X12.  [generate_avatar_color] never leaves the palette: for every
    value of [random()] in [[0,1)] the subscript lies within the array,
    so the result is one of the eight colours and never NULL; and every
    colour of the palette is the result for some value of [random()]. *)
Theorem generate_avatar_color_in_palette :
  (forall num den, (num < den)%N ->
                   exists c, Pg.generate_avatar_color num den = Some c /\ In c Pg.colors)
  /\ (forall c, In c Pg.colors ->
                exists num den, (num < den)%N
                                /\ Pg.generate_avatar_color num den = Some c).
Proof.
  split.
  - intros num den Hlt; unfold Pg.generate_avatar_color, Pg.subscript.
    set (q := (num * N.of_nat (length Pg.colors) / den)%N).
    assert (Hq : (q < 8)%N).
    { subst q; apply N.Div0.div_lt_upper_bound; simpl N.of_nat; lia. }
    destruct (N.eqb_spec (1 + q) 0) as [E|_]; [lia|].
    replace (1 + q - 1)%N with q by lia.
    destruct (nth_error Pg.colors (N.to_nat q)) as [c|] eqn:E.
    + exists c; split; [reflexivity|]; apply (nth_error_In _ _ E).
    + apply nth_error_None in E; simpl in E; lia.
  - intros c Hc; apply In_nth_error in Hc; destruct Hc as [n Hn].
    assert (Hlt : (n < length Pg.colors)%nat)
      by (apply nth_error_Some; congruence).
    exists (N.of_nat n), 8%N; split; [simpl in Hlt; lia|].
    unfold Pg.generate_avatar_color, Pg.subscript.
    change (N.of_nat (length Pg.colors)) with 8%N.
    rewrite N.div_mul by discriminate.
    destruct (N.eqb_spec (1 + N.of_nat n) 0) as [E|_]; [lia|].
    replace (1 + N.of_nat n - 1)%N with (N.of_nat n) by lia.
    rewrite Nat2N.id; exact Hn.
Qed.

(** The least and the largest value of [random()] below 1 among the
    multiples of 2^-53. *)
Lemma generate_avatar_color_in_palette_witness :
  Pg.generate_avatar_color 0 (2 ^ 53) = Some "#ef4444"
  /\ Pg.generate_avatar_color (2 ^ 53 - 1) (2 ^ 53) = Some "#ec4899"
  /\ exists c, Pg.generate_avatar_color (2 ^ 52) (2 ^ 53) = Some c /\ In c Pg.colors.
Proof.
  split; [reflexivity|]; split; [reflexivity|].
  apply (proj1 generate_avatar_color_in_palette); reflexivity.
Defined.

(** ** The contact list *)

Lemma find_filter_same {A : Type} (f g : A -> bool) (l : list A) :
  (forall x, In x l -> f x = true -> g x = true) ->
  find f (filter g l) = find f l.
Proof.
  induction l as [|x l IH]; simpl; intros H; [reflexivity|].
  destruct (f x) eqn:Ef.
  - rewrite (H x (or_introl eq_refl) Ef); simpl; rewrite Ef; reflexivity.
  - destruct (g x); simpl; rewrite ?Ef; apply IH; intros y Hy; apply H; right; exact Hy.
Qed.

Lemma own_edges (u : UUID) (db : Pg.database) :
  filter (fun c => Pg.auth_is (Some u) (Pg.ct_user_id c) && (Pg.ct_user_id c =? u)%string)
         (Pg.contacts db)
  = filter (fun c => (Pg.ct_user_id c =? u)%string) (Pg.contacts db).
Proof.
  apply filter_ext; intros c; unfold Pg.auth_is.
  rewrite (String.eqb_sym u); apply andb_diag.
Qed.

(** [fetchContacts] written as one join over the caller's edges. *)
Lemma fetchContacts_contacts auth u db s :
  Ui.user auth = Some u ->
  let edges := filter (fun e => String.eqb (Pg.ct_user_id e) u) (Pg.contacts db) in
  let readable :=
    filter (fun p => Pg.can_view_profile (Some u) db p
                     && existsb (String.eqb (Pg.pr_user_id p))
                                (map Pg.ct_contact_user_id edges))
           (Pg.profiles db) in
  ContactsList.contacts (ContactsList.fetchContacts auth db s)
  = map (fun e =>
           Ui.mkContact (Pg.ct_id e) (Pg.ct_contact_user_id e)
             match find (fun p => String.eqb (Pg.pr_user_id p) (Pg.ct_contact_user_id e))
                        readable with
             | Some p => Ui.mkContactProfile (Pg.pr_name p) (Pg.pr_uid p)
                                             (Pg.pr_avatar_color p)
             | None => ContactsList.placeholder
             end)
        edges.
Proof.
  intros Hu edges readable; subst edges readable.
  unfold ContactsList.fetchContacts, Pg.select_contacts, Pg.ok; rewrite Hu.
  cbn [Pg.data Pg.error]; rewrite own_edges.
  destruct (map (fun c => (Pg.ct_id c, Pg.ct_contact_user_id c))
                (filter (fun c => (Pg.ct_user_id c =? u)%string) (Pg.contacts db)))
    as [|c0 cs] eqn:Hm.
  - apply map_eq_nil in Hm; rewrite Hm; reflexivity.
  - rewrite <- Hm.
    unfold Pg.select_profiles_in, Pg.ok; cbn [Pg.data Pg.error].
    unfold ContactsList.setContacts; cbn [ContactsList.contacts].
    rewrite !map_map; reflexivity.
Qed.

(** X13.  [fetchContacts] lists the caller's edges, one entry per edge
    in storage order with the edge's id and peer, and joins each with
    the peer's profile: the name, handle and colour of the peer's row in
    [profiles] whenever there is one (the policy lets the caller read
    it because of the edge), and the placeholder "Unknown" /
    "????????" / "#888888" exactly when the peer has no profile row. *)
Theorem fetchContacts_joins_profiles
        (auth : Ui.Auth) (u : UUID) (db : Pg.database) (s : ContactsList.state) :
  Ui.user auth = Some u ->
  let listed := ContactsList.contacts (ContactsList.fetchContacts auth db s) in
  map (fun c => (Ui.id c, Ui.contact_user_id c)) listed
  = map (fun e => (Pg.ct_id e, Pg.ct_contact_user_id e))
        (filter (fun e => String.eqb (Pg.ct_user_id e) u) (Pg.contacts db))
  /\ forall c, In c listed ->
       match find (fun p => String.eqb (Pg.pr_user_id p) (Ui.contact_user_id c))
                  (Pg.profiles db) with
       | Some p => Ui.profile c
                   = Ui.mkContactProfile (Pg.pr_name p) (Pg.pr_uid p) (Pg.pr_avatar_color p)
       | None => Ui.profile c = ContactsList.placeholder
       end.
Proof.
  intros Hu listed; subst listed.
  rewrite (fetchContacts_contacts auth u) by exact Hu.
  set (edges := filter (fun e => (Pg.ct_user_id e =? u)%string) (Pg.contacts db)).
  split; [rewrite map_map; reflexivity|].
  intros c Hc; apply in_map_iff in Hc; destruct Hc as [e [<- He]].
  cbn [Ui.contact_user_id Ui.profile].
  pose proof He as Hown; apply filter_In in Hown.
  destruct Hown as [Hstored Howner].
  rewrite find_filter_same.
  - destruct (find _ (Pg.profiles db)); reflexivity.
  - intros p _ Hp; apply String.eqb_eq in Hp.
    apply andb_true_iff; split.
    + unfold Pg.can_view_profile; apply orb_true_iff; right.
      apply existsb_exists; exists e; split; [exact Hstored|].
      unfold Pg.auth_is; rewrite (String.eqb_sym u), Howner, Hp, String.eqb_refl.
      reflexivity.
    + apply existsb_exists; exists (Pg.ct_contact_user_id e); split.
      * apply in_map; exact He.
      * rewrite Hp; apply String.eqb_refl.
Qed.

(** Alice has added Bob, who has a profile, and an identity that has
    none. *)
Lemma fetchContacts_joins_profiles_witness :
  let db := Pg.mkDatabase Example.people
              [Pg.mkContact "c1" Example.alice Example.bob 5000;
               Pg.mkContact "c2" Example.bob Example.alice 5500;
               Pg.mkContact "c3" Example.alice "dave" 6000] [] in
  let listed := ContactsList.contacts
                  (ContactsList.fetchContacts Example.as_alice db
                                              (Example.dialog Example.fresh "")) in
  listed = [Example.bob_contact; Ui.mkContact "c3" "dave" ContactsList.placeholder]
  /\ map (fun c => (Ui.id c, Ui.contact_user_id c)) listed
     = [("c1", Example.bob); ("c3", "dave")].
Proof.
  intros db listed; split; [reflexivity|].
  exact (proj1 (fetchContacts_joins_profiles Example.as_alice Example.alice db
                  (Example.dialog Example.fresh "") eq_refl)).
Defined.

(** X14.  [handleRemoveContact] removes from storage exactly the edges
    with the given id that the caller owns and from the list the entries
    with that id; everything else, the reverse edge included, stays.
    It always ends in "Contact removed", also when there was nothing to
    remove, and removing the same id again changes nothing further. *)
Theorem handleRemoveContact_removes_own_edge_only
        (auth : Ui.Auth) (x : UUID) (s : ContactsList.state) (db : Pg.database) :
  let o := ContactsList.handleRemoveContact auth x s db in
  Ui.notices o = [ContactsList.contact_removed]
  /\ Pg.profiles (Ui.storage o) = Pg.profiles db
  /\ Pg.messages (Ui.storage o) = Pg.messages db
  /\ (forall e, In e (Pg.contacts (Ui.storage o))
                <-> In e (Pg.contacts db)
                    /\ ~ (Pg.ct_id e = x /\ Ui.user auth = Some (Pg.ct_user_id e)))
  /\ (forall c, In c (ContactsList.contacts (Ui.final o))
                <-> In c (ContactsList.contacts s) /\ Ui.id c <> x)
  /\ ContactsList.handleRemoveContact auth x (Ui.final o) (Ui.storage o) = o.
Proof.
  intros o; subst o; unfold ContactsList.handleRemoveContact, Pg.delete_contact; simpl.
  repeat (split; [reflexivity|]).
  assert (Hrm : forall e, Pg.removes (Ui.user auth) x e = true
                          <-> Pg.ct_id e = x /\ Ui.user auth = Some (Pg.ct_user_id e)).
  { intros e; unfold Pg.removes, Pg.auth_is.
    rewrite andb_true_iff, String.eqb_eq.
    destruct (Ui.user auth) as [a|]; [rewrite String.eqb_eq|]; split;
      intros [H1 H2]; split; congruence. }
  split; [|split].
  - intros e; rewrite filter_In, negb_true_iff, <- Hrm.
    destruct (Pg.removes (Ui.user auth) x e); split; intros [H1 H2]; split;
      congruence.
  - intros c; rewrite filter_In, negb_true_iff, String.eqb_neq; tauto.
  - f_equal.
    + unfold ContactsList.setContacts; simpl; f_equal.
      apply filter_all; intros c Hc; apply filter_In in Hc; tauto.
    + f_equal; apply filter_all; intros e He; apply filter_In in He; tauto.
Qed.

(** Alice and Bob have added each other; Alice removes her edge. *)
Lemma handleRemoveContact_removes_own_edge_only_witness :
  let db := Pg.mkDatabase Example.people
              [Pg.mkContact "c1" Example.alice Example.bob 5000;
               Pg.mkContact "c2" Example.bob Example.alice 5500] [] in
  let o := ContactsList.handleRemoveContact Example.as_alice "c1"
             (ContactsList.fetchContacts Example.as_alice db
                                         (Example.dialog Example.fresh "")) db in
  Pg.contacts (Ui.storage o) = [Pg.mkContact "c2" Example.bob Example.alice 5500]
  /\ ContactsList.contacts (Ui.final o) = []
  /\ ContactsList.handleRemoveContact Example.as_alice "c1" (Ui.final o) (Ui.storage o) = o.
Proof.
  intros db o; split; [reflexivity|]; split; [reflexivity|].
  apply (handleRemoveContact_removes_own_edge_only Example.as_alice "c1").
Defined.

(** The outcomes of [handleAddContact] as far as storage goes: nothing
    changes and no "Contact added" is shown, or one edge from the caller
    to another identity is appended under a fresh id. *)
Lemma handleAddContact_storage auth new_id now s db :
  let e := ContactsList.handleAddContact auth new_id now s db in
  (Ui.db e = db /\ forall n, Ui.toasts e <> [ContactsList.contact_added n])
  \/ (exists u v n,
         Ui.user auth = Some u /\ v <> u
         /\ Ui.toasts e = [ContactsList.contact_added n]
         /\ Ui.db e = Pg.mkDatabase (Pg.profiles db)
                        (Pg.contacts db ++ [Pg.mkContact new_id u v now])
                        (Pg.messages db)
         /\ Ui.st e = ContactsList.fetchContacts auth (Ui.db e)
                        (ContactsList.mkState (ContactsList.contacts s) "" false false
                                              (ContactsList.filter s))
         /\ forall c, In c (Pg.contacts db) ->
                      Pg.ct_id c <> new_id /\ edge c <> (u, v)).
Proof.
  intros e; subst e.
  destruct (Ui.user auth) as [u|] eqn:Hu;
    [|left; rewrite handleAddContact_blank by (left; exact Hu);
      split; [reflexivity|discriminate]].
  destruct (string_dec (Js.trim (ContactsList.searchUid s)) EmptyString) as [Hb|Hb];
    [left; rewrite handleAddContact_blank by (right; exact Hb);
     split; [reflexivity|discriminate]|].
  rewrite (handleAddContact_after_guards auth u) by assumption; cbv zeta.
  destruct (negb _); [left; split; [reflexivity|discriminate]|].
  destruct (fst _) as [|[v n] rest]; [left; split; [reflexivity|discriminate]|].
  destruct (String.eqb_spec v u) as [Hv|Hv]; [left; split; [reflexivity|discriminate]|].
  destruct (find _ _); [left; split; [reflexivity|discriminate]|].
  unfold Pg.insert_contact, Pg.auth_is; rewrite String.eqb_refl; simpl negb; cbv iota.
  destruct (existsb _ (Pg.contacts db)) eqn:E; cbn [fst snd Pg.error Pg.failed Pg.ok];
    [left; split; [reflexivity|discriminate]|].
  right; exists u, v, n; repeat split; try assumption; try reflexivity.
  - intros Hid.
    assert (existsb (fun c0 => (Pg.ct_id c0 =? new_id)%string
                               || ((Pg.ct_user_id c0 =? u)%string
                                   && (Pg.ct_contact_user_id c0 =? v)%string))
                    (Pg.contacts db) = true).
    { apply existsb_exists; exists c; split; [assumption|].
      rewrite Hid, String.eqb_refl; reflexivity. }
    congruence.
  - unfold edge; intros Hedge; injection Hedge as H1 H2.
    assert (existsb (fun c0 => (Pg.ct_id c0 =? new_id)%string
                               || ((Pg.ct_user_id c0 =? u)%string
                                   && (Pg.ct_contact_user_id c0 =? v)%string))
                    (Pg.contacts db) = true).
    { apply existsb_exists; exists c; split; [assumption|].
      rewrite H1, H2, !String.eqb_refl; apply orb_true_r. }
    congruence.
Qed.

(** X15.  The contact handlers keep the edges well formed: if ids are
    unique, no owner has the same peer twice and nobody is their own
    contact, the same holds after [handleAddContact] and after
    [handleRemoveContact], whatever was typed or clicked. *)
Theorem contact_handlers_keep_edges_well_formed
        (auth : Ui.Auth) (s : ContactsList.state) (db : Pg.database) :
  edges_well_formed db ->
  (forall new_id now,
      edges_well_formed (Ui.db (ContactsList.handleAddContact auth new_id now s db)))
  /\ (forall x,
        edges_well_formed (Ui.storage (ContactsList.handleRemoveContact auth x s db))).
Proof.
  intros [Hid [Hed Hself]]; split.
  - intros new_id now.
    destruct (handleAddContact_storage auth new_id now s db)
      as [[-> _]|[u [v [n [_ [Hv [_ [-> [_ Hfresh]]]]]]]]]; [repeat split; assumption|].
    unfold edges_well_formed; simpl; rewrite !map_app; simpl.
    split; [|split].
    + apply (Permutation_NoDup (l := new_id :: map Pg.ct_id (Pg.contacts db)));
        [apply Permutation_cons_append|].
      constructor; [|exact Hid].
      intros Hin; apply in_map_iff in Hin; destruct Hin as [c [E Hc]].
      exact (proj1 (Hfresh c Hc) E).
    + apply (Permutation_NoDup (l := (u, v) :: map edge (Pg.contacts db)));
        [apply Permutation_cons_append|].
      constructor; [|exact Hed].
      intros Hin; apply in_map_iff in Hin; destruct Hin as [c [E Hc]].
      exact (proj2 (Hfresh c Hc) E).
    + intros c Hc; apply in_app_or in Hc; destruct Hc as [Hc|[<-|[]]];
        [apply Hself; exact Hc|simpl; congruence].
  - intros x; unfold ContactsList.handleRemoveContact, Pg.delete_contact; simpl.
    unfold edges_well_formed; simpl; split; [|split].
    + apply filter_keeps_keys_distinct; exact Hid.
    + apply filter_keeps_keys_distinct; exact Hed.
    + intros c Hc; apply filter_In in Hc; apply Hself; tauto.
Qed.

(** X16.  Adding a contact and removing it again restores storage: when
    [handleAddContact] ends in "Contact added", the table has gained
    exactly one edge, from the caller to the resolved peer, and
    [handleRemoveContact] on that edge's id gives back the contacts
    table as it was, leaves the other tables alone and drops the entry
    from the list. *)
Theorem add_then_remove_restores_contacts
        (auth : Ui.Auth) (new_id : UUID) (now : Z)
        (s : ContactsList.state) (db : Pg.database) (n : string) :
  let e := ContactsList.handleAddContact auth new_id now s db in
  Ui.toasts e = [ContactsList.contact_added n] ->
  let o := ContactsList.handleRemoveContact auth new_id (Ui.st e) (Ui.db e) in
  (exists u v, Ui.user auth = Some u /\ v <> u
               /\ Pg.contacts (Ui.db e)
                  = Pg.contacts db ++ [Pg.mkContact new_id u v now]
               /\ In v (map Ui.contact_user_id (ContactsList.contacts (Ui.st e))))
  /\ Pg.contacts (Ui.storage o) = Pg.contacts db
  /\ Pg.profiles (Ui.storage o) = Pg.profiles db
  /\ Pg.messages (Ui.storage o) = Pg.messages db
  /\ forall c, In c (ContactsList.contacts (Ui.final o)) -> Ui.id c <> new_id.
Proof.
  intros e Hadded o.
  destruct (handleAddContact_storage auth new_id now s db)
    as [[_ Hno]|[u [v [n' [Hu [Hv [_ [Hdb [Hst Hfresh]]]]]]]]];
    [exfalso; exact (Hno n Hadded)|].
  fold e in Hdb, Hst.
  split.
  - exists u, v; split; [exact Hu|]; split; [exact Hv|].
    split; [rewrite Hdb; reflexivity|].
    rewrite Hst, (fetchContacts_lists_edges auth u) by exact Hu.
    rewrite Hdb; simpl Pg.contacts.
    rewrite filter_app, map_app; apply in_or_app; right.
    simpl; rewrite String.eqb_refl; left; reflexivity.
  - subst o; unfold ContactsList.handleRemoveContact, Pg.delete_contact; simpl.
    rewrite Hdb; simpl; repeat split.
    + rewrite filter_app; simpl.
      unfold Pg.removes at 2; simpl; rewrite Hu; unfold Pg.auth_is.
      rewrite !String.eqb_refl; simpl; rewrite app_nil_r.
      apply filter_all; intros c Hc; unfold Pg.removes.
      destruct (String.eqb_spec (Pg.ct_id c) new_id) as [E|E]; [|reflexivity].
      exfalso; exact (proj1 (Hfresh c Hc) E).
    + intros c Hc; apply filter_In in Hc; destruct Hc as [_ Hc].
      apply negb_true_iff, String.eqb_neq in Hc; exact Hc.
Qed.

(** Alice adds Bob and removes him again. *)
Lemma add_then_remove_restores_contacts_witness :
  let e := ContactsList.handleAddContact Example.as_alice "c1" 5000
             (Example.dialog Example.fresh "zz99yy88") Example.fresh in
  let o := ContactsList.handleRemoveContact Example.as_alice "c1" (Ui.st e) (Ui.db e) in
  Ui.toasts e = [ContactsList.contact_added "Bob"]
  /\ Pg.contacts (Ui.db e) = [Pg.mkContact "c1" Example.alice Example.bob 5000]
  /\ Pg.contacts (Ui.storage o) = Pg.contacts Example.fresh.
Proof.
  intros e o; split; [reflexivity|]; split; [reflexivity|].
  exact (proj1 (proj2 (add_then_remove_restores_contacts Example.as_alice "c1" 5000
                         (Example.dialog Example.fresh "zz99yy88") Example.fresh
                         "Bob" eq_refl))).
Defined.

Lemma fresh_edges_well_formed : edges_well_formed Example.fresh.
Proof. repeat split; try constructor; intros c []. Defined.

(** Alice adds Bob to an empty contacts table. *)
Lemma contact_handlers_keep_edges_well_formed_witness :
  edges_well_formed
    (Ui.db (ContactsList.handleAddContact Example.as_alice "c1" 5000
              (Example.dialog Example.fresh "zz99yy88") Example.fresh))
  /\ Pg.contacts
       (Ui.db (ContactsList.handleAddContact Example.as_alice "c1" 5000
                 (Example.dialog Example.fresh "zz99yy88") Example.fresh))
     = [Pg.mkContact "c1" Example.alice Example.bob 5000].
Proof.
  split; [|reflexivity].
  apply (proj1 (contact_handlers_keep_edges_well_formed Example.as_alice
                  (Example.dialog Example.fresh "zz99yy88") Example.fresh
                  fresh_edges_well_formed)).
Defined.

(** X17.  Contacts are one-way.  What [handleAddContact] does for one
    identity never changes the contact list another identity fetches:
    in particular the peer that was added does not find the owner among
    its own contacts. *)
Theorem adding_a_contact_is_one_way
        (auth viewer : Ui.Auth) (u w : UUID) (new_id : UUID) (now : Z)
        (s s_w : ContactsList.state) (db : Pg.database) :
  Ui.user auth = Some u ->
  Ui.user viewer = Some w ->
  w <> u ->
  let e := ContactsList.handleAddContact auth new_id now s db in
  ContactsList.contacts (ContactsList.fetchContacts viewer (Ui.db e) s_w)
  = ContactsList.contacts (ContactsList.fetchContacts viewer db s_w).
Proof.
  intros Hu Hw Hne e.
  destruct (handleAddContact_storage auth new_id now s db)
    as [[Hdb _]|[u' [v [n [Hu' [_ [_ [Hdb _]]]]]]]]; fold e in Hdb; rewrite Hdb;
    [reflexivity|].
  assert (u' = u) by congruence; subst u'.
  rewrite !(fetchContacts_contacts viewer w) by exact Hw; cbv zeta; simpl Pg.contacts.
  simpl Pg.profiles.
  assert (Hedges : filter (fun c => (Pg.ct_user_id c =? w)%string)
                          (Pg.contacts db ++ [Pg.mkContact new_id u v now])
                   = filter (fun c => (Pg.ct_user_id c =? w)%string) (Pg.contacts db)).
  { rewrite filter_app; simpl.
    apply not_eq_sym, String.eqb_neq in Hne; rewrite Hne; apply app_nil_r. }
  rewrite Hedges.
  assert (Hview : forall p,
             Pg.can_view_profile (Some w)
               (Pg.mkDatabase (Pg.profiles db)
                              (Pg.contacts db ++ [Pg.mkContact new_id u v now])
                              (Pg.messages db)) p
             = Pg.can_view_profile (Some w) db p).
  { intros p; unfold Pg.can_view_profile; simpl Pg.contacts.
    rewrite existsb_app; simpl.
    apply String.eqb_neq in Hne; rewrite Hne; simpl.
    rewrite !orb_false_r; reflexivity. }
  apply map_ext; intros c; f_equal.
  erewrite filter_ext; [reflexivity|].
  intros p; rewrite Hview; reflexivity.
Qed.

(** Alice adds Bob; Bob's list stays empty. *)
Lemma adding_a_contact_is_one_way_witness :
  let e := ContactsList.handleAddContact Example.as_alice "c1" 5000
             (Example.dialog Example.fresh "zz99yy88") Example.fresh in
  Pg.contacts (Ui.db e) = [Pg.mkContact "c1" Example.alice Example.bob 5000]
  /\ ContactsList.contacts
       (ContactsList.fetchContacts Example.as_bob (Ui.db e) (Example.dialog Example.fresh ""))
     = ContactsList.contacts
         (ContactsList.fetchContacts Example.as_bob Example.fresh
                                     (Example.dialog Example.fresh "")).
Proof.
  intros e; split; [reflexivity|].
  apply (adding_a_contact_is_one_way Example.as_alice Example.as_bob
           Example.alice Example.bob "c1" 5000); [reflexivity|reflexivity|discriminate].
Defined.

(** *** Searching the list *)

Lemma lower_idempotent (c : ascii) : Js.lower (Js.lower c) = Js.lower c.
Proof.
  destruct c as [[] [] [] [] [] [] [] []]; reflexivity.
Qed.

Lemma toLowerCase_idempotent (s : string) :
  Js.toLowerCase (Js.toLowerCase s) = Js.toLowerCase s.
Proof.
  induction s as [|c s IH]; simpl; [reflexivity|].
  rewrite lower_idempotent, IH; reflexivity.
Qed.

Lemma toLowerCase_append (a b : string) :
  Js.toLowerCase (a ++ b)%string = (Js.toLowerCase a ++ Js.toLowerCase b)%string.
Proof. induction a as [|c a IH]; simpl; [reflexivity|rewrite IH; reflexivity]. Qed.

Lemma prefix_append (a b : string) : String.prefix a (a ++ b)%string = true.
Proof.
  induction a as [|c a IH]; simpl; [destruct b; reflexivity|].
  destruct (ascii_dec c c); [exact IH|contradiction].
Qed.

Lemma includes_prefix (s sub : string) :
  String.prefix sub s = true -> Js.includes s sub = true.
Proof. intros H; destruct s; cbn [Js.includes]; rewrite H; reflexivity. Qed.

Lemma includes_append (pre mid post : string) :
  Js.includes (pre ++ mid ++ post)%string mid = true.
Proof.
  induction pre as [|c pre IH].
  - change (Js.includes (mid ++ post)%string mid = true).
    apply includes_prefix, prefix_append.
  - change (Js.includes (String c (pre ++ mid ++ post)) mid = true).
    cbn [Js.includes]; rewrite IH; apply orb_true_r.
Qed.

Lemma prefix_occurs (a b : string) :
  String.prefix a b = true -> exists post, b = (a ++ post)%string.
Proof.
  revert b; induction a as [|x a IH]; intros b H; [exists b; reflexivity|].
  destruct b as [|y b]; simpl in H; [discriminate|].
  destruct (ascii_dec x y) as [->|]; [|discriminate].
  destruct (IH b H) as [post ->]; exists post; reflexivity.
Qed.

Lemma includes_occurs (s sub : string) :
  Js.includes s sub = true -> exists pre post, s = (pre ++ sub ++ post)%string.
Proof.
  induction s as [|c s IH]; cbn [Js.includes]; intros H.
  - rewrite orb_false_r in H; destruct (prefix_occurs _ _ H) as [post E].
    exists EmptyString, post; exact E.
  - apply orb_true_iff in H; destruct H as [H|H].
    + destruct (prefix_occurs _ _ H) as [post E].
      exists EmptyString, post; exact E.
    + destruct (IH H) as [pre [post ->]].
      exists (String c pre), post; reflexivity.
Qed.

(** X18.  The search over the contact list ignores case: a contact is
    listed by [filteredContacts] exactly when it is in the list and its
    name, lowered, contains the lowered query somewhere; so the empty
    query lists everybody, every contact whose name contains the query
    in any mix of upper and lower case is found, and the order of the
    list is kept. *)
Theorem filteredContacts_ignores_case (s : ContactsList.state) :
  (forall c, In c (ContactsList.filteredContacts s)
             <-> In c (ContactsList.contacts s)
                 /\ exists pre post,
                      Js.toLowerCase (Ui.name (Ui.profile c))
                      = (pre ++ Js.toLowerCase (ContactsList.filter s) ++ post)%string)
  /\ (ContactsList.filter s = EmptyString ->
      ContactsList.filteredContacts s = ContactsList.contacts s)
  /\ (forall c pre mid post,
        In c (ContactsList.contacts s) ->
        Ui.name (Ui.profile c) = (pre ++ mid ++ post)%string ->
        Js.toLowerCase mid = Js.toLowerCase (ContactsList.filter s) ->
        In c (ContactsList.filteredContacts s))
  /\ (forall text,
        Js.toLowerCase text = Js.toLowerCase (ContactsList.filter s) ->
        ContactsList.filteredContacts
          (ContactsList.mkState (ContactsList.contacts s) (ContactsList.searchUid s)
                                (ContactsList.addDialogOpen s) (ContactsList.loading s)
                                text)
        = ContactsList.filteredContacts s).
Proof.
  unfold ContactsList.filteredContacts.
  split; [|split; [|split]].
  - intros c; rewrite filter_In; split; intros [Hc H]; (split; [exact Hc|]).
    + apply includes_occurs; exact H.
    + destruct H as [pre [post ->]]; apply includes_append.
  - intros ->; apply filter_all; intros c _; simpl.
    destruct (Js.toLowerCase (Ui.name (Ui.profile c))); reflexivity.
  - intros c pre mid post Hc Hname Hmid; apply filter_In; split; [exact Hc|].
    rewrite Hname, !toLowerCase_append, Hmid; apply includes_append.
  - intros text Htext; simpl; rewrite Htext; reflexivity.
Qed.

(** Searching "BO" among Alice's contacts finds Bob. *)
Lemma filteredContacts_ignores_case_witness :
  let s := ContactsList.mkState [Example.bob_contact; Example.alice_contact] ""
                                false false "BO" in
  ContactsList.filteredContacts s = [Example.bob_contact]
  /\ In Example.bob_contact (ContactsList.filteredContacts s).
Proof.
  intros s; split; [reflexivity|].
  apply (proj1 (proj2 (proj2 (filteredContacts_ignores_case s)))
           Example.bob_contact "" "Bo" "b");
    [left; reflexivity|reflexivity|reflexivity].
Defined.

(** ** Settings *)



(** ** Across the layers *)

Lemma lookup_row_has_profile (h : string) (db : Pg.database)
      (v : UUID) (n : string) (rest : list (UUID * string)) :
  fst (Pg.lookup_profile_by_uid (Some h) db) = (v, n) :: rest ->
  String.length h = 8%nat
  /\ rest = []
  /\ exists p, In p (Pg.profiles db) /\ Pg.pr_uid p = h
               /\ Pg.pr_user_id p = v /\ Pg.pr_name p = n.
Proof.
  unfold Pg.lookup_profile_by_uid.
  destruct (Nat.eqb_spec (String.length h) 8) as [Hlen|Hlen]; simpl; [|discriminate].
  destruct (filter (fun p => (Pg.pr_uid p =? h)%string) (Pg.profiles db))
    as [|p l] eqn:E; simpl; [discriminate|].
  intros H; injection H as <- <- <-.
  assert (Hp : In p (filter (fun p => (Pg.pr_uid p =? h)%string) (Pg.profiles db)))
    by (rewrite E; left; reflexivity).
  apply filter_In in Hp; destruct Hp as [Hp Hu]; apply String.eqb_eq in Hu.
  split; [exact Hlen|]; split; [reflexivity|].
  exists p; repeat split; assumption.
Qed.

Lemma append_cancel_r (a b c : string) :
  (a ++ c)%string = (b ++ c)%string -> a = b.
Proof.
  revert b; induction a as [|x a IH]; intros [|y b] H; simpl in H.
  - reflexivity.
  - exfalso; apply (f_equal String.length) in H.
    simpl in H; rewrite length_append in H; lia.
  - exfalso; apply (f_equal String.length) in H.
    simpl in H; rewrite length_append in H; lia.
  - injection H as -> H; rewrite (IH b H); reflexivity.
Qed.

(** X20.  The contact that is added is the one whose handle was typed.
    When [handleAddContact] ends in "Contact added", the typed text,
    trimmed, has 8 characters and is the handle of a stored profile of
    another identity; the new edge runs from the caller to that
    identity, and the toast carries that profile's name. *)
Theorem added_contact_bears_the_typed_handle
        (auth : Ui.Auth) (new_id : UUID) (now : Z)
        (s : ContactsList.state) (db : Pg.database) (n : string) :
  let e := ContactsList.handleAddContact auth new_id now s db in
  Ui.toasts e = [ContactsList.contact_added n] ->
  exists u p,
    Ui.user auth = Some u
    /\ In p (Pg.profiles db)
    /\ Pg.pr_uid p = Js.trim (ContactsList.searchUid s)
    /\ String.length (Pg.pr_uid p) = 8%nat
    /\ Pg.pr_user_id p <> u
    /\ Pg.contacts (Ui.db e)
       = Pg.contacts db ++ [Pg.mkContact new_id u (Pg.pr_user_id p) now]
    /\ n = Pg.pr_name p.
Proof.
  intros e Hadded; subst e.
  destruct (Ui.user auth) as [u|] eqn:Hu;
    [|rewrite handleAddContact_blank in Hadded by (left; exact Hu); discriminate].
  destruct (string_dec (Js.trim (ContactsList.searchUid s)) EmptyString) as [Hb|Hb];
    [rewrite handleAddContact_blank in Hadded by (right; exact Hb); discriminate|].
  rewrite (handleAddContact_after_guards auth u) in * by assumption; cbv zeta in *.
  destruct (negb _); [discriminate|].
  destruct (fst _) as [|[v n'] rest] eqn:Hfound; [discriminate|].
  destruct (lookup_row_has_profile _ _ _ _ _ Hfound) as [Hlen [_ [p [Hp [Hpu [Hpv Hpn]]]]]].
  destruct (String.eqb_spec v u) as [Hv|Hv]; [discriminate|].
  destruct (find _ _); [discriminate|].
  destruct (insert_contact_cases u v new_id now db) as [[x Hx]|[Hok _]];
    rewrite ?Hx, ?Hok in *; cbn [fst snd Pg.error Pg.failed Pg.ok] in *;
    [discriminate|].
  exists u, p; subst v n'; rewrite Hpu.
  repeat split; try assumption; try reflexivity.
  injection Hadded as H; symmetry; exact (append_cancel_r _ _ _ H).
Qed.

(** Alice types Bob's handle with blanks around it. *)
Lemma added_contact_bears_the_typed_handle_witness :
  let e := ContactsList.handleAddContact Example.as_alice "c1" 5000
             (Example.dialog Example.fresh " zz99yy88 ") Example.fresh in
  Ui.toasts e = [ContactsList.contact_added "Bob"]
  /\ exists u p, Ui.user Example.as_alice = Some u
                 /\ In p (Pg.profiles Example.fresh)
                 /\ Pg.pr_uid p = "zz99yy88"
                 /\ Pg.contacts (Ui.db e)
                    = [Pg.mkContact "c1" u (Pg.pr_user_id p) 5000].
Proof.
  intros e; split; [reflexivity|].
  destruct (added_contact_bears_the_typed_handle Example.as_alice "c1" 5000
              (Example.dialog Example.fresh " zz99yy88 ") Example.fresh "Bob" eq_refl)
    as [u [p [Hu [Hp [Huid [_ [_ [Hedge _]]]]]]]].
  exists u, p; repeat split; assumption.
Defined.

(** X21.  Nothing the chat view sends is blank to storage.  The text of
    every insert and every update it issues is the trimmed draft, is
    not empty, and is never refused by the trigger as "Message content
    cannot be empty": what [trim()] leaves non-empty, the trigger's
    [trim] does too. *)
Theorem chat_view_never_sends_blank_content
        (auth : Ui.Auth) (contact : option Ui.Contact) (now new_id_now : Z)
        (s : ChatArea.state) (db : Pg.database) :
  (forall a b text reply,
      ChatArea.send_request auth contact s now
      = Some (Ui.Insert_message a b text reply) ->
      text = Js.trim (ChatArea.newMessage s)
      /\ text <> EmptyString
      /\ Pg.validate_message_content text <> Some Pg.Message_content_cannot_be_empty)
  /\ (forall x text,
        In (Ui.Update_message x text)
           (Ui.requests (ChatArea.handleEditMessage auth new_id_now s db)) ->
        text = Js.trim (ChatArea.editContent s)
        /\ text <> EmptyString
        /\ Pg.validate_message_content text <> Some Pg.Message_content_cannot_be_empty).
Proof.
  assert (Hok : forall t, Js.trim t <> EmptyString ->
                          Pg.validate_message_content (Js.trim t)
                          <> Some Pg.Message_content_cannot_be_empty).
  { intros t Hne; unfold Pg.validate_message_content.
    pose proof (trimmed_text_not_blank t Hne) as Hb.
    apply Nat.eqb_neq in Hb; rewrite Hb.
    destruct (10000 <? _)%Z; discriminate. }
  split.
  - intros a b text reply; unfold ChatArea.send_request.
    destruct (Ui.user auth); [|discriminate].
    destruct contact; [|discriminate].
    destruct (Js.truthy (Js.trim (ChatArea.newMessage s))) eqn:Ht; simpl; [|discriminate].
    destruct (_ <? _)%Z; [discriminate|].
    intros H; injection H as _ _ <- _.
    apply truthy_iff in Ht; repeat split; [exact Ht|apply Hok; exact Ht].
  - intros x text; unfold ChatArea.handleEditMessage.
    destruct (ChatArea.editingMessage s) as [m|]; [|intros []].
    destruct (Js.truthy (Js.trim (ChatArea.editContent s))) eqn:Ht; simpl; [|intros []].
    destruct (Pg.update_message _ _ _ _ _) as [resp db'].
    apply truthy_iff in Ht.
    destruct (Pg.error resp); simpl; intros [H|[]]; injection H as _ <-;
      repeat split; try exact Ht; apply Hok; exact Ht.
Qed.

(** A draft of blanks and tabs is not sent; a padded draft is sent
    trimmed. *)
Lemma chat_view_never_sends_blank_content_witness :
  ChatArea.send_request Example.as_alice (Some Example.bob_contact)
                        (Example.drafting "   " 0) 1000000 = None
  /\ Pg.validate_message_content "hi" <> Some Pg.Message_content_cannot_be_empty.
Proof.
  split; [reflexivity|].
  apply (proj1 (chat_view_never_sends_blank_content
                  Example.as_alice (Some Example.bob_contact) 1000000 0
                  (Example.drafting " hi " 0) Example.talk)
           Example.alice Example.bob "hi" None eq_refl).
Defined.

(** X22.  However calls of [handleSendMessage] and answers interleave,
    each call accounts for at most one stored message: the rows in
    storage plus the inserts still in flight never exceed what there
    was at the start plus the number of calls, and no event removes a
    row. *)
Theorem each_send_stores_at_most_one_message
        (auth : Ui.Auth) (contact : option Ui.Contact) (es : list ChatArea.event) :
  forall w : ChatArea.session,
    let w' := ChatArea.run auth contact es w in
    (length (Pg.messages (ChatArea.store w')) + length (ChatArea.in_flight w')
     <= length (Pg.messages (ChatArea.store w)) + length (ChatArea.in_flight w)
        + calls_of_send es)%nat
    /\ (length (Pg.messages (ChatArea.store w))
        <= length (Pg.messages (ChatArea.store w')))%nat.
Proof.
  unfold ChatArea.run, calls_of_send.
  induction es as [|e es IH]; intros w; simpl; [lia|].
  specialize (IH (ChatArea.step auth contact e w)); simpl in IH.
  assert (Hstep :
            (length (Pg.messages (ChatArea.store (ChatArea.step auth contact e w)))
             + length (ChatArea.in_flight (ChatArea.step auth contact e w))
             <= length (Pg.messages (ChatArea.store w)) + length (ChatArea.in_flight w)
                + (if match e with ChatArea.Press_send _ => true | _ => false end
                   then 1 else 0))%nat
            /\ (length (Pg.messages (ChatArea.store w))
                <= length (Pg.messages (ChatArea.store (ChatArea.step auth contact e w))))%nat).
  { destruct e as [text|now|new_id db_now]; simpl.
    - lia.
    - destruct (ChatArea.send_request auth contact (ChatArea.ui w) now); simpl;
        rewrite ?length_app; simpl; lia.
    - destruct (Ui.user auth) as [u|]; [|lia].
      destruct (ChatArea.in_flight w) as [|[now r] rest] eqn:Hin;
        [simpl; rewrite Hin; simpl; lia|].
      assert (Hserve : (length (Pg.messages (snd (ChatArea.serve u new_id db_now r
                                                                 (ChatArea.store w))))
                        <= S (length (Pg.messages (ChatArea.store w))))%nat
                       /\ (length (Pg.messages (ChatArea.store w))
                           <= length (Pg.messages (snd (ChatArea.serve u new_id db_now r
                                                                       (ChatArea.store w)))))%nat).
      { destruct r; simpl; try lia.
        destruct (insert_message_cases (Some u) new_id db_now sender_id receiver_id
                    content reply_to_id (ChatArea.store w)) as [[x ->]|[-> _]]; simpl;
          rewrite ?length_app; simpl; lia. }
      destruct (ChatArea.serve u new_id db_now r (ChatArea.store w)) as [resp db'].
      destruct (ChatArea.send_settled now (Pg.error resp) (ChatArea.ui w)); simpl in *.
      lia. }
  destruct Hstep as [Hsum Hgrow]; destruct IH as [IHsum IHgrow].
  destruct e; cbn [length] in *; lia.
Qed.
